(** * Offline note and todo services: a shallow embedding

    The two storage-backed services of the application
    ([src/services/noteService.ts] and [src/services/todoService.ts]) are
    embedded as functions in a small state-and-exception monad over a
    [World] that holds the AsyncStorage contents, the console, the system
    clock and the availability of the storage backend. *)

From Stdlib Require Import ZArith Lia Ascii String.
From stdpp Require Import gmap strings list fin_maps pretty sorting.

Local Open Scope Z_scope.

(** ** JavaScript built-ins used by the services *)

(** [Date]: time values are milliseconds since the epoch, as in ECMA-262
    section 21.4.1. *)
Module JSDate.

Definition msPerDay : Z := 86400000.
Definition msPerHour : Z := 3600000.
Definition msPerMinute : Z := 60000.
Definition msPerSecond : Z := 1000.

Definition Day (t : Z) : Z := t / msPerDay.
Definition TimeWithinDay (t : Z) : Z := t mod msPerDay.

Definition HourFromTime (t : Z) : Z := (t / msPerHour) mod 24.
Definition MinFromTime (t : Z) : Z := (t / msPerMinute) mod 60.
Definition SecFromTime (t : Z) : Z := (t / msPerSecond) mod 60.
Definition msFromTime (t : Z) : Z := t mod msPerSecond.

(** The proleptic Gregorian calendar repeats every 400 years, that is
    every 146097 days.  Days are counted from 1 March of year 0 so that
    the leap day is the last day of the (shifted) year. *)
Definition daysPerEra : Z := 146097.
Definition epochShift : Z := 719468.

Definition yearOfEra (doe : Z) : Z :=
  (doe - doe / 1460 + doe / 36524 - doe / 146096) / 365.
Definition dayOfYear (doe : Z) : Z :=
  let yoe := yearOfEra doe in doe - (365 * yoe + yoe / 4 - yoe / 100).
Definition monthIndex (doy : Z) : Z := (5 * doy + 2) / 153.

(** Calendar fields of a day number; the month is 1-based here. *)
Definition civilFromDay (day : Z) : Z * Z * Z :=
  let z := day + epochShift in
  let era := z / daysPerEra in
  let doe := z mod daysPerEra in
  let yoe := yearOfEra doe in
  let doy := dayOfYear doe in
  let mp := monthIndex doy in
  let d := doy - (153 * mp + 2) / 5 + 1 in
  let m := if mp <? 10 then mp + 3 else mp - 9 in
  let y := yoe + era * 400 + (if m <=? 2 then 1 else 0) in
  (y, m, d).

Definition YearFromTime (t : Z) : Z := (civilFromDay (Day t)).1.1.
Definition MonthFromTime (t : Z) : Z := (civilFromDay (Day t)).1.2 - 1.
Definition DateFromTime (t : Z) : Z := (civilFromDay (Day t)).2.

(** Day number of a calendar date (month 1-based). *)
Definition dayFromCivil (y m d : Z) : Z :=
  let y' := if m <=? 2 then y - 1 else y in
  let era := y' / 400 in
  let yoe := y' mod 400 in
  let mp := if m <=? 2 then m + 9 else m - 3 in
  let doy := (153 * mp + 2) / 5 + d - 1 in
  let doe := yoe * 365 + yoe / 4 - yoe / 100 + doy in
  era * daysPerEra + doe - epochShift.

Definition MakeTime (h mi s ms : Z) : Z :=
  h * msPerHour + mi * msPerMinute + s * msPerSecond + ms.
Definition MakeDate (day time : Z) : Z := day * msPerDay + time.

Definition isLeapYear (y : Z) : bool :=
  ((y mod 4 =? 0) && negb (y mod 100 =? 0)) || (y mod 400 =? 0).
Definition DaysInMonth (y m : Z) : Z :=
  if m =? 2 then (if isLeapYear y then 29 else 28)
  else if (m =? 4) || (m =? 6) || (m =? 9) || (m =? 11) then 30
  else 31.

(** Decimal digits. *)
Definition digitChar (d : Z) : ascii := ascii_of_nat (48 + Z.to_nat d).
Definition digitValue (c : ascii) : option Z :=
  let n := Z.of_nat (nat_of_ascii c) in
  if (48 <=? n) && (n <=? 57) then Some (n - 48) else None.

(** [padDigits w n acc]: the last [w] decimal digits of [n], most
    significant first, in front of [acc]. *)
Fixpoint padDigits (w : nat) (n : Z) (acc : string) : string :=
  match w with
  | O => acc
  | S w' => padDigits w' (n / 10) (String (digitChar (n mod 10)) acc)
  end.
Definition pad (w : nat) (n : Z) : string := padDigits w n EmptyString.

Fixpoint digitsValue (cs : list ascii) (acc : Z) : option Z :=
  match cs with
  | [] => Some acc
  | c :: cs' =>
      match digitValue c with
      | Some d => digitsValue cs' (10 * acc + d)
      | None => None
      end
  end.
Definition number (cs : list ascii) : option Z := digitsValue cs 0.

(** [Date.prototype.toISOString] (ECMA-262 21.4.4.36):
    [YYYY-MM-DDTHH:mm:ss.sssZ], with the expanded six-digit signed year
    outside 0..9999. *)
Definition yearString (y : Z) : string :=
  if (0 <=? y) && (y <=? 9999) then pad 4 y
  else String (if y <? 0 then "-"%char else "+"%char) (pad 6 (Z.abs y)).

Definition toISOString (t : Z) : string :=
  yearString (YearFromTime t) +:+ "-" +:+ pad 2 (MonthFromTime t + 1) +:+ "-"
    +:+ pad 2 (DateFromTime t) +:+ "T" +:+ pad 2 (HourFromTime t) +:+ ":"
    +:+ pad 2 (MinFromTime t) +:+ ":" +:+ pad 2 (SecFromTime t) +:+ "."
    +:+ pad 3 (msFromTime t) +:+ "Z".

(** The time value of [new Date(s)] for a string in the format that
    [toISOString] writes for the years 0000..9999; [None] stands for the
    time value NaN of an Invalid Date.  Strings outside that format are
    left to the engine by ECMA-262 (21.4.3.2) and are not modelled: they
    read as NaN here. *)
Definition parse (s : string) : option Z :=
  match list_ascii_of_string s with
  | [y1; y2; y3; y4; dash1; m1; m2; dash2; d1; d2; sepT; h1; h2; col1;
     mi1; mi2; col2; s1; s2; dot; f1; f2; f3; zed] =>
      if bool_decide ([dash1; dash2; sepT; col1; col2; dot; zed]
                      = ["-"; "-"; "T"; ":"; ":"; "."; "Z"]%char)
      then
        y ← number [y1; y2; y3; y4];
        m ← number [m1; m2];
        d ← number [d1; d2];
        h ← number [h1; h2];
        mi ← number [mi1; mi2];
        sec ← number [s1; s2];
        ms ← number [f1; f2; f3];
        if (1 <=? m) && (m <=? 12) && (1 <=? d) && (d <=? DaysInMonth y m)
           && (h <=? 23) && (mi <=? 59) && (sec <=? 59)
        then Some (MakeDate (dayFromCivil y m d) (MakeTime h mi sec ms))
        else None
      else None
  | _ => None
  end.

(** The shape of the strings [toISOString] writes: digits in the
    pattern [YYYY-MM-DDTHH:mm:ss.sssZ] or [±YYYYYY-MM-DDTHH:mm:ss.sssZ]. *)
Definition isDigit (c : ascii) : bool :=
  match digitValue c with Some _ => true | None => false end.

Definition isDateTimeTail (cs : list ascii) : bool :=
  match cs with
  | [dash1; m1; m2; dash2; d1; d2; sepT; h1; h2; col1;
     mi1; mi2; col2; s1; s2; dot; f1; f2; f3; zed] =>
      bool_decide ([dash1; dash2; sepT; col1; col2; dot; zed]
                   = ["-"; "-"; "T"; ":"; ":"; "."; "Z"]%char)
      && forallb isDigit [m1; m2; d1; d2; h1; h2; mi1; mi2; s1; s2; f1; f2; f3]
  | _ => false
  end.

Definition isISOFormat (s : string) : bool :=
  match list_ascii_of_string s with
  | y1 :: y2 :: y3 :: y4 :: rest =>
      if isDigit y1
      then forallb isDigit [y2; y3; y4] && isDateTimeTail rest
      else
        match rest with
        | y5 :: y6 :: rest' =>
            bool_decide (y1 = "+"%char ∨ y1 = "-"%char)
            && forallb isDigit [y2; y3; y4; y5; y6]
            && match rest' with
               | y7 :: tail => isDigit y7 && isDateTimeTail tail
               | [] => false
               end
        | _ => false
        end
  | _ => false
  end.

End JSDate.

(** [Array.prototype.sort] with a comparison function (ECMA-262 23.1.3.30).
    The comparison function returns a number; NaN is [None]. *)
Section ArraySort.
Context {A : Type}.
Variable comparefn : A → A → option Z.

(** SortCompare: a NaN result of the comparison function counts as +0. *)
Definition SortCompare (x y : A) : Z := default 0 (comparefn x y).

(** The sort is stable: an element goes in front of the elements that
    followed it in the array unless one of them compares strictly
    smaller.  For a consistent comparison function the result of a stable
    sort is unique, so any stable algorithm models the engine; for an
    inconsistent one the order is left to the engine by the standard. *)
Fixpoint sortInsert (x : A) (l : list A) : list A :=
  match l with
  | [] => [x]
  | y :: l' =>
      if SortCompare x y <=? 0 then x :: y :: l' else y :: sortInsert x l'
  end.

Definition Array_sort (l : list A) : list A := foldr sortInsert [] l.

(** [x] is not sorted after [y]. *)
Definition sortsBefore (x y : A) : Prop := SortCompare x y <= 0.
End ArraySort.

(** [Array.from(new Set(l))]: the elements of [l] without repetition, in
    the order of their first occurrence. *)
Fixpoint uniqueFrom (seen l : list string) : list string :=
  match l with
  | [] => []
  | x :: l' =>
      if decide (x ∈ seen) then uniqueFrom seen l'
      else x :: uniqueFrom (x :: seen) l'
  end.
Definition Array_from_Set (l : list string) : list string := uniqueFrom [] l.

(** [String.prototype.toLowerCase] and [String.prototype.includes] work on
    UTF-16 text with the Unicode case mapping.  The two search operations
    take them as arguments. *)
Record StringBuiltins : Type := mkStringBuiltins {
  toLowerCase : string → string;
  includes : string → string → bool;   (* [includes s part] is [s.includes(part)] *)
}.

(** ** Data model ([src/types/note.types.ts], [src/types/todo.types.ts]) *)

(** An optional property [p?: T] is an [option]: [None] is [undefined]. *)

Module Note.
Record t : Type := mk {
  id : string;
  title : string;
  content : string;
  category : option string;
  tags : option (list string);
  isPinned : bool;
  createdAt : string;
  updatedAt : string;
}.
End Note.

Module CreateNoteDto.
Record t : Type := mk {
  title : string;
  content : string;
  category : option string;
  tags : option (list string);
  isPinned : option bool;
}.
End CreateNoteDto.

(** [UpdateNoteDto] is [Partial<CreateNoteDto>].  The object spread in
    [updateNote] copies the properties that are present in the dto, so a
    field is [None] when the property is absent.  Where the property of the
    record is itself optional, a present property may hold [undefined]
    (the forms send [category: undefined] to clear a category): that is
    [Some None].  A present [undefined] for a required property would give
    a record outside the [Note] type and is not part of the typed model. *)
Module UpdateNoteDto.
Record t : Type := mk {
  title : option string;
  content : option string;
  category : option (option string);
  tags : option (option (list string));
  isPinned : option bool;
}.
Definition empty : t := mk None None None None None.
End UpdateNoteDto.

Inductive Priority : Type := low | medium | high.

Module Todo.
Record t : Type := mk {
  id : string;
  title : string;
  description : option string;
  completed : bool;
  priority : Priority;
  dueDate : option string;
  createdAt : string;
  updatedAt : string;
}.
End Todo.

Module CreateTodoDto.
Record t : Type := mk {
  title : string;
  description : option string;
  priority : option Priority;
  dueDate : option string;
}.
End CreateTodoDto.

(** [UpdateTodoDto extends Partial<CreateTodoDto>] with [completed?]. *)
Module UpdateTodoDto.
Record t : Type := mk {
  title : option string;
  description : option (option string);
  priority : option Priority;
  dueDate : option (option string);
  completed : option bool;
}.
Definition empty : t := mk None None None None None.
End UpdateTodoDto.

#[global] Instance Priority_eq_dec : EqDecision Priority.
Proof. solve_decision. Defined.

(** ** The world the services run in *)

Inductive JSError : Type :=
  | Error (message : string)   (* [new Error(message)] *)
  | SyntaxError                (* raised by [JSON.parse] *)
  | StorageError.              (* rejection of an AsyncStorage call *)

(** A value kept by AsyncStorage is a text.  The services only ever write
    [JSON.stringify] of a record array, and [JSON.parse] gives the array
    back, so such a text is represented by the array it encodes. *)
Inductive StoredText : Type :=
  | JsonNotes (notes : list Note.t)
  | JsonTodos (todos : list Todo.t)
  | Unparsable (raw : string).   (* a text that [JSON.parse] rejects *)

Record World : Type := mkWorld {
  storage : gmap string StoredText;   (* contents of AsyncStorage *)
  console : list (string * JSError);  (* what [console.error] printed *)
  clock : nat → Z;     (* the time value the n-th coming clock read sees *)
  rejects : nat → bool; (* whether the n-th coming AsyncStorage call rejects *)
}.

Inductive Outcome (A : Type) : Type :=
  | Returned (a : A)
  | Thrown (e : JSError).
Arguments Returned {A} a.
Arguments Thrown {A} e.

(** An [async] method: a state transformer that returns or throws. *)
Definition Async (A : Type) : Type := World → Outcome A * World.

Definition ret {A} (a : A) : Async A := λ w, (Returned a, w).
Definition throw {A} (e : JSError) : Async A := λ w, (Thrown e, w).
Definition bind {A B} (m : Async A) (k : A → Async B) : Async B :=
  λ w, match m w with
       | (Returned a, w') => k a w'
       | (Thrown e, w') => (Thrown e, w')
       end.
Definition try_catch {A} (body : Async A) (handler : JSError → Async A)
  : Async A :=
  λ w, match body w with
       | (Returned a, w') => (Returned a, w')
       | (Thrown e, w') => handler e w'
       end.

Notation "'let!' x := m 'in' k" := (bind m (λ x, k))
  (at level 10, x name, m at level 100, k at level 200).
Notation "'run!' m 'in' k" := (bind m (λ _, k))
  (at level 10, m at level 100, k at level 200).

Definition tick (w : World) : World :=
  mkWorld (storage w) (console w) (λ n, clock w (S n)) (rejects w).
Definition served (w : World) : World :=
  mkWorld (storage w) (console w) (clock w) (λ n, rejects w (S n)).

(** [Date.now()] *)
Definition Date_now : Async Z := λ w, (Returned (clock w 0%nat), tick w).
(** [new Date().toISOString()] *)
Definition new_Date_toISOString : Async string :=
  let! t := Date_now in ret (JSDate.toISOString t).

Definition console_error (label : string) (e : JSError) : Async unit :=
  λ w, (Returned (),
        mkWorld (storage w) (console w ++ [(label, e)]) (clock w) (rejects w)).

Module AsyncStorage.
Definition getItem (key : string) : Async (option StoredText) :=
  λ w, if rejects w 0%nat then (Thrown StorageError, served w)
       else (Returned (storage w !! key), served w).

Definition setItem (key : string) (value : StoredText) : Async unit :=
  λ w, if rejects w 0%nat then (Thrown StorageError, served w)
       else (Returned (),
             mkWorld (<[key := value]> (storage w)) (console w) (clock w)
                     (λ n, rejects w (S n))).

Definition removeItem (key : string) : Async unit :=
  λ w, if rejects w 0%nat then (Thrown StorageError, served w)
       else (Returned (),
             mkWorld (delete key (storage w)) (console w) (clock w)
                     (λ n, rejects w (S n))).
End AsyncStorage.

(** The empty string is the only falsy text in [data ? ... : []]. *)
Definition truthy (data : StoredText) : bool :=
  match data with
  | Unparsable EmptyString => false
  | _ => true
  end.

(** ** [NoteService] ([src/services/noteService.ts]) *)

Module NoteService.

Definition STORAGE_KEY : string := "@notes".

(** [JSON.parse(data)] at the type [Note[]] that [getNotes] gives it.  A
    todo array under the notes key has no value of that type; the typed
    model reads it as a failed parse. *)
Definition JSON_parse (data : StoredText) : Async (list Note.t) :=
  match data with
  | JsonNotes notes => ret notes
  | JsonTodos _ | Unparsable _ => throw SyntaxError
  end.

Definition JSON_stringify (notes : list Note.t) : StoredText :=
  JsonNotes notes.

(** [new Date(s).getTime()] *)
Definition getTime (s : string) : option Z := JSDate.parse s.

(** The comparison function of [getNotes]: pinned first, then by
    [updatedAt] descending.  A subtraction with NaN is NaN. *)
Definition compareNotes (a b : Note.t) : option Z :=
  if negb (Bool.eqb (Note.isPinned a) (Note.isPinned b))
  then Some (if Note.isPinned a then -1 else 1)
  else
    tb ← getTime (Note.updatedAt b);
    ta ← getTime (Note.updatedAt a);
    Some (tb - ta).

Definition getNotes : Async (list Note.t) :=
  try_catch
    (let! data := AsyncStorage.getItem STORAGE_KEY in
     let! notes :=
       match data with
       | Some text => if truthy text then JSON_parse text else ret []
       | None => ret []
       end in
     ret (Array_sort compareNotes notes))
    (λ error,
       run! console_error "Error loading notes:" error in
       ret []).

Definition saveNotes (notes : list Note.t) : Async unit :=
  try_catch
    (AsyncStorage.setItem STORAGE_KEY (JSON_stringify notes))
    (λ error,
       run! console_error "Error saving notes:" error in
       throw (Error "Failed to save notes")).

Definition getNoteById (id : string) : Async (option Note.t) :=
  let! notes := getNotes in
  ret (snd <$> list_find (λ note, Note.id note = id) notes).

Definition createNote (data : CreateNoteDto.t) : Async Note.t :=
  let! notes := getNotes in
  let! now := Date_now in
  let! createdAt := new_Date_toISOString in
  let! updatedAt := new_Date_toISOString in
  let newNote :=
    Note.mk (pretty now)
            (CreateNoteDto.title data)
            (CreateNoteDto.content data)
            (CreateNoteDto.category data)
            (Some (default [] (CreateNoteDto.tags data)))
            (default false (CreateNoteDto.isPinned data))
            createdAt
            updatedAt in
  run! saveNotes (notes ++ [newNote]) in
  ret newNote.

(** [{ ...note, ...data, updatedAt }] *)
Definition spread (note : Note.t) (data : UpdateNoteDto.t)
    (updatedAt : string) : Note.t :=
  Note.mk (Note.id note)
          (default (Note.title note) (UpdateNoteDto.title data))
          (default (Note.content note) (UpdateNoteDto.content data))
          (default (Note.category note) (UpdateNoteDto.category data))
          (default (Note.tags note) (UpdateNoteDto.tags data))
          (default (Note.isPinned note) (UpdateNoteDto.isPinned data))
          (Note.createdAt note)
          updatedAt.

Definition updateNote (id : string) (data : UpdateNoteDto.t)
  : Async (option Note.t) :=
  let! notes := getNotes in
  match list_find (λ note, Note.id note = id) notes with
  | None => throw (Error "Note not found")
  | Some (index, note) =>
      let! updatedAt := new_Date_toISOString in
      let updatedNote := spread note data updatedAt in
      run! saveNotes (<[index := updatedNote]> notes) in
      ret (Some updatedNote)
  end.

Definition deleteNote (id : string) : Async unit :=
  let! notes := getNotes in
  let filtered := filter (λ note, Note.id note ≠ id) notes in
  saveNotes filtered.

Definition togglePinNote (id : string) : Async (option Note.t) :=
  let! note := getNoteById id in
  match note with
  | None => ret None
  | Some note =>
      updateNote id
        (UpdateNoteDto.mk None None None None
                          (Some (negb (Note.isPinned note))))
  end.

Definition getPinnedNotes : Async (list Note.t) :=
  let! notes := getNotes in
  ret (filter (λ note, Note.isPinned note = true) notes).

Definition getNotesByCategory (category : string) : Async (list Note.t) :=
  let! notes := getNotes in
  ret (filter (λ note, Note.category note = Some category) notes).

Definition searchNotes (js : StringBuiltins) (query : string)
  : Async (list Note.t) :=
  let! notes := getNotes in
  let lowerQuery := toLowerCase js query in
  ret (filter
         (λ note,
            includes js (toLowerCase js (Note.title note)) lowerQuery
            || includes js (toLowerCase js (Note.content note)) lowerQuery
            || match Note.tags note with
               | Some tags =>
                   existsb (λ tag, includes js (toLowerCase js tag) lowerQuery)
                           tags
               | None => false
               end = true)
         notes).

(** [!!category]: a category that is present and not the empty string. *)
Definition getCategories : Async (list string) :=
  let! notes := getNotes in
  let categories :=
    omap (λ note, match Note.category note with
                  | Some EmptyString | None => None
                  | Some category => Some category
                  end) notes in
  ret (Array_from_Set categories).

Definition getAllTags : Async (list string) :=
  let! notes := getNotes in
  let allTags := mbind (λ note, default [] (Note.tags note)) notes in
  ret (Array_from_Set allTags).

Definition clearAllNotes : Async unit :=
  AsyncStorage.removeItem STORAGE_KEY.

Module Stats.
Record t : Type := mk {
  total : nat;
  pinned : nat;
  categories : nat;
  tags : nat;
}.
End Stats.

Definition getNotesStats : Async Stats.t :=
  let! notes := getNotes in
  let! categories := getCategories in
  let! tags := getAllTags in
  ret (Stats.mk (length notes)
                (length (filter (λ n, Note.isPinned n = true) notes))
                (length categories)
                (length tags)).

End NoteService.

(** ** [TodoService] ([src/services/todoService.ts]) *)

Module TodoService.

Definition STORAGE_KEY : string := "@todos".

(** [JSON.parse(data)] at the type [Todo[]]; a note array under the todos
    key is outside the typed model and reads as a failed parse. *)
Definition JSON_parse (data : StoredText) : Async (list Todo.t) :=
  match data with
  | JsonTodos todos => ret todos
  | JsonNotes _ | Unparsable _ => throw SyntaxError
  end.

Definition JSON_stringify (todos : list Todo.t) : StoredText :=
  JsonTodos todos.

Definition getTodos : Async (list Todo.t) :=
  try_catch
    (let! data := AsyncStorage.getItem STORAGE_KEY in
     match data with
     | Some text => if truthy text then JSON_parse text else ret []
     | None => ret []
     end)
    (λ error,
       run! console_error "Error loading todos:" error in
       ret []).

Definition saveTodos (todos : list Todo.t) : Async unit :=
  try_catch
    (AsyncStorage.setItem STORAGE_KEY (JSON_stringify todos))
    (λ error,
       run! console_error "Error saving todos:" error in
       throw (Error "Failed to save todos")).

Definition getTodoById (id : string) : Async (option Todo.t) :=
  let! todos := getTodos in
  ret (snd <$> list_find (λ todo, Todo.id todo = id) todos).

Definition createTodo (data : CreateTodoDto.t) : Async Todo.t :=
  let! todos := getTodos in
  let! now := Date_now in
  let! createdAt := new_Date_toISOString in
  let! updatedAt := new_Date_toISOString in
  let newTodo :=
    Todo.mk (pretty now)
            (CreateTodoDto.title data)
            (CreateTodoDto.description data)
            false
            (default medium (CreateTodoDto.priority data))
            (CreateTodoDto.dueDate data)
            createdAt
            updatedAt in
  run! saveTodos (todos ++ [newTodo]) in
  ret newTodo.

(** [{ ...todo, ...data, updatedAt }] *)
Definition spread (todo : Todo.t) (data : UpdateTodoDto.t)
    (updatedAt : string) : Todo.t :=
  Todo.mk (Todo.id todo)
          (default (Todo.title todo) (UpdateTodoDto.title data))
          (default (Todo.description todo) (UpdateTodoDto.description data))
          (default (Todo.completed todo) (UpdateTodoDto.completed data))
          (default (Todo.priority todo) (UpdateTodoDto.priority data))
          (default (Todo.dueDate todo) (UpdateTodoDto.dueDate data))
          (Todo.createdAt todo)
          updatedAt.

Definition updateTodo (id : string) (data : UpdateTodoDto.t)
  : Async (option Todo.t) :=
  let! todos := getTodos in
  match list_find (λ todo, Todo.id todo = id) todos with
  | None => throw (Error "Todo not found")
  | Some (index, todo) =>
      let! updatedAt := new_Date_toISOString in
      let updatedTodo := spread todo data updatedAt in
      run! saveTodos (<[index := updatedTodo]> todos) in
      ret (Some updatedTodo)
  end.

Definition deleteTodo (id : string) : Async unit :=
  let! todos := getTodos in
  let filtered := filter (λ todo, Todo.id todo ≠ id) todos in
  saveTodos filtered.

Definition toggleTodo (id : string) : Async (option Todo.t) :=
  let! todo := getTodoById id in
  match todo with
  | None => ret None
  | Some todo =>
      updateTodo id
        (UpdateTodoDto.mk None None None None
                          (Some (negb (Todo.completed todo))))
  end.

Definition getTodosByStatus (completed : bool) : Async (list Todo.t) :=
  let! todos := getTodos in
  ret (filter (λ todo, Todo.completed todo = completed) todos).

Definition getTodosByPriority (priority : Priority) : Async (list Todo.t) :=
  let! todos := getTodos in
  ret (filter (λ todo, Todo.priority todo = priority) todos).

Definition searchTodos (js : StringBuiltins) (query : string)
  : Async (list Todo.t) :=
  let! todos := getTodos in
  let lowerQuery := toLowerCase js query in
  ret (filter
         (λ todo,
            includes js (toLowerCase js (Todo.title todo)) lowerQuery
            || match Todo.description todo with
               | Some description =>
                   includes js (toLowerCase js description) lowerQuery
               | None => false
               end = true)
         todos).

Definition clearAllTodos : Async unit :=
  AsyncStorage.removeItem STORAGE_KEY.

Module Stats.
Record t : Type := mk {
  total : nat;
  completed : nat;
  active : nat;
  highPriority : nat;
}.
End Stats.

Definition getTodosStats : Async Stats.t :=
  let! todos := getTodos in
  ret (Stats.mk
         (length todos)
         (length (filter (λ t, Todo.completed t = true) todos))
         (length (filter (λ t, Todo.completed t = false) todos))
         (length (filter (λ t, Todo.priority t = high
                               ∧ Todo.completed t = false) todos))).

End TodoService.

(** ** Vocabulary of the statements *)

(** The collection that the text under a service's key encodes; a missing
    entry and a text that does not parse encode no record. *)
Definition storedNotes (w : World) : list Note.t :=
  match storage w !! NoteService.STORAGE_KEY with
  | Some (JsonNotes notes) => notes
  | _ => []
  end.

Definition storedTodos (w : World) : list Todo.t :=
  match storage w !! TodoService.STORAGE_KEY with
  | Some (JsonTodos todos) => todos
  | _ => []
  end.

(** What [getNotes] and [getTodos] hand to their callers: the stored
    collection (sorted, for notes), or nothing when the read is rejected. *)
Definition loadedNotes (w : World) : list Note.t :=
  if rejects w 0%nat then []
  else Array_sort NoteService.compareNotes (storedNotes w).

Definition loadedTodos (w : World) : list Todo.t :=
  if rejects w 0%nat then [] else storedTodos w.

(** The data-model invariant on timestamps: [updatedAt] is a date string
    in the format the service writes. *)
Definition timestamped (note : Note.t) : Prop :=
  is_Some (NoteService.getTime (Note.updatedAt note)).

(** [a] may be listed before [b]: pinned notes come first, and of two
    notes of the same group the more recently updated one comes first. *)
Definition pinnedFirst (a b : Note.t) : Prop :=
  Note.isPinned b = true → Note.isPinned a = true.

Definition displayOrder (a b : Note.t) : Prop :=
  pinnedFirst a b ∧
  (Note.isPinned a = Note.isPinned b →
   ∀ ta tb, NoteService.getTime (Note.updatedAt a) = Some ta →
            NoteService.getTime (Note.updatedAt b) = Some tb → tb <= ta).

(** The records that [createNote] and [createTodo] build from the dto and
    their three clock reads. *)
Definition createdNote (data : CreateNoteDto.t) (now t1 t2 : Z) : Note.t :=
  Note.mk (pretty now)
          (CreateNoteDto.title data) (CreateNoteDto.content data)
          (CreateNoteDto.category data)
          (Some (default [] (CreateNoteDto.tags data)))
          (default false (CreateNoteDto.isPinned data))
          (JSDate.toISOString t1) (JSDate.toISOString t2).

Definition createdTodo (data : CreateTodoDto.t) (now t1 t2 : Z) : Todo.t :=
  Todo.mk (pretty now)
          (CreateTodoDto.title data) (CreateTodoDto.description data)
          false
          (default medium (CreateTodoDto.priority data))
          (CreateTodoDto.dueDate data)
          (JSDate.toISOString t1) (JSDate.toISOString t2).

(** The world after [io] AsyncStorage calls and [ticks] clock reads that
    left the storage as [st] and printed [log] on the console. *)
Definition later (w : World) (io ticks : nat) (st : gmap string StoredText)
    (log : list (string * JSError)) : World :=
  mkWorld st (console w ++ log)
          (λ n, clock w (ticks + n)%nat) (λ n, rejects w (io + n)%nat).

(** A sample world: a working storage and a clock that advances by one
    millisecond at every read. *)
Definition sampleNotes : list Note.t :=
  [ Note.mk "1" "milk" "buy milk" None None false
            "2023-11-14T22:13:20.123Z" "2023-11-14T22:13:20.123Z";
    Note.mk "2" "keys" "spare keys" (Some "home") (Some ["k"]) true
            "2023-11-15T08:00:00.000Z" "2023-11-15T08:00:00.000Z";
    Note.mk "3" "talk" "slides" None None false
            "2023-11-16T09:30:00.000Z" "2024-01-02T10:00:00.500Z" ].

Definition sampleTodos : list Todo.t :=
  [ Todo.mk "10" "ship" None false high None
            "2023-11-14T22:13:20.123Z" "2023-11-14T22:13:20.123Z";
    Todo.mk "11" "test" (Some "all of it") true high None
            "2023-11-15T08:00:00.000Z" "2023-11-15T09:00:00.000Z";
    Todo.mk "12" "rest" None false low (Some "2024-01-01")
            "2023-11-16T09:30:00.000Z" "2023-11-16T09:30:00.000Z" ].

Definition sampleStorage : gmap string StoredText :=
  <[NoteService.STORAGE_KEY := JsonNotes sampleNotes]>
    (<[TodoService.STORAGE_KEY := JsonTodos sampleTodos]> ∅).

Definition sampleWorld : World :=
  mkWorld sampleStorage [] (λ n, 1700000000000 + Z.of_nat n) (λ _, false).

(** Reading the collection under [key] fails: AsyncStorage rejects the
    read, or the text it delivers makes [JSON.parse] throw. *)
Definition readFails (key : string) (w : World) : Prop :=
  rejects w 0%nat = true
  ∨ ∃ raw, raw ≠ EmptyString ∧ storage w !! key = Some (Unparsable raw).

Definition brokenWorld : World :=
  mkWorld (<[TodoService.STORAGE_KEY := Unparsable "[{"]> sampleStorage) []
          (λ n, 1700000000000 + Z.of_nat n)
          (λ n, bool_decide (n = 2%nat)).

(** The operations of the two services, indexed by what they resolve to. *)
Inductive NoteOp : Type → Type :=
  | GetNotes : NoteOp (list Note.t)
  | GetNoteById (id : string) : NoteOp (option Note.t)
  | CreateNote (data : CreateNoteDto.t) : NoteOp Note.t
  | UpdateNote (id : string) (data : UpdateNoteDto.t) : NoteOp (option Note.t)
  | DeleteNote (id : string) : NoteOp unit
  | TogglePinNote (id : string) : NoteOp (option Note.t)
  | GetPinnedNotes : NoteOp (list Note.t)
  | GetNotesByCategory (category : string) : NoteOp (list Note.t)
  | SearchNotes (js : StringBuiltins) (query : string) : NoteOp (list Note.t)
  | GetCategories : NoteOp (list string)
  | GetAllTags : NoteOp (list string)
  | ClearAllNotes : NoteOp unit
  | GetNotesStats : NoteOp NoteService.Stats.t.

Definition noteService {A} (op : NoteOp A) : Async A :=
  match op with
  | GetNotes => NoteService.getNotes
  | GetNoteById id => NoteService.getNoteById id
  | CreateNote data => NoteService.createNote data
  | UpdateNote id data => NoteService.updateNote id data
  | DeleteNote id => NoteService.deleteNote id
  | TogglePinNote id => NoteService.togglePinNote id
  | GetPinnedNotes => NoteService.getPinnedNotes
  | GetNotesByCategory category => NoteService.getNotesByCategory category
  | SearchNotes js query => NoteService.searchNotes js query
  | GetCategories => NoteService.getCategories
  | GetAllTags => NoteService.getAllTags
  | ClearAllNotes => NoteService.clearAllNotes
  | GetNotesStats => NoteService.getNotesStats
  end.

Inductive TodoOp : Type → Type :=
  | GetTodos : TodoOp (list Todo.t)
  | GetTodoById (id : string) : TodoOp (option Todo.t)
  | CreateTodo (data : CreateTodoDto.t) : TodoOp Todo.t
  | UpdateTodo (id : string) (data : UpdateTodoDto.t) : TodoOp (option Todo.t)
  | DeleteTodo (id : string) : TodoOp unit
  | ToggleTodo (id : string) : TodoOp (option Todo.t)
  | GetTodosByStatus (completed : bool) : TodoOp (list Todo.t)
  | GetTodosByPriority (priority : Priority) : TodoOp (list Todo.t)
  | SearchTodos (js : StringBuiltins) (query : string) : TodoOp (list Todo.t)
  | ClearAllTodos : TodoOp unit
  | GetTodosStats : TodoOp TodoService.Stats.t.

Definition todoService {A} (op : TodoOp A) : Async A :=
  match op with
  | GetTodos => TodoService.getTodos
  | GetTodoById id => TodoService.getTodoById id
  | CreateTodo data => TodoService.createTodo data
  | UpdateTodo id data => TodoService.updateTodo id data
  | DeleteTodo id => TodoService.deleteTodo id
  | ToggleTodo id => TodoService.toggleTodo id
  | GetTodosByStatus completed => TodoService.getTodosByStatus completed
  | GetTodosByPriority priority => TodoService.getTodosByPriority priority
  | SearchTodos js query => TodoService.searchTodos js query
  | ClearAllTodos => TodoService.clearAllTodos
  | GetTodosStats => TodoService.getTodosStats
  end.

(** An action writes no entry other than the one under [key]. *)
Definition writesOnly {A} (key : string) (m : Async A) : Prop :=
  ∀ w k, k ≠ key → storage (m w).2 !! k = storage w !! k.

(** Two worlds that an action reading only the entry under [key] cannot
    tell apart. *)
Definition agreeOn (key : string) (w1 w2 : World) : Prop :=
  storage w1 !! key = storage w2 !! key
  ∧ clock w1 = clock w2 ∧ rejects w1 = rejects w2.

Definition readsOnly {A} (key : string) (m : Async A) : Prop :=
  ∀ w1 w2, agreeOn key w1 w2 →
           (m w1).1 = (m w2).1 ∧ agreeOn key (m w1).2 (m w2).2.

Definition stoppedClockWorld : World :=
  mkWorld sampleStorage [] (λ _, 1700000000000) (λ _, false).

Definition emptyWorld : World :=
  mkWorld ∅ [] (λ n, 1700000000000 + 1000 * Z.of_nat n) (λ _, false).

(** The world after a plain note and then a pinned note were created on
    an empty storage. *)
Definition twoNotesWorld : World :=
  (NoteService.createNote
     (CreateNoteDto.mk "keys" "spare keys" None None (Some true))
     (NoteService.createNote
        (CreateNoteDto.mk "milk" "buy milk" None None None) emptyWorld).2).2.

(** What a note operation leaves under the notes key: the text as it was
    when the operation throws, and otherwise a collection whose records
    with another id are those of the sorted stored collection. *)
Definition keepsOtherNotes {A} (id : string) (w : World)
    (result : Outcome A * World) : Prop :=
  match result.1 with
  | Returned _ =>
      filter (λ n, Note.id n ≠ id) (storedNotes result.2)
      = filter (λ n, Note.id n ≠ id)
               (Array_sort NoteService.compareNotes (storedNotes w))
  | Thrown _ => storage result.2 = storage w
  end.


(** The notes an operation leaves in the storage were there before, or
    carry an [updatedAt] that the operation read from the clock. *)
Definition stamped (w : World) (note : Note.t) : Prop :=
  note ∈ storedNotes w
  ∨ ∃ k, Note.updatedAt note = JSDate.toISOString (clock w k).

(** An operation failed to save: it threw "Failed to save [what]", left
    the storage as it was in [w] and printed "Error saving [what]:" last. *)
Definition failsToSave {A} (what : string) (w : World)
    (result : Outcome A * World) : Prop :=
  result.1 = Thrown (Error ("Failed to save " +:+ what))
  ∧ storage result.2 = storage w
  ∧ last (console result.2)
    = Some ("Error saving " +:+ what +:+ ":", StorageError).

(** A world whose storage takes reads and rejects every second call. *)
Definition brokenWriteWorld : World :=
  mkWorld sampleStorage [] (λ n, 1700000000000 + Z.of_nat n)
          (λ n, Nat.odd n).

(** A world whose clock is past the sample timestamps. *)
Definition laterWorld : World :=
  mkWorld sampleStorage [] (λ n, 1800000000000 + Z.of_nat n) (λ _, false).

(** ** The todo screen ([app/(tabs)/index.tsx])

    The component state that [useState] keeps, passed explicitly; a
    handler runs in the world of the services and gives the next state. *)
Module TodoScreen.

Inductive TodoFilter : Type := all | active | completed.

Record State : Type := mkState {
  todos : list Todo.t;
  loading : bool;
  refreshing : bool;
  searchQuery : string;
  filter : TodoFilter;
  showForm : bool;
  editingTodo : option Todo.t;
}.

Definition initial : State := mkState [] true false "" all false None.

Definition setTodos (value : list Todo.t) (s : State) : State :=
  mkState value (loading s) (refreshing s) (searchQuery s) (filter s)
          (showForm s) (editingTodo s).
Definition setLoading (value : bool) (s : State) : State :=
  mkState (todos s) value (refreshing s) (searchQuery s) (filter s)
          (showForm s) (editingTodo s).
Definition setRefreshing (value : bool) (s : State) : State :=
  mkState (todos s) (loading s) value (searchQuery s) (filter s)
          (showForm s) (editingTodo s).
Definition setShowForm (value : bool) (s : State) : State :=
  mkState (todos s) (loading s) (refreshing s) (searchQuery s) (filter s)
          value (editingTodo s).
Definition setEditingTodo (value : option Todo.t) (s : State) : State :=
  mkState (todos s) (loading s) (refreshing s) (searchQuery s) (filter s)
          (showForm s) value.

(** [try { ... } catch { console.error(...) } finally { ... }] *)
Definition loadTodos (s : State) : Async State :=
  let! s' :=
    try_catch
      (let! data := TodoService.getTodos in
       ret (setTodos data s))
      (λ error,
         run! console_error "Error loading todos:" error in
         ret s) in
  ret (setRefreshing false (setLoading false s')).

Definition handleRefresh (s : State) : Async State :=
  loadTodos (setRefreshing true s).

(** [setTodos((prev) => [...prev, newTodo])] *)
Definition handleCreateTodo (data : CreateTodoDto.t) (s : State)
  : Async State :=
  try_catch
    (let! newTodo := TodoService.createTodo data in
     ret (setTodos (todos s ++ [newTodo]) s))
    (λ error,
       run! console_error "Error creating todo:" error in
       ret s).

(** [prev.map((todo) => (todo.id === updated.id ? updated : todo))] *)
Definition replaceById (updated : Todo.t) (prev : list Todo.t) : list Todo.t :=
  (λ todo, if decide (Todo.id todo = Todo.id updated) then updated else todo)
    <$> prev.

Definition handleUpdateTodo (data : UpdateTodoDto.t) (s : State)
  : Async State :=
  match editingTodo s with
  | None => ret s
  | Some editing =>
      try_catch
        (let! updated := TodoService.updateTodo (Todo.id editing) data in
         let s' :=
           match updated with
           | Some updated => setTodos (replaceById updated (todos s)) s
           | None => s
           end in
         ret (setEditingTodo None s'))
        (λ error,
           run! console_error "Error updating todo:" error in
           ret s)
  end.

Definition handleToggleTodo (id : string) (s : State) : Async State :=
  try_catch
    (let! updated := TodoService.toggleTodo id in
     ret match updated with
         | Some updated => setTodos (replaceById updated (todos s)) s
         | None => s
         end)
    (λ error,
       run! console_error "Error toggling todo:" error in
       ret s).

Definition handleDeleteTodo (id : string) (s : State) : Async State :=
  try_catch
    (run! TodoService.deleteTodo id in
     ret (setTodos (base.filter (λ todo, Todo.id todo ≠ id) (todos s)) s))
    (λ error,
       run! console_error "Error deleting todo:" error in
       ret s).

Definition handleEditTodo (todo : Todo.t) (s : State) : State :=
  setShowForm true (setEditingTodo (Some todo) s).

Definition handleCloseForm (s : State) : State :=
  setEditingTodo None (setShowForm false s).

(** The header counts ([stats]). *)
Definition stats (s : State) : nat * nat * nat :=
  (length (todos s),
   length (base.filter (λ t, Todo.completed t = false) (todos s)),
   length (base.filter (λ t, Todo.completed t = true) (todos s))).

End TodoScreen.

(** The handlers of the todo screen that call the service. *)
Inductive TodoAction : Type :=
  | LoadTodos
  | Refresh
  | SubmitNew (data : CreateTodoDto.t)
  | SubmitEdit (data : UpdateTodoDto.t)
  | Toggle (id : string)
  | Delete (id : string).

Definition todoScreen (action : TodoAction) : TodoScreen.State → Async TodoScreen.State :=
  match action with
  | LoadTodos => TodoScreen.loadTodos
  | Refresh => TodoScreen.handleRefresh
  | SubmitNew data => TodoScreen.handleCreateTodo data
  | SubmitEdit data => TodoScreen.handleUpdateTodo data
  | Toggle id => TodoScreen.handleToggleTodo id
  | Delete id => TodoScreen.handleDeleteTodo id
  end.

(** What an update or a toggle can come to: the first stored todo with the
    id is replaced by a todo with the same id, or nothing is stored. *)
Definition replacesOne (id : string) (w : World)
    (result : Outcome (option Todo.t) * World) : Prop :=
  (∃ index old updated,
      result.1 = Returned (Some updated)
      ∧ storedTodos w !! index = Some old
      ∧ Todo.id old = id ∧ Todo.id updated = id
      ∧ storedTodos result.2 = <[index := updated]> (storedTodos w))
  ∨ ((result.1 = Returned None ∨ ∃ e, result.1 = Thrown e)
     ∧ storage result.2 = storage w).

(** ** The notes screen ([app/(tabs)/notes.tsx]) *)
Module NotesScreen.

Record State : Type := mkState {
  notes : list Note.t;
  loading : bool;
  refreshing : bool;
  searchQuery : string;
  showForm : bool;
  editingNote : option Note.t;
  selectedNote : option Note.t;
  showDetail : bool;
}.

Definition initial : State := mkState [] true false "" false None None false.

Definition setNotes (value : list Note.t) (s : State) : State :=
  mkState value (loading s) (refreshing s) (searchQuery s) (showForm s)
          (editingNote s) (selectedNote s) (showDetail s).
Definition setLoading (value : bool) (s : State) : State :=
  mkState (notes s) value (refreshing s) (searchQuery s) (showForm s)
          (editingNote s) (selectedNote s) (showDetail s).
Definition setRefreshing (value : bool) (s : State) : State :=
  mkState (notes s) (loading s) value (searchQuery s) (showForm s)
          (editingNote s) (selectedNote s) (showDetail s).
Definition setEditingNote (value : option Note.t) (s : State) : State :=
  mkState (notes s) (loading s) (refreshing s) (searchQuery s) (showForm s)
          value (selectedNote s) (showDetail s).

Definition loadNotes (s : State) : Async State :=
  let! s' :=
    try_catch
      (let! data := NoteService.getNotes in
       ret (setNotes data s))
      (λ error,
         run! console_error "Error loading notes:" error in
         ret s) in
  ret (setRefreshing false (setLoading false s')).

Definition handleRefresh (s : State) : Async State :=
  loadNotes (setRefreshing true s).

(** [setNotes((prev) => [newNote, ...prev])] *)
Definition handleCreateNote (data : CreateNoteDto.t) (s : State)
  : Async State :=
  try_catch
    (let! newNote := NoteService.createNote data in
     ret (setNotes (newNote :: notes s) s))
    (λ error,
       run! console_error "Error creating note:" error in
       ret s).

Definition replaceById (updated : Note.t) (prev : list Note.t) : list Note.t :=
  (λ note, if decide (Note.id note = Note.id updated) then updated else note)
    <$> prev.

(** The handler calls [loadNotes()] without awaiting it and then clears
    [editingNote]; the two touch different parts of the state, and the
    reload is run here to its end before the handler returns. *)
Definition handleUpdateNote (data : UpdateNoteDto.t) (s : State)
  : Async State :=
  match editingNote s with
  | None => ret s
  | Some editing =>
      try_catch
        (let! updated := NoteService.updateNote (Note.id editing) data in
         let! s' :=
           match updated with
           | Some updated =>
               loadNotes (setNotes (replaceById updated (notes s)) s)
           | None => ret s
           end in
         ret (setEditingNote None s'))
        (λ error,
           run! console_error "Error updating note:" error in
           ret s)
  end.

Definition handleTogglePin (id : string) (s : State) : Async State :=
  try_catch
    (let! updated := NoteService.togglePinNote id in
     match updated with
     | Some _ => loadNotes s
     | None => ret s
     end)
    (λ error,
       run! console_error "Error toggling pin:" error in
       ret s).

Definition handleDeleteNote (id : string) (s : State) : Async State :=
  try_catch
    (run! NoteService.deleteNote id in
     ret (setNotes (base.filter (λ note, Note.id note ≠ id) (notes s)) s))
    (λ error,
       run! console_error "Error deleting note:" error in
       ret s).

End NotesScreen.

Inductive NoteAction : Type :=
  | LoadNotes
  | RefreshNotes
  | SubmitNewNote (data : CreateNoteDto.t)
  | SubmitEditedNote (data : UpdateNoteDto.t)
  | TogglePin (id : string)
  | DeleteNoteById (id : string).

Definition notesScreen (action : NoteAction)
  : NotesScreen.State → Async NotesScreen.State :=
  match action with
  | LoadNotes => NotesScreen.loadNotes
  | RefreshNotes => NotesScreen.handleRefresh
  | SubmitNewNote data => NotesScreen.handleCreateNote data
  | SubmitEditedNote data => NotesScreen.handleUpdateNote data
  | TogglePin id => NotesScreen.handleTogglePin id
  | DeleteNoteById id => NotesScreen.handleDeleteNote id
  end.

(** ** The settings screen ([app/(tabs)/settings.tsx])

    The two counters of the component and the dialogs that [Alert.alert]
    has shown, by title and message. *)
Module SettingsScreen.

Record State : Type := mkState {
  todoCount : nat;
  noteCount : nat;
  alerts : list (string * string);
}.

Definition initial : State := mkState 0 0 [].

Definition setTodoCount (value : nat) (s : State) : State :=
  mkState value (noteCount s) (alerts s).
Definition setNoteCount (value : nat) (s : State) : State :=
  mkState (todoCount s) value (alerts s).
Definition Alert_alert (title message : string) (s : State) : State :=
  mkState (todoCount s) (noteCount s) (alerts s ++ [(title, message)]).

Definition loadStats (s : State) : Async State :=
  let! todos := TodoService.getTodos in
  let! notes := NoteService.getNotes in
  ret (setNoteCount (length notes) (setTodoCount (length todos) s)).

(** The button of the confirmation dialog that the user presses. *)
Inductive Button : Type := Batal | Hapus.

Definition handleClearAllTodos (pressed : Button) (s : State)
  : Async State :=
  let s := Alert_alert "Hapus Semua Todo"
             "Apakah Anda yakin ingin menghapus semua todo? Tindakan ini tidak dapat dibatalkan."
             s in
  match pressed with
  | Batal => ret s
  | Hapus =>
      run! TodoService.clearAllTodos in
      ret (Alert_alert "Berhasil" "Semua todo telah dihapus"
             (setTodoCount 0 s))
  end.

Definition handleClearAllNotes (pressed : Button) (s : State)
  : Async State :=
  let s := Alert_alert "Hapus Semua Catatan"
             "Apakah Anda yakin ingin menghapus semua catatan? Tindakan ini tidak dapat dibatalkan."
             s in
  match pressed with
  | Batal => ret s
  | Hapus =>
      run! NoteService.clearAllNotes in
      ret (Alert_alert "Berhasil" "Semua catatan telah dihapus"
             (setNoteCount 0 s))
  end.

End SettingsScreen.

Inductive SettingsAction : Type :=
  | LoadStats
  | ClearTodosDialog (pressed : SettingsScreen.Button)
  | ClearNotesDialog (pressed : SettingsScreen.Button).

Definition settingsScreen (action : SettingsAction)
  : SettingsScreen.State → Async SettingsScreen.State :=
  match action with
  | LoadStats => SettingsScreen.loadStats
  | ClearTodosDialog pressed => SettingsScreen.handleClearAllTodos pressed
  | ClearNotesDialog pressed => SettingsScreen.handleClearAllNotes pressed
  end.

(** * Properties *)
(** ** The sort *)

Section ArraySortFacts.
Context {A : Type} (comparefn : A → A → option Z).

Lemma sortInsert_Permutation x l : sortInsert comparefn x l ≡ₚ x :: l.
Proof.
  induction l as [|y l IH]; simpl; [done|].
  destruct (SortCompare comparefn x y <=? 0); [done|].
  rewrite IH. apply Permutation_swap.
Qed.

Lemma Array_sort_Permutation l : Array_sort comparefn l ≡ₚ l.
Proof.
  induction l as [|x l IH]; simpl; [done|].
  rewrite sortInsert_Permutation. by rewrite IH.
Qed.

Lemma Array_sort_length l : length (Array_sort comparefn l) = length l.
Proof. apply Permutation_length, Array_sort_Permutation. Qed.

(** A list in which every element is in front of its successor is left
    as it is. *)
Lemma Array_sort_Sorted_id l : Sorted (sortsBefore comparefn) l → Array_sort comparefn l = l.
Proof.
  induction 1 as [|x l Hl IH Hhd]; simpl; [done|].
  rewrite IH. destruct Hhd as [|y l' Hxy]; simpl; [done|].
  unfold sortsBefore in Hxy. apply Z.leb_le in Hxy. by rewrite Hxy.
Qed.

(** The sort orders the array by every transitive relation [R] that the
    comparison function decides, on the elements [P] on which it decides
    it. *)
Section Ordered.
Variables (R : relation A) (P : A → Prop).
Hypothesis R_trans : ∀ x y z, P x → P y → P z → R x y → R y z → R x z.
Hypothesis before_R : ∀ x y, P x → P y → SortCompare comparefn x y <= 0 → R x y.
Hypothesis after_R : ∀ x y, P x → P y → 0 < SortCompare comparefn x y → R y x.

Lemma sortInsert_Forall x l :
  P x → Forall P l → Forall P (sortInsert comparefn x l).
Proof.
  intros Hx Hl. by rewrite sortInsert_Permutation; constructor.
Qed.

Lemma sortInsert_StronglySorted x l :
  P x → Forall P l → StronglySorted R l →
  StronglySorted R (sortInsert comparefn x l).
Proof.
  intros Hx HP Hl. induction Hl as [|y l Hl IH Hy]; simpl.
  - repeat constructor.
  - apply Forall_cons in HP as [Py HP].
    destruct (Z.leb_spec (SortCompare comparefn x y) 0) as [Hle|Hgt].
    + constructor; [by constructor|].
      constructor; [by apply before_R|].
      rewrite Forall_forall in Hy, HP. apply Forall_forall.
      intros z Hz. apply (R_trans x y z); auto.
    + constructor; [by apply IH|].
      rewrite sortInsert_Permutation. constructor; [by apply after_R|done].
Qed.

Lemma Array_sort_StronglySorted l :
  Forall P l → StronglySorted R (Array_sort comparefn l).
Proof.
  induction 1 as [|x l Hx Hl IH]; simpl; [constructor|].
  apply sortInsert_StronglySorted; [done| |done].
  by rewrite Array_sort_Permutation.
Qed.
End Ordered.
End ArraySortFacts.

Lemma StronglySorted_filter {A} (R : relation A) (Q : A → Prop)
    `{∀ x, Decision (Q x)} l :
  StronglySorted R l → StronglySorted R (filter Q l).
Proof.
  induction 1 as [|x l Hl IH Hx]; [constructor|].
  rewrite filter_cons. destruct (decide (Q x)); [|done].
  constructor; [done|]. rewrite Forall_forall in Hx. apply Forall_forall.
  intros y [_ Hy]%list_elem_of_filter. auto.
Qed.

(** ** The comparison function of [getNotes] *)

Lemma SortCompare_notes_pinned a b :
  Note.isPinned a ≠ Note.isPinned b →
  SortCompare NoteService.compareNotes a b = if Note.isPinned a then -1 else 1.
Proof.
  intros Hne. unfold SortCompare, NoteService.compareNotes.
  destruct (Note.isPinned a), (Note.isPinned b); simpl; congruence.
Qed.

Lemma SortCompare_notes_dated a b ta tb :
  Note.isPinned a = Note.isPinned b →
  NoteService.getTime (Note.updatedAt a) = Some ta →
  NoteService.getTime (Note.updatedAt b) = Some tb →
  SortCompare NoteService.compareNotes a b = tb - ta.
Proof.
  intros Hp Ha Hb. unfold SortCompare, NoteService.compareNotes.
  rewrite Hp, Ha, Hb. by destruct (Note.isPinned b).
Qed.

Lemma SortCompare_notes_pinnedFirst_le a b :
  SortCompare NoteService.compareNotes a b <= 0 → pinnedFirst a b.
Proof.
  intros Hle Hb. destruct (Note.isPinned a) eqn:Ha; [done|].
  rewrite SortCompare_notes_pinned in Hle by congruence.
  rewrite Ha in Hle. lia.
Qed.

Lemma SortCompare_notes_pinnedFirst_gt a b :
  0 < SortCompare NoteService.compareNotes a b → pinnedFirst b a.
Proof.
  intros Hgt Ha. destruct (Note.isPinned b) eqn:Hb; [done|].
  rewrite SortCompare_notes_pinned in Hgt by congruence.
  rewrite Ha in Hgt. lia.
Qed.

Lemma pinnedFirst_trans a b c : pinnedFirst a b → pinnedFirst b c → pinnedFirst a c.
Proof. unfold pinnedFirst. auto. Qed.

Lemma displayOrder_trans a b c :
  timestamped a → timestamped b → timestamped c →
  displayOrder a b → displayOrder b c → displayOrder a c.
Proof.
  intros _ [tb Hb] _ [Hab Tab] [Hbc Tbc]. split; [by eapply pinnedFirst_trans|].
  intros Hac ta tc Ha Hc.
  assert (Note.isPinned a = Note.isPinned b) as Hpab.
  { unfold pinnedFirst in *.
    destruct (Note.isPinned a), (Note.isPinned b), (Note.isPinned c); auto;
      try discriminate; symmetry; auto. }
  specialize (Tab Hpab ta tb Ha Hb).
  specialize (Tbc ltac:(congruence) tb tc Hb Hc). lia.
Qed.

Lemma SortCompare_notes_displayOrder a b :
  timestamped a → timestamped b →
  SortCompare NoteService.compareNotes a b <= 0 ↔ displayOrder a b.
Proof.
  intros [ta Ha] [tb Hb]. split.
  - intros Hle. split; [by apply SortCompare_notes_pinnedFirst_le|].
    intros Hp ta' tb' Ha' Hb'.
    rewrite (SortCompare_notes_dated a b ta' tb') in Hle by done. lia.
  - intros [Hp Ht].
    destruct (decide (Note.isPinned a = Note.isPinned b)) as [Heq|Hne].
    + rewrite (SortCompare_notes_dated a b ta tb) by done.
      specialize (Ht Heq ta tb Ha Hb). lia.
    + rewrite SortCompare_notes_pinned by done.
      unfold pinnedFirst in Hp.
      destruct (Note.isPinned a), (Note.isPinned b); try done.
      by specialize (Hp eq_refl).
Qed.

Lemma SortCompare_notes_displayOrder_gt a b :
  timestamped a → timestamped b →
  0 < SortCompare NoteService.compareNotes a b → displayOrder b a.
Proof.
  intros [ta Ha] [tb Hb] Hgt. split; [by apply SortCompare_notes_pinnedFirst_gt|].
  intros Hp tb' ta' Hb' Ha'.
  rewrite (SortCompare_notes_dated a b ta' tb') in Hgt by done. lia.
Qed.

Lemma sortsBefore_notes_trans a b c :
  timestamped a → timestamped b → timestamped c →
  sortsBefore NoteService.compareNotes a b →
  sortsBefore NoteService.compareNotes b c →
  sortsBefore NoteService.compareNotes a c.
Proof.
  unfold sortsBefore. intros Ha Hb Hc Hab Hbc.
  apply SortCompare_notes_displayOrder in Hab, Hbc; try done.
  apply SortCompare_notes_displayOrder; try done.
  by apply (displayOrder_trans a b c).
Qed.

Lemma getNotes_sort_pinnedFirst l :
  StronglySorted pinnedFirst (Array_sort NoteService.compareNotes l).
Proof.
  apply (Array_sort_StronglySorted _ pinnedFirst (λ _, True)).
  - intros x y z _ _ _. apply pinnedFirst_trans.
  - intros x y _ _. apply SortCompare_notes_pinnedFirst_le.
  - intros x y _ _. apply SortCompare_notes_pinnedFirst_gt.
  - by apply Forall_true.
Qed.

Lemma getNotes_sort_displayOrder l :
  Forall timestamped l →
  StronglySorted displayOrder (Array_sort NoteService.compareNotes l).
Proof.
  apply (Array_sort_StronglySorted _ displayOrder timestamped).
  - apply displayOrder_trans.
  - intros x y Hx Hy. by apply SortCompare_notes_displayOrder.
  - intros x y Hx Hy. by apply SortCompare_notes_displayOrder_gt.
Qed.

Lemma getNotes_sort_sortsBefore l :
  Forall timestamped l →
  StronglySorted (sortsBefore NoteService.compareNotes)
                 (Array_sort NoteService.compareNotes l).
Proof.
  apply (Array_sort_StronglySorted _ _ timestamped).
  - apply sortsBefore_notes_trans.
  - done.
  - intros x y Hx Hy Hgt.
    apply SortCompare_notes_displayOrder; [done..|].
    by apply SortCompare_notes_displayOrder_gt.
Qed.

(** ** Dates *)

Lemma isDigit_digitChar n : JSDate.isDigit (JSDate.digitChar (n mod 10)) = true.
Proof.
  assert (0 <= n mod 10 < 10) as Hr by (apply Z.mod_pos_bound; lia).
  assert (n mod 10 = 0 ∨ n mod 10 = 1 ∨ n mod 10 = 2 ∨ n mod 10 = 3
          ∨ n mod 10 = 4 ∨ n mod 10 = 5 ∨ n mod 10 = 6 ∨ n mod 10 = 7
          ∨ n mod 10 = 8 ∨ n mod 10 = 9) as Hc by lia.
  destruct Hc as [-> | [-> | [-> | [-> | [-> | [-> | [-> | [-> | [-> | ->]]]]]]]]];
    reflexivity.
Qed.

Lemma toISOString_isISOFormat t : JSDate.isISOFormat (JSDate.toISOString t) = true.
Proof.
  unfold JSDate.toISOString.
  generalize (JSDate.YearFromTime t) (JSDate.MonthFromTime t + 1)
    (JSDate.DateFromTime t) (JSDate.HourFromTime t) (JSDate.MinFromTime t)
    (JSDate.SecFromTime t) (JSDate.msFromTime t).
  intros y m d h mi s ms. unfold JSDate.yearString.
  destruct ((0 <=? y) && (y <=? 9999)).
  - cbv [JSDate.isISOFormat JSDate.pad JSDate.padDigits String.append list_ascii_of_string].
    rewrite isDigit_digitChar.
    cbv [JSDate.isDateTimeTail forallb]. rewrite !isDigit_digitChar. reflexivity.
  - cbv [JSDate.isISOFormat JSDate.pad JSDate.padDigits String.append list_ascii_of_string].
    destruct (y <? 0).
    + cbv [JSDate.isDateTimeTail forallb]. rewrite !isDigit_digitChar. reflexivity.
    + cbv [JSDate.isDateTimeTail forallb]. rewrite !isDigit_digitChar. reflexivity.
Qed.

(** ** Timestamps are read back as they were written *)

Lemma digitValue_digitChar n :
  JSDate.digitValue (JSDate.digitChar (n mod 10)) = Some (n mod 10).
Proof.
  assert (0 <= n mod 10 < 10) as Hr by (apply Z.mod_pos_bound; lia).
  assert (n mod 10 = 0 ∨ n mod 10 = 1 ∨ n mod 10 = 2 ∨ n mod 10 = 3
          ∨ n mod 10 = 4 ∨ n mod 10 = 5 ∨ n mod 10 = 6 ∨ n mod 10 = 7
          ∨ n mod 10 = 8 ∨ n mod 10 = 9) as Hc by lia.
  destruct Hc as [-> | [-> | [-> | [-> | [-> | [-> | [-> | [-> | [-> | ->]]]]]]]]];
    reflexivity.
Qed.

Lemma number_pad2 n :
  0 <= n < 100 →
  JSDate.number [JSDate.digitChar ((n / 10) mod 10); JSDate.digitChar (n mod 10)]
  = Some n.
Proof.
  intros Hn. unfold JSDate.number. cbn [JSDate.digitsValue].
  rewrite !digitValue_digitChar. f_equal. Z.div_mod_to_equations. lia.
Qed.

Lemma number_pad3 n :
  0 <= n < 1000 →
  JSDate.number [JSDate.digitChar ((n / 10 / 10) mod 10);
                 JSDate.digitChar ((n / 10) mod 10); JSDate.digitChar (n mod 10)]
  = Some n.
Proof.
  intros Hn. unfold JSDate.number. cbn [JSDate.digitsValue].
  rewrite !digitValue_digitChar. f_equal. Z.div_mod_to_equations. lia.
Qed.

Lemma number_pad4 n :
  0 <= n < 10000 →
  JSDate.number [JSDate.digitChar ((n / 10 / 10 / 10) mod 10);
                 JSDate.digitChar ((n / 10 / 10) mod 10);
                 JSDate.digitChar ((n / 10) mod 10); JSDate.digitChar (n mod 10)]
  = Some n.
Proof.
  intros Hn. unfold JSDate.number. cbn [JSDate.digitsValue].
  rewrite !digitValue_digitChar. f_equal. Z.div_mod_to_equations. lia.
Qed.

(** The time within the day. *)
Lemma MakeTime_fields t :
  JSDate.MakeDate (JSDate.Day t)
    (JSDate.MakeTime (JSDate.HourFromTime t) (JSDate.MinFromTime t)
                     (JSDate.SecFromTime t) (JSDate.msFromTime t)) = t.
Proof.
  unfold JSDate.MakeDate, JSDate.MakeTime, JSDate.Day, JSDate.HourFromTime,
    JSDate.MinFromTime, JSDate.SecFromTime, JSDate.msFromTime,
    JSDate.msPerDay, JSDate.msPerHour, JSDate.msPerMinute, JSDate.msPerSecond.
  Z.div_mod_to_equations. lia.
Qed.

(** The calendar: one era of 400 years. *)
Lemma yearOfEra_range doe :
  0 <= doe < 146097 →
  0 <= JSDate.yearOfEra doe <= 399
  ∧ 0 <= JSDate.dayOfYear doe <= 365
  ∧ JSDate.yearOfEra doe * 365 + JSDate.yearOfEra doe / 4
    - JSDate.yearOfEra doe / 100 + JSDate.dayOfYear doe = doe
  ∧ (JSDate.dayOfYear doe = 365 →
     (JSDate.yearOfEra doe + 1) mod 4 = 0
     ∧ ((JSDate.yearOfEra doe + 1) mod 100 ≠ 0
        ∨ (JSDate.yearOfEra doe + 1) mod 400 = 0)).
Proof.
  intros Hdoe. unfold JSDate.dayOfYear, JSDate.yearOfEra. cbv zeta.
  Z.div_mod_to_equations. lia.
Qed.

Lemma isLeapYear_true y :
  JSDate.isLeapYear y = true
  ↔ (y mod 4 = 0 ∧ y mod 100 ≠ 0) ∨ y mod 400 = 0.
Proof.
  unfold JSDate.isLeapYear.
  rewrite orb_true_iff, andb_true_iff, negb_true_iff, !Z.eqb_eq, Z.eqb_neq.
  done.
Qed.

(** Month and day within the year that starts on 1 March. *)
Lemma monthDay_range doy y :
  0 <= doy <= 365 →
  let mp := JSDate.monthIndex doy in
  let d := doy - (153 * mp + 2) / 5 + 1 in
  let m := if mp <? 10 then mp + 3 else mp - 9 in
  (doy = 365 → JSDate.isLeapYear y = true) →
  1 <= m <= 12
  ∧ (if m <=? 2 then m + 9 else m - 3) = mp
  ∧ 1 <= d <= JSDate.DaysInMonth y m.
Proof.
  intros Hdoy mp d m Hleap.
  assert (0 <= mp <= 11) as Hmp.
  { subst mp. unfold JSDate.monthIndex. Z.div_mod_to_equations. lia. }
  assert (mp = 0 ∨ mp = 1 ∨ mp = 2 ∨ mp = 3 ∨ mp = 4 ∨ mp = 5 ∨ mp = 6
          ∨ mp = 7 ∨ mp = 8 ∨ mp = 9 ∨ mp = 10 ∨ mp = 11) as Hcases by lia.
  assert (153 * mp <= 5 * doy + 2 < 153 * mp + 153) as Hbounds.
  { subst mp. unfold JSDate.monthIndex. Z.div_mod_to_equations. lia. }
  subst d m. clearbody mp.
  unfold JSDate.DaysInMonth.
  destruct Hcases as [-> | [-> | [-> | [-> | [-> | [-> | [-> | [-> | [-> | [-> | [-> | ->]]]]]]]]]]];
    repeat match goal with
           | |- context [?a <? ?b] =>
               let r := eval vm_compute in (a <? b) in change (a <? b) with r
           end; cbv iota;
    repeat match goal with
           | |- context [?a <=? ?b] =>
               let r := eval vm_compute in (a <=? b) in change (a <=? b) with r
           | |- context [?a =? ?b] =>
               let r := eval vm_compute in (a =? b) in change (a =? b) with r
           end; cbn [orb]; cbv iota;
    (split; [lia|]); (split; [lia|]);
    try (Z.div_mod_to_equations; lia).
  destruct (JSDate.isLeapYear y) eqn:Hy; [Z.div_mod_to_equations; lia|].
  assert (doy ≠ 365) by (intros ->; by specialize (Hleap eq_refl)).
  Z.div_mod_to_equations. lia.
Qed.

Lemma civilFromDay_roundtrip day :
  let '(y, m, d) := JSDate.civilFromDay day in
  1 <= m <= 12 ∧ 1 <= d <= JSDate.DaysInMonth y m
  ∧ JSDate.dayFromCivil y m d = day.
Proof.
  unfold JSDate.civilFromDay, JSDate.daysPerEra, JSDate.epochShift. cbv zeta.
  set (z := day + 719468).
  assert (0 <= z mod 146097 < 146097) as Hdoe by (apply Z.mod_pos_bound; lia).
  assert (z = 146097 * (z / 146097) + z mod 146097) as Hz
    by (apply Z.div_mod; lia).
  set (era := z / 146097) in *. set (doe := z mod 146097) in *.
  destruct (yearOfEra_range doe Hdoe) as (Hyoe & Hdoy & Hsum & Hlast).
  set (yoe := JSDate.yearOfEra doe) in *.
  set (doy := JSDate.dayOfYear doe) in *.
  set (mp := JSDate.monthIndex doy).
  set (m := if mp <? 10 then mp + 3 else mp - 9).
  set (c := if m <=? 2 then 1 else 0).
  assert (doy = 365 → JSDate.isLeapYear (yoe + era * 400 + c) = true) as Hleap.
  { intros Hd. assert (c = 1) as -> by (subst c m mp; by rewrite Hd).
    apply isLeapYear_true. specialize (Hlast Hd).
    Z.div_mod_to_equations. lia. }
  destruct (monthDay_range doy (yoe + era * 400 + c) Hdoy Hleap)
    as (Hm & Hmp & Hd).
  fold mp in Hmp, Hd. fold m in Hm, Hmp, Hd.
  split; [done|]. split; [done|].
  unfold JSDate.dayFromCivil, JSDate.daysPerEra, JSDate.epochShift. cbv zeta.
  rewrite Hmp.
  assert ((if m <=? 2 then yoe + era * 400 + c - 1 else yoe + era * 400 + c)
          = yoe + era * 400) as ->.
  { subst c. destruct (m <=? 2); lia. }
  assert ((yoe + era * 400) / 400 = era) as ->
    by (Z.div_mod_to_equations; lia).
  assert ((yoe + era * 400) mod 400 = yoe) as ->
    by (Z.div_mod_to_equations; lia).
  subst z. lia.
Qed.

(** A timestamp written by [toISOString] reads back as the same time value,
    for the years 0000 to 9999. *)
Lemma parse_toISOString t :
  0 <= JSDate.YearFromTime t <= 9999 →
  JSDate.parse (JSDate.toISOString t) = Some t.
Proof.
  intros Hyear.
  pose proof (civilFromDay_roundtrip (JSDate.Day t)) as Hcivil.
  pose proof (MakeTime_fields t) as Htime.
  unfold JSDate.toISOString, JSDate.YearFromTime, JSDate.MonthFromTime,
    JSDate.DateFromTime, JSDate.yearString in *.
  destruct (JSDate.civilFromDay (JSDate.Day t)) as [[y m] d].
  simpl fst in *. simpl snd in *. destruct Hcivil as (Hm & Hd & Hday).
  replace (m - 1 + 1) with m by lia.
  assert ((0 <=? y) && (y <=? 9999) = true) as -> by lia.
  assert (0 <= JSDate.HourFromTime t < 24) as Hh
    by (apply Z.mod_pos_bound; lia).
  assert (0 <= JSDate.MinFromTime t < 60) as Hmi
    by (apply Z.mod_pos_bound; lia).
  assert (0 <= JSDate.SecFromTime t < 60) as Hs
    by (apply Z.mod_pos_bound; lia).
  assert (0 <= JSDate.msFromTime t < 1000) as Hms
    by (apply Z.mod_pos_bound; lia).
  assert (d <= 31) as Hd31.
  { destruct Hd as [_ Hd]. unfold JSDate.DaysInMonth in Hd.
    repeat match type of Hd with context [if ?b then _ else _] =>
             destruct b end; lia. }
  revert Htime Hh Hmi Hs Hms.
  generalize (JSDate.HourFromTime t) (JSDate.MinFromTime t)
    (JSDate.SecFromTime t) (JSDate.msFromTime t).
  intros h mi s ms Htime Hh Hmi Hs Hms.
  cbv [JSDate.parse JSDate.pad JSDate.padDigits String.append
       list_ascii_of_string].
  rewrite bool_decide_eq_true_2 by reflexivity.
  rewrite number_pad4, !number_pad2, number_pad3 by lia.
  cbn [mbind option_bind].
  assert ((1 <=? m) && (m <=? 12) && (1 <=? d) && (d <=? JSDate.DaysInMonth y m)
          && (h <=? 23) && (mi <=? 59) && (s <=? 59) = true) as -> by lia.
  by rewrite Hday, Htime.
Qed.

Lemma createdNote_timestamped data now t1 t2 :
  0 <= JSDate.YearFromTime t2 <= 9999 →
  timestamped (createdNote data now t1 t2).
Proof.
  intros Hyear. exists t2. unfold NoteService.getTime. simpl.
  by apply parse_toISOString.
Qed.

Lemma spread_timestamped note data t :
  0 <= JSDate.YearFromTime t <= 9999 →
  timestamped (NoteService.spread note data (JSDate.toISOString t)).
Proof.
  intros Hyear. exists t. unfold NoteService.getTime. simpl.
  by apply parse_toISOString.
Qed.

(** Sample conversions. *)

Example toISOString_epoch :
  JSDate.toISOString 0 = "1970-01-01T00:00:00.000Z"%string.
Proof. reflexivity. Qed.

Example toISOString_2023 :
  JSDate.toISOString 1700000000123 = "2023-11-14T22:13:20.123Z"%string.
Proof. vm_compute. reflexivity. Qed.

Example toISOString_leap_day :
  JSDate.toISOString 1709210096789 = "2024-02-29T12:34:56.789Z"%string.
Proof. vm_compute. reflexivity. Qed.

Example toISOString_before_epoch :
  JSDate.toISOString (-1) = "1969-12-31T23:59:59.999Z"%string.
Proof. vm_compute. reflexivity. Qed.

Example parse_2023 :
  JSDate.parse "2023-11-14T22:13:20.123Z" = Some 1700000000123.
Proof. vm_compute. reflexivity. Qed.

Example parse_rejects_text : JSDate.parse "yesterday" = None.
Proof. reflexivity. Qed.


(** ** The private helpers: loading and saving *)

Arguments JSDate.toISOString : simpl never.
Arguments Array_sort : simpl never.
Arguments pretty : simpl never.

Lemma later_0 w : later w 0 0 (storage w) [] = w.
Proof. destruct w. unfold later. simpl. by rewrite app_nil_r. Qed.

Lemma getNotes_spec w :
  ∃ log, NoteService.getNotes w
         = (Returned (loadedNotes w), later w 1 0 (storage w) log).
Proof.
  unfold NoteService.getNotes, try_catch, bind, AsyncStorage.getItem,
    loadedNotes, storedNotes, later.
  destruct (rejects w 0%nat); simpl; [by eexists|].
  destruct (storage w !! NoteService.STORAGE_KEY) as [[ns|ts|raw]|]; simpl.
  - exists []. by rewrite app_nil_r.
  - by eexists.
  - destruct raw; simpl; [exists []; by rewrite app_nil_r | by eexists].
  - exists []. by rewrite app_nil_r.
Qed.

Lemma getTodos_spec w :
  ∃ log, TodoService.getTodos w
         = (Returned (loadedTodos w), later w 1 0 (storage w) log).
Proof.
  unfold TodoService.getTodos, try_catch, bind, AsyncStorage.getItem,
    loadedTodos, storedTodos, later.
  destruct (rejects w 0%nat); simpl; [by eexists|].
  destruct (storage w !! TodoService.STORAGE_KEY) as [[ns|ts|raw]|]; simpl.
  - by eexists.
  - exists []. by rewrite app_nil_r.
  - destruct raw; simpl; [exists []; by rewrite app_nil_r | by eexists].
  - exists []. by rewrite app_nil_r.
Qed.

Lemma saveNotes_spec notes w :
  NoteService.saveNotes notes w =
  if rejects w 0%nat
  then (Thrown (Error "Failed to save notes"),
        later w 1 0 (storage w) [("Error saving notes:"%string, StorageError)])
  else (Returned (),
        mkWorld (<[NoteService.STORAGE_KEY := JsonNotes notes]> (storage w))
                (console w) (clock w) (λ n, rejects w (S n))).
Proof.
  unfold NoteService.saveNotes, try_catch, AsyncStorage.setItem.
  by destruct (rejects w 0%nat).
Qed.

Lemma saveTodos_spec todos w :
  TodoService.saveTodos todos w =
  if rejects w 0%nat
  then (Thrown (Error "Failed to save todos"),
        later w 1 0 (storage w) [("Error saving todos:"%string, StorageError)])
  else (Returned (),
        mkWorld (<[TodoService.STORAGE_KEY := JsonTodos todos]> (storage w))
                (console w) (clock w) (λ n, rejects w (S n))).
Proof.
  unfold TodoService.saveTodos, try_catch, AsyncStorage.setItem.
  by destruct (rejects w 0%nat).
Qed.

(** ** The operations, step by step *)

Lemma createNote_spec data w :
  ∃ log,
    NoteService.createNote data w =
    let note := createdNote data (clock w 0%nat) (clock w 1%nat) (clock w 2%nat) in
    if rejects w 1%nat
    then (Thrown (Error "Failed to save notes"), later w 2 3 (storage w) log)
    else (Returned note,
          later w 2 3
            (<[NoteService.STORAGE_KEY := JsonNotes (loadedNotes w ++ [note])]>
               (storage w)) log).
Proof.
  destruct (getNotes_spec w) as [log E].
  unfold NoteService.createNote, bind, new_Date_toISOString, bind, Date_now, ret.
  rewrite E. simpl. rewrite saveNotes_spec. simpl.
  destruct (rejects w 1%nat); simpl.
  - eexists. unfold later. simpl. rewrite <- app_assoc. reflexivity.
  - exists log. reflexivity.
Qed.

Lemma createTodo_spec data w :
  ∃ log,
    TodoService.createTodo data w =
    let todo := createdTodo data (clock w 0%nat) (clock w 1%nat) (clock w 2%nat) in
    if rejects w 1%nat
    then (Thrown (Error "Failed to save todos"), later w 2 3 (storage w) log)
    else (Returned todo,
          later w 2 3
            (<[TodoService.STORAGE_KEY := JsonTodos (loadedTodos w ++ [todo])]>
               (storage w)) log).
Proof.
  destruct (getTodos_spec w) as [log E].
  unfold TodoService.createTodo, bind, new_Date_toISOString, bind, Date_now, ret.
  rewrite E. simpl. rewrite saveTodos_spec. simpl.
  destruct (rejects w 1%nat); simpl.
  - eexists. unfold later. simpl. rewrite <- app_assoc. reflexivity.
  - exists log. reflexivity.
Qed.

Lemma updateNote_missing id data w :
  list_find (λ note, Note.id note = id) (loadedNotes w) = None →
  ∃ log, NoteService.updateNote id data w
         = (Thrown (Error "Note not found"), later w 1 0 (storage w) log).
Proof.
  intros Hfind. destruct (getNotes_spec w) as [log E].
  unfold NoteService.updateNote, bind. rewrite E, Hfind. by exists log.
Qed.

Lemma updateNote_found id data w index note :
  list_find (λ note, Note.id note = id) (loadedNotes w) = Some (index, note) →
  ∃ log,
    NoteService.updateNote id data w =
    let updated := NoteService.spread note data (JSDate.toISOString (clock w 0%nat)) in
    if rejects w 1%nat
    then (Thrown (Error "Failed to save notes"), later w 2 1 (storage w) log)
    else (Returned (Some updated),
          later w 2 1
            (<[NoteService.STORAGE_KEY :=
                 JsonNotes (<[index := updated]> (loadedNotes w))]> (storage w))
            log).
Proof.
  intros Hfind. destruct (getNotes_spec w) as [log E].
  unfold NoteService.updateNote, bind, new_Date_toISOString, bind, Date_now, ret.
  rewrite E, Hfind. simpl. rewrite saveNotes_spec. simpl.
  destruct (rejects w 1%nat); simpl.
  - eexists. unfold later. simpl. rewrite <- app_assoc. reflexivity.
  - exists log. reflexivity.
Qed.

Lemma updateTodo_missing id data w :
  list_find (λ todo, Todo.id todo = id) (loadedTodos w) = None →
  ∃ log, TodoService.updateTodo id data w
         = (Thrown (Error "Todo not found"), later w 1 0 (storage w) log).
Proof.
  intros Hfind. destruct (getTodos_spec w) as [log E].
  unfold TodoService.updateTodo, bind. rewrite E, Hfind. by exists log.
Qed.

Lemma updateTodo_found id data w index todo :
  list_find (λ todo, Todo.id todo = id) (loadedTodos w) = Some (index, todo) →
  ∃ log,
    TodoService.updateTodo id data w =
    let updated := TodoService.spread todo data (JSDate.toISOString (clock w 0%nat)) in
    if rejects w 1%nat
    then (Thrown (Error "Failed to save todos"), later w 2 1 (storage w) log)
    else (Returned (Some updated),
          later w 2 1
            (<[TodoService.STORAGE_KEY :=
                 JsonTodos (<[index := updated]> (loadedTodos w))]> (storage w))
            log).
Proof.
  intros Hfind. destruct (getTodos_spec w) as [log E].
  unfold TodoService.updateTodo, bind, new_Date_toISOString, bind, Date_now, ret.
  rewrite E, Hfind. simpl. rewrite saveTodos_spec. simpl.
  destruct (rejects w 1%nat); simpl.
  - eexists. unfold later. simpl. rewrite <- app_assoc. reflexivity.
  - exists log. reflexivity.
Qed.

Lemma deleteNote_spec id w :
  ∃ log,
    NoteService.deleteNote id w =
    if rejects w 1%nat
    then (Thrown (Error "Failed to save notes"), later w 2 0 (storage w) log)
    else (Returned (),
          later w 2 0
            (<[NoteService.STORAGE_KEY :=
                 JsonNotes (filter (λ note, Note.id note ≠ id) (loadedNotes w))]>
               (storage w)) log).
Proof.
  destruct (getNotes_spec w) as [log E].
  unfold NoteService.deleteNote, bind. rewrite E, saveNotes_spec. simpl.
  destruct (rejects w 1%nat); simpl.
  - eexists. unfold later. simpl. rewrite <- app_assoc. reflexivity.
  - exists log. reflexivity.
Qed.

Lemma deleteTodo_spec id w :
  ∃ log,
    TodoService.deleteTodo id w =
    if rejects w 1%nat
    then (Thrown (Error "Failed to save todos"), later w 2 0 (storage w) log)
    else (Returned (),
          later w 2 0
            (<[TodoService.STORAGE_KEY :=
                 JsonTodos (filter (λ todo, Todo.id todo ≠ id) (loadedTodos w))]>
               (storage w)) log).
Proof.
  destruct (getTodos_spec w) as [log E].
  unfold TodoService.deleteTodo, bind. rewrite E, saveTodos_spec. simpl.
  destruct (rejects w 1%nat); simpl.
  - eexists. unfold later. simpl. rewrite <- app_assoc. reflexivity.
  - exists log. reflexivity.
Qed.

Lemma getNoteById_spec id w :
  ∃ log, NoteService.getNoteById id w =
         (Returned (snd <$> list_find (λ note, Note.id note = id) (loadedNotes w)),
          later w 1 0 (storage w) log).
Proof.
  destruct (getNotes_spec w) as [log E].
  unfold NoteService.getNoteById, bind. rewrite E. by exists log.
Qed.

Lemma getTodoById_spec id w :
  ∃ log, TodoService.getTodoById id w =
         (Returned (snd <$> list_find (λ todo, Todo.id todo = id) (loadedTodos w)),
          later w 1 0 (storage w) log).
Proof.
  destruct (getTodos_spec w) as [log E].
  unfold TodoService.getTodoById, bind. rewrite E. by exists log.
Qed.

Lemma togglePinNote_missing id w :
  list_find (λ note, Note.id note = id) (loadedNotes w) = None →
  ∃ log, NoteService.togglePinNote id w
         = (Returned None, later w 1 0 (storage w) log).
Proof.
  intros Hfind. destruct (getNoteById_spec id w) as [log E].
  unfold NoteService.togglePinNote, bind. rewrite E, Hfind. by exists log.
Qed.

Lemma toggleTodo_missing id w :
  list_find (λ todo, Todo.id todo = id) (loadedTodos w) = None →
  ∃ log, TodoService.toggleTodo id w
         = (Returned None, later w 1 0 (storage w) log).
Proof.
  intros Hfind. destruct (getTodoById_spec id w) as [log E].
  unfold TodoService.toggleTodo, bind. rewrite E, Hfind. by exists log.
Qed.

(** ** Looking a record up by its id *)

Lemma loadedNotes_ids w id :
  id ∉ Note.id <$> storedNotes w →
  list_find (λ note, Note.id note = id) (loadedNotes w) = None.
Proof.
  intros Hid. apply list_find_None, Forall_forall. intros note Hin <-.
  apply Hid, list_elem_of_fmap. exists note. split; [done|].
  unfold loadedNotes in Hin. destruct (rejects w 0%nat).
  - by apply elem_of_nil in Hin.
  - by rewrite Array_sort_Permutation in Hin.
Qed.

Lemma loadedTodos_ids w id :
  id ∉ Todo.id <$> storedTodos w →
  list_find (λ todo, Todo.id todo = id) (loadedTodos w) = None.
Proof.
  intros Hid. apply list_find_None, Forall_forall. intros todo Hin <-.
  apply Hid, list_elem_of_fmap. exists todo. split; [done|].
  unfold loadedTodos in Hin. destruct (rejects w 0%nat); [|done].
  by apply elem_of_nil in Hin.
Qed.

(** ** Reading *)

(** C5. When the read of the stored collection fails, because AsyncStorage
    rejects it or because [JSON.parse] throws on the stored text, [getTodos]
    and [getNotes] do not throw: they return the empty list, print one line
    on the console and leave the storage as it is. *)
Theorem load_failure_is_caught_and_logged w :
  (readFails TodoService.STORAGE_KEY w →
   ∃ e, TodoService.getTodos w
        = (Returned [],
           later w 1 0 (storage w) [("Error loading todos:"%string, e)]))
  ∧ (readFails NoteService.STORAGE_KEY w →
     ∃ e, NoteService.getNotes w
          = (Returned [],
             later w 1 0 (storage w) [("Error loading notes:"%string, e)])).
Proof.
  split.
  - unfold TodoService.getTodos, try_catch, bind, AsyncStorage.getItem, later.
    intros [Hrej | (raw & Hraw & Htext)].
    + rewrite Hrej. by exists StorageError.
    + destruct (rejects w 0%nat); [by exists StorageError|].
      simpl. rewrite Htext. destruct raw; [done|]. by exists SyntaxError.
  - unfold NoteService.getNotes, try_catch, bind, AsyncStorage.getItem, later.
    intros [Hrej | (raw & Hraw & Htext)].
    + rewrite Hrej. by exists StorageError.
    + destruct (rejects w 0%nat); [by exists StorageError|].
      simpl. rewrite Htext. destruct raw; [done|]. by exists SyntaxError.
Qed.

Lemma load_failure_is_caught_and_logged_witness :
  (∃ e, TodoService.getTodos brokenWorld
        = (Returned [],
           later brokenWorld 1 0 (storage brokenWorld)
                 [("Error loading todos:"%string, e)]))
  ∧ (∃ e, NoteService.getNotes (served (served brokenWorld))
          = (Returned [],
             later (served (served brokenWorld)) 1 0
                   (storage (served (served brokenWorld)))
                   [("Error loading notes:"%string, e)])).
Proof.
  split.
  - apply (proj1 (load_failure_is_caught_and_logged brokenWorld)).
    right. exists "[{"%string. split; [discriminate | vm_compute; reflexivity].
  - apply (proj2 (load_failure_is_caught_and_logged (served (served brokenWorld)))).
    left. reflexivity.
Defined.

Lemma completed_plus_active (todos : list Todo.t) :
  (length (filter (λ t, Todo.completed t = true) todos)
   + length (filter (λ t, Todo.completed t = false) todos)
   = length todos)%nat.
Proof.
  induction todos as [|t l IH]; [done|]. rewrite !filter_cons.
  destruct (Todo.completed t); repeat case_decide; try done; simpl; lia.
Qed.

Lemma highPriority_plus_done (todos : list Todo.t) :
  (length (filter (λ t, Todo.priority t = high ∧ Todo.completed t = false) todos)
   + length (filter (λ t, Todo.priority t = high ∧ Todo.completed t = true) todos)
   = length (filter (λ t, Todo.priority t = high) todos))%nat.
Proof.
  induction todos as [|t l IH]; [done|]. rewrite !filter_cons.
  destruct (Todo.priority t), (Todo.completed t);
    repeat case_decide; simpl; try lia; exfalso; intuition congruence.
Qed.

(** C10. The statistics of [getTodosStats]: completed and active add up to
    the total, the total is the number of stored todos, and [highPriority]
    counts the todos that have priority high and are not completed. *)
Theorem getTodosStats_counts w :
  ∃ stats w',
    TodoService.getTodosStats w = (Returned stats, w')
    ∧ (TodoService.Stats.completed stats + TodoService.Stats.active stats
       = TodoService.Stats.total stats)%nat
    ∧ (TodoService.Stats.highPriority stats
       + length (filter (λ t, Todo.priority t = high ∧ Todo.completed t = true)
                        (loadedTodos w))
       = length (filter (λ t, Todo.priority t = high) (loadedTodos w)))%nat
    ∧ (rejects w 0%nat = false →
       TodoService.Stats.total stats = length (storedTodos w)
       ∧ TodoService.Stats.highPriority stats
         = length (filter (λ t, Todo.priority t = high ∧ Todo.completed t = false)
                          (storedTodos w))).
Proof.
  destruct (getTodos_spec w) as [log E].
  unfold TodoService.getTodosStats, bind. rewrite E. simpl.
  eexists _, _. split; [reflexivity|]. simpl.
  split; [apply completed_plus_active|split; [apply highPriority_plus_done|]].
  - intros Hr. unfold loadedTodos. by rewrite Hr.
Qed.

Lemma getTodosStats_counts_witness :
  ∃ stats w',
    TodoService.getTodosStats sampleWorld = (Returned stats, w')
    ∧ (TodoService.Stats.completed stats + TodoService.Stats.active stats
       = TodoService.Stats.total stats)%nat
    ∧ TodoService.Stats.total stats = 3%nat
    ∧ TodoService.Stats.highPriority stats = 1%nat.
Proof.
  destruct (getTodosStats_counts sampleWorld)
    as (stats & w' & E & Hsum & _ & Hstored).
  destruct (Hstored eq_refl) as [Htotal Hhigh].
  vm_compute in Htotal, Hhigh.
  exists stats, w'. repeat split; assumption.
Defined.

(** ** Missing ids *)

(** C8. For an id that no stored record has, [updateTodo] and [updateNote]
    throw ("Todo not found", "Note not found") although their declared
    result type allows [null], and leave the storage as it is; [toggleTodo]
    and [togglePinNote] return [null] without throwing. *)
Theorem update_throws_and_toggle_returns_null_on_missing_id w id :
  (id ∉ Todo.id <$> storedTodos w →
   (∀ data, ∃ w', TodoService.updateTodo id data w
                  = (Thrown (Error "Todo not found"), w')
                  ∧ storage w' = storage w)
   ∧ ∃ w', TodoService.toggleTodo id w = (Returned None, w')
           ∧ storage w' = storage w)
  ∧ (id ∉ Note.id <$> storedNotes w →
     (∀ data, ∃ w', NoteService.updateNote id data w
                    = (Thrown (Error "Note not found"), w')
                    ∧ storage w' = storage w)
     ∧ ∃ w', NoteService.togglePinNote id w = (Returned None, w')
             ∧ storage w' = storage w).
Proof.
  split; intros Hid.
  - apply loadedTodos_ids in Hid. split.
    + intros data. destruct (updateTodo_missing id data w Hid) as [log E].
      by eexists.
    + destruct (toggleTodo_missing id w Hid) as [log E]. by eexists.
  - apply loadedNotes_ids in Hid. split.
    + intros data. destruct (updateNote_missing id data w Hid) as [log E].
      by eexists.
    + destruct (togglePinNote_missing id w Hid) as [log E]. by eexists.
Qed.

Lemma update_throws_and_toggle_returns_null_on_missing_id_witness :
  (∃ w', TodoService.updateTodo "404" UpdateTodoDto.empty sampleWorld
         = (Thrown (Error "Todo not found"), w')
         ∧ storage w' = storage sampleWorld)
  ∧ (∃ w', NoteService.togglePinNote "404" sampleWorld = (Returned None, w')
           ∧ storage w' = storage sampleWorld).
Proof.
  pose proof (update_throws_and_toggle_returns_null_on_missing_id
                sampleWorld "404") as [Htodo Hnote].
  split.
  - apply Htodo. vm_compute. intros Hin.
    repeat (apply elem_of_cons in Hin as [Hin|Hin]; [discriminate|]).
    by apply elem_of_nil in Hin.
  - apply Hnote. vm_compute. intros Hin.
    repeat (apply elem_of_cons in Hin as [Hin|Hin]; [discriminate|]).
    by apply elem_of_nil in Hin.
Defined.

(** ** Creation *)

(** C3. The id of a created record is the decimal string of the clock value
    that [Date.now()] reads during the call, so a second creation that
    reads the same clock value gets the same id, and the stored collection
    then holds two records with one id. *)
Theorem created_id_is_the_clock_reading w :
  rejects w 1%nat = false →
  (∀ data, ∃ todo w',
      TodoService.createTodo data w = (Returned todo, w')
      ∧ Todo.id todo = pretty (clock w 0%nat)
      ∧ last (storedTodos w') = Some todo)
  ∧ (∀ data, ∃ note w',
        NoteService.createNote data w = (Returned note, w')
        ∧ Note.id note = pretty (clock w 0%nat)
        ∧ last (storedNotes w') = Some note)
  ∧ (rejects w 2%nat = false → rejects w 3%nat = false →
     clock w 3%nat = clock w 0%nat →
     ∀ data1 data2, ∃ todo1 w1 todo2 w2,
       TodoService.createTodo data1 w = (Returned todo1, w1)
       ∧ TodoService.createTodo data2 w1 = (Returned todo2, w2)
       ∧ Todo.id todo1 = Todo.id todo2
       ∧ storedTodos w2 = loadedTodos w ++ [todo1; todo2]).
Proof.
  intros Hsave. split; [|split].
  - intros data. destruct (createTodo_spec data w) as [log E].
    rewrite Hsave in E. eexists _, _. split; [exact E|]. split; [done|].
    unfold storedTodos, later. simpl. rewrite lookup_insert_eq.
    by rewrite last_snoc.
  - intros data. destruct (createNote_spec data w) as [log E].
    rewrite Hsave in E. eexists _, _. split; [exact E|]. split; [done|].
    unfold storedNotes, later. simpl. rewrite lookup_insert_eq.
    by rewrite last_snoc.
  - intros Hread2 Hsave2 Hclock data1 data2.
    destruct (createTodo_spec data1 w) as [log1 E1]. rewrite Hsave in E1.
    simpl in E1.
    match type of E1 with _ = (_, ?w1) =>
      destruct (createTodo_spec data2 w1) as [log2 E2] end.
    simpl in E2. rewrite Hsave2 in E2.
    eexists _, _, _, _. split; [exact E1|]. split; [exact E2|].
    split; [simpl; by rewrite Hclock|].
    unfold storedTodos, later. simpl. rewrite lookup_insert_eq.
    unfold loadedTodos at 1. simpl. rewrite Hread2.
    unfold storedTodos. simpl. rewrite lookup_insert_eq.
    by rewrite <- app_assoc.
Qed.

Lemma created_id_is_the_clock_reading_witness :
  ∃ todo1 w1 todo2 w2,
    TodoService.createTodo (CreateTodoDto.mk "a" None None None)
                           stoppedClockWorld = (Returned todo1, w1)
    ∧ TodoService.createTodo (CreateTodoDto.mk "b" None (Some low) None) w1
      = (Returned todo2, w2)
    ∧ Todo.id todo1 = Todo.id todo2
    ∧ storedTodos w2 = loadedTodos stoppedClockWorld ++ [todo1; todo2].
Proof.
  apply (created_id_is_the_clock_reading stoppedClockWorld); reflexivity.
Defined.

(** C6, as the code has it.  [createTodo] returns a todo with the title,
    description and due date of the dto, [completed = false], the priority
    of the dto or [medium] when the dto has none, and [createdAt] and
    [updatedAt] the ISO strings of the second and third clock read of the
    call; the two are equal when these two reads see the same time. *)
Theorem createTodo_builds_the_record data w :
  rejects w 1%nat = false →
  ∃ todo w',
    TodoService.createTodo data w = (Returned todo, w')
    ∧ Todo.title todo = CreateTodoDto.title data
    ∧ Todo.description todo = CreateTodoDto.description data
    ∧ Todo.dueDate todo = CreateTodoDto.dueDate data
    ∧ Todo.completed todo = false
    ∧ (∀ p, CreateTodoDto.priority data = Some p → Todo.priority todo = p)
    ∧ (CreateTodoDto.priority data = None → Todo.priority todo = medium)
    ∧ Todo.priority todo ∈ [low; medium; high]
    ∧ Todo.createdAt todo = JSDate.toISOString (clock w 1%nat)
    ∧ Todo.updatedAt todo = JSDate.toISOString (clock w 2%nat)
    ∧ (clock w 1%nat = clock w 2%nat → Todo.createdAt todo = Todo.updatedAt todo).
Proof.
  intros Hsave. destruct (createTodo_spec data w) as [log E].
  rewrite Hsave in E. eexists _, _. split; [exact E|]. simpl.
  repeat split; try done.
  - by intros p ->.
  - by intros ->.
  - destruct (default medium (CreateTodoDto.priority data)); set_solver.
  - by intros ->.
Qed.

Lemma createTodo_builds_the_record_witness :
  ∃ todo w',
    TodoService.createTodo (CreateTodoDto.mk "ship" None (Some high) None)
                           stoppedClockWorld = (Returned todo, w')
    ∧ Todo.completed todo = false
    ∧ Todo.priority todo = high
    ∧ Todo.createdAt todo = Todo.updatedAt todo.
Proof.
  destruct (createTodo_builds_the_record
              (CreateTodoDto.mk "ship" None (Some high) None)
              stoppedClockWorld eq_refl)
    as (todo & w' & E & _ & _ & _ & Hc & Hp & _ & _ & _ & _ & Heq).
  exists todo, w'. repeat split; [exact E | exact Hc | by apply Hp | by apply Heq].
Defined.

(** C6 as stated fails: with a clock that advances between the two reads
    the created todo has [createdAt] different from [updatedAt]. *)
Lemma createTodo_timestamps_may_differ :
  ∃ todo w',
    TodoService.createTodo (CreateTodoDto.mk "ship" None None None) sampleWorld
    = (Returned todo, w')
    ∧ Todo.createdAt todo = "2023-11-14T22:13:20.001Z"%string
    ∧ Todo.updatedAt todo = "2023-11-14T22:13:20.002Z"%string
    ∧ Todo.createdAt todo ≠ Todo.updatedAt todo.
Proof.
  destruct (createTodo_spec (CreateTodoDto.mk "ship" None None None) sampleWorld)
    as [log E].
  simpl in E. eexists _, _. split; [exact E|].
  repeat split; vm_compute; (reflexivity || discriminate).
Qed.

(** ** Update *)

Lemma loadedNotes_find w id :
  rejects w 0%nat = false → id ∈ Note.id <$> storedNotes w →
  ∃ index note,
    list_find (λ note, Note.id note = id) (loadedNotes w) = Some (index, note)
    ∧ note ∈ storedNotes w ∧ Note.id note = id.
Proof.
  intros Hread (note & Hid & Hin)%list_elem_of_fmap.
  assert (note ∈ loadedNotes w) as Hl.
  { unfold loadedNotes. rewrite Hread. by rewrite Array_sort_Permutation. }
  destruct (list_find_elem_of (λ note, Note.id note = id) _ note Hl)
    as [[index found] Hfind]; [done|].
  exists index, found. split; [done|].
  apply list_find_Some in Hfind as (Hlook & Hfound & _).
  split; [|done]. apply list_elem_of_lookup_2 in Hlook.
  unfold loadedNotes in Hlook. rewrite Hread in Hlook.
  by rewrite Array_sort_Permutation in Hlook.
Qed.

Lemma loadedTodos_find w id :
  rejects w 0%nat = false → id ∈ Todo.id <$> storedTodos w →
  ∃ index todo,
    list_find (λ todo, Todo.id todo = id) (loadedTodos w) = Some (index, todo)
    ∧ storedTodos w !! index = Some todo ∧ Todo.id todo = id.
Proof.
  intros Hread (todo & Hid & Hin)%list_elem_of_fmap.
  assert (loadedTodos w = storedTodos w) as Hl.
  { unfold loadedTodos. by rewrite Hread. }
  rewrite Hl.
  destruct (list_find_elem_of (λ todo, Todo.id todo = id) _ todo Hin)
    as [[index found] Hfind]; [done|].
  exists index, found. split; [done|].
  by apply list_find_Some in Hfind as (Hlook & Hfound & _).
Qed.

(** C2. An update of an existing record returns and stores a record whose
    [updatedAt] is the ISO string of the clock read of the call, and whose
    id, [createdAt] and every field that is absent from the dto are those
    of the record before the update. *)
Theorem update_touches_only_the_dto_fields w id :
  rejects w 0%nat = false → rejects w 1%nat = false →
  (id ∈ Note.id <$> storedNotes w →
   ∀ data, ∃ index old updated w',
     old ∈ storedNotes w
     ∧ loadedNotes w !! index = Some old
     ∧ NoteService.updateNote id data w = (Returned (Some updated), w')
     ∧ storedNotes w' = <[index := updated]> (loadedNotes w)
     ∧ storedNotes w' !! index = Some updated
     ∧ Note.updatedAt updated = JSDate.toISOString (clock w 0%nat)
     ∧ JSDate.isISOFormat (Note.updatedAt updated) = true
     ∧ Note.id old = id ∧ Note.id updated = id
     ∧ Note.createdAt updated = Note.createdAt old
     ∧ (UpdateNoteDto.title data = None → Note.title updated = Note.title old)
     ∧ (UpdateNoteDto.content data = None
        → Note.content updated = Note.content old)
     ∧ (UpdateNoteDto.category data = None
        → Note.category updated = Note.category old)
     ∧ (UpdateNoteDto.tags data = None → Note.tags updated = Note.tags old)
     ∧ (UpdateNoteDto.isPinned data = None
        → Note.isPinned updated = Note.isPinned old))
  ∧ (id ∈ Todo.id <$> storedTodos w →
     ∀ data, ∃ index old updated w',
       storedTodos w !! index = Some old
       ∧ TodoService.updateTodo id data w = (Returned (Some updated), w')
       ∧ storedTodos w' = <[index := updated]> (storedTodos w)
       ∧ storedTodos w' !! index = Some updated
       ∧ Todo.updatedAt updated = JSDate.toISOString (clock w 0%nat)
       ∧ JSDate.isISOFormat (Todo.updatedAt updated) = true
       ∧ Todo.id old = id ∧ Todo.id updated = id
       ∧ Todo.createdAt updated = Todo.createdAt old
       ∧ (UpdateTodoDto.title data = None → Todo.title updated = Todo.title old)
       ∧ (UpdateTodoDto.description data = None
          → Todo.description updated = Todo.description old)
       ∧ (UpdateTodoDto.priority data = None
          → Todo.priority updated = Todo.priority old)
       ∧ (UpdateTodoDto.dueDate data = None
          → Todo.dueDate updated = Todo.dueDate old)
       ∧ (UpdateTodoDto.completed data = None
          → Todo.completed updated = Todo.completed old)).
Proof.
  intros Hread Hsave. split; intros Hid data.
  - destruct (loadedNotes_find w id Hread Hid)
      as (index & old & Hfind & Hin & Hold).
    destruct (updateNote_found id data w index old Hfind) as [log E].
    rewrite Hsave in E. simpl in E.
    pose proof Hfind as (Hlook & _)%list_find_Some.
    eexists index, old, _, _.
    split; [done|]. split; [done|]. split; [exact E|].
    assert (storedNotes
              (later w 2 1
                 (<[NoteService.STORAGE_KEY :=
                      JsonNotes (<[index := NoteService.spread old data
                                    (JSDate.toISOString (clock w 0%nat))]>
                                   (loadedNotes w))]> (storage w)) log)
            = <[index := NoteService.spread old data
                           (JSDate.toISOString (clock w 0%nat))]> (loadedNotes w))
      as Hstored.
    { unfold storedNotes, later. simpl. by rewrite lookup_insert_eq. }
    split; [exact Hstored|]. rewrite Hstored.
    split; [apply list_lookup_insert_eq; by eapply lookup_lt_Some|].
    simpl. rewrite toISOString_isISOFormat.
    repeat split; try done; by intros ->.
  - destruct (loadedTodos_find w id Hread Hid)
      as (index & old & Hfind & Hlook & Hold).
    destruct (updateTodo_found id data w index old Hfind) as [log E].
    rewrite Hsave in E. simpl in E.
    assert (loadedTodos w = storedTodos w) as Hl.
    { unfold loadedTodos. by rewrite Hread. }
    rewrite Hl in E.
    eexists index, old, _, _.
    split; [done|]. split; [exact E|].
    assert (storedTodos
              (later w 2 1
                 (<[TodoService.STORAGE_KEY :=
                      JsonTodos (<[index := TodoService.spread old data
                                    (JSDate.toISOString (clock w 0%nat))]>
                                   (storedTodos w))]> (storage w)) log)
            = <[index := TodoService.spread old data
                           (JSDate.toISOString (clock w 0%nat))]> (storedTodos w))
      as Hstored.
    { unfold storedTodos at 1, later. simpl. by rewrite lookup_insert_eq. }
    split; [exact Hstored|]. rewrite Hstored.
    split; [apply list_lookup_insert_eq; by eapply lookup_lt_Some|].
    simpl. rewrite toISOString_isISOFormat.
    repeat split; try done; by intros ->.
Qed.

Lemma update_touches_only_the_dto_fields_witness :
  (∃ updated w',
      NoteService.updateNote "2"
        (UpdateNoteDto.mk (Some "door keys") None (Some None) None None)
        sampleWorld = (Returned (Some updated), w')
      ∧ Note.id updated = "2"%string
      ∧ Note.updatedAt updated = JSDate.toISOString 1700000000000)
  ∧ (∃ updated w',
        TodoService.updateTodo "11"
          (UpdateTodoDto.mk None None (Some low) None None)
          sampleWorld = (Returned (Some updated), w')
        ∧ Todo.id updated = "11"%string
        ∧ Todo.updatedAt updated = JSDate.toISOString 1700000000000).
Proof.
  destruct (update_touches_only_the_dto_fields sampleWorld "2" eq_refl eq_refl)
    as [Hnote _].
  destruct (update_touches_only_the_dto_fields sampleWorld "11" eq_refl eq_refl)
    as [_ Htodo].
  split.
  - destruct (Hnote ltac:(vm_compute; repeat constructor)
                (UpdateNoteDto.mk (Some "door keys") None (Some None) None None))
      as (index & old & updated & w' & _ & _ & E & _ & _ & Hat & _ & _ & Hid & _).
    exists updated, w'. repeat split; assumption.
  - destruct (Htodo ltac:(vm_compute; repeat constructor)
                (UpdateTodoDto.mk None None (Some low) None None))
      as (index & old & updated & w' & _ & E & _ & _ & Hat & _ & _ & Hid & _).
    exists updated, w'. repeat split; assumption.
Defined.

(** ** The order of [getNotes] *)

Lemma StronglySorted_lookup {A} (R : relation A) l i j a b :
  StronglySorted R l → (i < j)%nat → l !! i = Some a → l !! j = Some b → R a b.
Proof.
  intros Hl. revert i j. induction Hl as [|x l Hl IH Hx]; intros i j Hij Ha Hb.
  - by rewrite lookup_nil in Ha.
  - destruct j as [|j]; [lia|]. simpl in Hb. destruct i as [|i]; simpl in Ha.
    + injection Ha as ->. rewrite Forall_forall in Hx.
      apply Hx. by eapply list_elem_of_lookup_2.
    + apply (IH i j); [lia|done..].
Qed.

(** C1. [getNotes] returns a permutation of the stored notes in which every
    pinned note is in front of every unpinned one and, the timestamps being
    date strings as the data model has them, a note is in front of the
    notes of its group that were updated earlier.  The stored text itself
    is not reordered. *)
Theorem getNotes_sorts_pinned_then_recent w :
  rejects w 0%nat = false →
  ∃ notes w',
    NoteService.getNotes w = (Returned notes, w')
    ∧ storage w' = storage w
    ∧ notes ≡ₚ storedNotes w
    ∧ (∀ i j a b, (i < j)%nat → notes !! i = Some a → notes !! j = Some b →
                  Note.isPinned b = true → Note.isPinned a = true)
    ∧ (Forall timestamped (storedNotes w) →
       ∀ i j a b ta tb,
         (i < j)%nat → notes !! i = Some a → notes !! j = Some b →
         Note.isPinned a = Note.isPinned b →
         NoteService.getTime (Note.updatedAt a) = Some ta →
         NoteService.getTime (Note.updatedAt b) = Some tb →
         tb <= ta).
Proof.
  intros Hread. destruct (getNotes_spec w) as [log E].
  unfold loadedNotes in E. rewrite Hread in E.
  eexists _, _. split; [exact E|]. split; [done|].
  split; [apply Array_sort_Permutation|]. split.
  - intros i j a b Hij Ha Hb.
    apply (StronglySorted_lookup pinnedFirst
             (Array_sort NoteService.compareNotes (storedNotes w)) i j a b);
      [|done..].
    apply getNotes_sort_pinnedFirst.
  - intros Hvalid i j a b ta tb Hij Ha Hb Hgroup Hta Htb.
    assert (displayOrder a b) as [_ Hnewer]; [|by eapply Hnewer].
    apply (StronglySorted_lookup displayOrder
             (Array_sort NoteService.compareNotes (storedNotes w)) i j a b);
      [|done..].
    by apply getNotes_sort_displayOrder.
Qed.

Lemma sampleNotes_timestamped : Forall timestamped sampleNotes.
Proof. repeat constructor; eexists; vm_compute; reflexivity. Qed.

Lemma getNotes_sorts_pinned_then_recent_witness :
  ∃ notes w',
    NoteService.getNotes sampleWorld = (Returned notes, w')
    ∧ notes ≡ₚ sampleNotes
    ∧ ∀ i j a b ta tb,
        (i < j)%nat → notes !! i = Some a → notes !! j = Some b →
        Note.isPinned a = Note.isPinned b →
        NoteService.getTime (Note.updatedAt a) = Some ta →
        NoteService.getTime (Note.updatedAt b) = Some tb →
        tb <= ta.
Proof.
  destruct (getNotes_sorts_pinned_then_recent sampleWorld eq_refl)
    as (notes & w' & E & _ & Hperm & _ & Horder).
  exists notes, w'. split; [exact E|]. split; [exact Hperm|].
  exact (Horder sampleNotes_timestamped).
Defined.

(** ** Deletion *)

Lemma filter_idemp {A} (P : A → Prop) `{∀ x, Decision (P x)} (l : list A) :
  filter P (filter P l) = filter P l.
Proof. by apply list_filter_filter_l. Qed.

Lemma filter_absent_id {A} (key : A → string) id (l : list A) :
  id ∉ key <$> l → filter (λ x, key x ≠ id) l = l.
Proof.
  induction l as [|x l IH]; [done|]. rewrite fmap_cons, not_elem_of_cons.
  intros [Hx Hl]. rewrite filter_cons_True by done. by rewrite IH.
Qed.

(** Sorting again what [getNotes] sorted and [filter] thinned changes
    nothing, when the timestamps are date strings. *)
Lemma Array_sort_filter_sorted (P : Note.t → Prop) `{∀ x, Decision (P x)} l :
  Forall timestamped l →
  Array_sort NoteService.compareNotes
    (filter P (Array_sort NoteService.compareNotes l))
  = filter P (Array_sort NoteService.compareNotes l).
Proof.
  intros Hl. apply Array_sort_Sorted_id, StronglySorted_Sorted.
  by apply StronglySorted_filter, getNotes_sort_sortsBefore.
Qed.

Lemma deleteTodo_stored w id :
  rejects w 0%nat = false → rejects w 1%nat = false →
  ∃ log, TodoService.deleteTodo id w =
         (Returned (),
          later w 2 0
            (<[TodoService.STORAGE_KEY :=
                 JsonTodos (filter (λ t, Todo.id t ≠ id) (storedTodos w))]>
               (storage w)) log).
Proof.
  intros Hread Hsave. destruct (deleteTodo_spec id w) as [log E].
  rewrite Hsave in E. unfold loadedTodos in E. rewrite Hread in E.
  by exists log.
Qed.

Lemma deleteNote_stored w id :
  rejects w 0%nat = false → rejects w 1%nat = false →
  ∃ log, NoteService.deleteNote id w =
         (Returned (),
          later w 2 0
            (<[NoteService.STORAGE_KEY :=
                 JsonNotes (filter (λ n, Note.id n ≠ id)
                              (Array_sort NoteService.compareNotes
                                          (storedNotes w)))]>
               (storage w)) log).
Proof.
  intros Hread Hsave. destruct (deleteNote_spec id w) as [log E].
  rewrite Hsave in E. unfold loadedNotes in E. rewrite Hread in E.
  by exists log.
Qed.

(** C9. Deletion succeeds for every id and removes exactly the records
    with that id; for an id that no stored record has, the stored records
    stay the same; and a second deletion of the same id changes nothing.
    (A storage that takes the calls is assumed; for notes, whose collection
    is written back in the order of [getNotes], the second deletion is
    stated for timestamps that are date strings.) *)
Theorem delete_removes_exactly_the_id w id :
  rejects w 0%nat = false → rejects w 1%nat = false →
  (∃ w', TodoService.deleteTodo id w = (Returned (), w')
         ∧ storedTodos w' = filter (λ t, Todo.id t ≠ id) (storedTodos w)
         ∧ (id ∉ Todo.id <$> storedTodos w → storedTodos w' = storedTodos w)
         ∧ (rejects w 2%nat = false → rejects w 3%nat = false →
            ∃ w'', TodoService.deleteTodo id w' = (Returned (), w'')
                   ∧ storedTodos w'' = storedTodos w'))
  ∧ (∃ w', NoteService.deleteNote id w = (Returned (), w')
           ∧ storedNotes w'
             = filter (λ n, Note.id n ≠ id)
                      (Array_sort NoteService.compareNotes (storedNotes w))
           ∧ storedNotes w' ≡ₚ filter (λ n, Note.id n ≠ id) (storedNotes w)
           ∧ (id ∉ Note.id <$> storedNotes w → storedNotes w' ≡ₚ storedNotes w)
           ∧ (Forall timestamped (storedNotes w) →
              rejects w 2%nat = false → rejects w 3%nat = false →
              ∃ w'', NoteService.deleteNote id w' = (Returned (), w'')
                     ∧ storedNotes w'' = storedNotes w')).
Proof.
  intros Hread Hsave. split.
  - destruct (deleteTodo_stored w id Hread Hsave) as [log E].
    eexists. split; [exact E|].
    assert (∀ st l, storedTodos
                      (later w 2 0 (<[TodoService.STORAGE_KEY := JsonTodos l]> st) log)
                    = l) as Hstored.
    { intros st l. unfold storedTodos, later. simpl. by rewrite lookup_insert_eq. }
    rewrite Hstored. split; [done|]. split; [apply filter_absent_id|].
    intros Hread' Hsave'.
    match goal with |- ∃ _, TodoService.deleteTodo _ ?w1 = _ ∧ _ =>
      destruct (deleteTodo_stored w1 id Hread' Hsave') as [log' E'] end.
    eexists. split; [exact E'|].
    unfold storedTodos at 1, later at 1. simpl. rewrite lookup_insert_eq.
    rewrite Hstored. apply filter_idemp.
  - destruct (deleteNote_stored w id Hread Hsave) as [log E].
    eexists. split; [exact E|].
    assert (∀ st l, storedNotes
                      (later w 2 0 (<[NoteService.STORAGE_KEY := JsonNotes l]> st) log)
                    = l) as Hstored.
    { intros st l. unfold storedNotes, later. simpl. by rewrite lookup_insert_eq. }
    rewrite Hstored. split; [done|].
    split; [by rewrite Array_sort_Permutation|].
    split.
    { intros Hid. rewrite Array_sort_Permutation. by rewrite filter_absent_id. }
    intros Hvalid Hread' Hsave'.
    match goal with |- ∃ _, NoteService.deleteNote _ ?w1 = _ ∧ _ =>
      destruct (deleteNote_stored w1 id Hread' Hsave') as [log' E'] end.
    eexists. split; [exact E'|].
    unfold storedNotes at 1, later at 1. simpl. rewrite lookup_insert_eq.
    rewrite Hstored. rewrite Array_sort_filter_sorted by done.
    apply filter_idemp.
Qed.

Lemma delete_removes_exactly_the_id_witness :
  (∃ w' w'', TodoService.deleteTodo "11" sampleWorld = (Returned (), w')
             ∧ Todo.id <$> storedTodos w' = ["10"; "12"]%string
             ∧ TodoService.deleteTodo "11" w' = (Returned (), w'')
             ∧ storedTodos w'' = storedTodos w')
  ∧ (∃ w' w'', NoteService.deleteNote "3" sampleWorld = (Returned (), w')
               ∧ NoteService.deleteNote "3" w' = (Returned (), w'')
               ∧ storedNotes w'' = storedNotes w').
Proof.
  destruct (delete_removes_exactly_the_id sampleWorld "11" eq_refl eq_refl)
    as [(w' & E & Hstored & _ & Htwice) _].
  destruct (delete_removes_exactly_the_id sampleWorld "3" eq_refl eq_refl)
    as [_ (v' & F & _ & _ & _ & Gtwice)].
  split.
  - destruct (Htwice eq_refl eq_refl) as (w'' & E' & Hsame).
    exists w', w''. repeat split; try assumption. by rewrite Hstored.
  - destruct (Gtwice sampleNotes_timestamped eq_refl eq_refl)
      as (v'' & F' & Gsame).
    exists v', v''. repeat split; assumption.
Defined.

(** ** The records an operation does not target *)

Lemma filter_insert_same {A} (P : A → Prop) `{∀ x, Decision (P x)}
    (l : list A) i x y :
  l !! i = Some x → ¬ P x → ¬ P y → filter P (<[i := y]> l) = filter P l.
Proof.
  revert i. induction l as [|z l IH]; intros i Hi Hx Hy; [done|].
  destruct i as [|i]; simpl in *.
  - injection Hi as ->. by rewrite !filter_cons_False.
  - rewrite !filter_cons. by rewrite (IH i).
Qed.

Lemma storedTodos_later w io ticks st log :
  storedTodos (later w io ticks st log)
  = match st !! TodoService.STORAGE_KEY with
    | Some (JsonTodos todos) => todos
    | _ => []
    end.
Proof. done. Qed.

Lemma storedNotes_later w io ticks st log :
  storedNotes (later w io ticks st log)
  = match st !! NoteService.STORAGE_KEY with
    | Some (JsonNotes notes) => notes
    | _ => []
    end.
Proof. done. Qed.

Lemma createTodo_others w data id :
  rejects w 0%nat = false → pretty (clock w 0%nat) = id →
  filter (λ t, Todo.id t ≠ id) (storedTodos (TodoService.createTodo data w).2)
  = filter (λ t, Todo.id t ≠ id) (storedTodos w).
Proof.
  intros Hread Hid. destruct (createTodo_spec data w) as [log E].
  rewrite E. unfold loadedTodos. rewrite Hread.
  destruct (rejects w 1%nat); simpl; [done|].
  rewrite storedTodos_later, lookup_insert_eq, filter_app.
  rewrite filter_cons_False; [by rewrite filter_nil, app_nil_r|].
  simpl. by intros [].
Qed.

Lemma updateTodo_others w data id :
  rejects w 0%nat = false →
  filter (λ t, Todo.id t ≠ id) (storedTodos (TodoService.updateTodo id data w).2)
  = filter (λ t, Todo.id t ≠ id) (storedTodos w).
Proof.
  intros Hread.
  destruct (list_find (λ todo, Todo.id todo = id) (loadedTodos w))
    as [[index old]|] eqn:Hfind.
  - destruct (updateTodo_found id data w index old Hfind) as [log E].
    rewrite E. apply list_find_Some in Hfind as (Hlook & Hold & _).
    unfold loadedTodos in *. rewrite Hread in *.
    destruct (rejects w 1%nat); simpl; [done|].
    rewrite storedTodos_later, lookup_insert_eq.
    apply (filter_insert_same _ _ index old); [done|naive_solver..].
  - destruct (updateTodo_missing id data w Hfind) as [log E]. by rewrite E.
Qed.

Lemma deleteTodo_others w id :
  rejects w 0%nat = false →
  filter (λ t, Todo.id t ≠ id) (storedTodos (TodoService.deleteTodo id w).2)
  = filter (λ t, Todo.id t ≠ id) (storedTodos w).
Proof.
  intros Hread. destruct (deleteTodo_spec id w) as [log E].
  rewrite E. unfold loadedTodos. rewrite Hread.
  destruct (rejects w 1%nat); simpl; [done|].
  rewrite storedTodos_later, lookup_insert_eq. apply filter_idemp.
Qed.

Lemma createNote_others w data id :
  rejects w 0%nat = false → pretty (clock w 0%nat) = id →
  keepsOtherNotes id w (NoteService.createNote data w).
Proof.
  intros Hread Hid. destruct (createNote_spec data w) as [log E].
  rewrite E. unfold loadedNotes, keepsOtherNotes. rewrite Hread.
  destruct (rejects w 1%nat); simpl; [done|].
  rewrite storedNotes_later, lookup_insert_eq, filter_app.
  rewrite filter_cons_False; [by rewrite filter_nil, app_nil_r|].
  simpl. by intros [].
Qed.

Lemma updateNote_others w data id :
  rejects w 0%nat = false →
  keepsOtherNotes id w (NoteService.updateNote id data w).
Proof.
  intros Hread. unfold keepsOtherNotes.
  destruct (list_find (λ note, Note.id note = id) (loadedNotes w))
    as [[index old]|] eqn:Hfind.
  - destruct (updateNote_found id data w index old Hfind) as [log E].
    rewrite E. apply list_find_Some in Hfind as (Hlook & Hold & _).
    unfold loadedNotes in *. rewrite Hread in *.
    destruct (rejects w 1%nat); simpl; [done|].
    rewrite storedNotes_later, lookup_insert_eq.
    apply (filter_insert_same _ _ index old); [done|naive_solver..].
  - destruct (updateNote_missing id data w Hfind) as [log E]. by rewrite E.
Qed.

Lemma deleteNote_others w id :
  rejects w 0%nat = false →
  keepsOtherNotes id w (NoteService.deleteNote id w).
Proof.
  intros Hread. destruct (deleteNote_spec id w) as [log E].
  rewrite E. unfold loadedNotes, keepsOtherNotes. rewrite Hread.
  destruct (rejects w 1%nat); simpl; [done|].
  rewrite storedNotes_later, lookup_insert_eq. apply filter_idemp.
Qed.

Lemma keepsOtherNotes_Permutation {A} id w (result : Outcome A * World) :
  keepsOtherNotes id w result →
  filter (λ n, Note.id n ≠ id) (storedNotes result.2)
  ≡ₚ filter (λ n, Note.id n ≠ id) (storedNotes w).
Proof.
  unfold keepsOtherNotes. destruct result.1.
  - intros ->. by rewrite Array_sort_Permutation.
  - intros Hst. unfold storedNotes. by rewrite Hst.
Qed.

(** C4, as the code has it.  When the collection is read, a creation, an
    update or a deletion leaves every record with another id in the stored
    collection, unchanged.  Todos keep their stored order.  Notes are
    written back in the order of [getNotes] (pinned first, most recently
    updated first), not in the order in which they were stored. *)
Theorem mutation_keeps_the_other_records w id :
  rejects w 0%nat = false →
  let otherTodos := filter (λ t, Todo.id t ≠ id) in
  let otherNotes := filter (λ n, Note.id n ≠ id) in
  ((∀ data, pretty (clock w 0%nat) = id →
            otherTodos (storedTodos (TodoService.createTodo data w).2)
            = otherTodos (storedTodos w))
   ∧ (∀ data, otherTodos (storedTodos (TodoService.updateTodo id data w).2)
              = otherTodos (storedTodos w))
   ∧ otherTodos (storedTodos (TodoService.deleteTodo id w).2)
     = otherTodos (storedTodos w))
  ∧ ((∀ data, pretty (clock w 0%nat) = id →
              keepsOtherNotes id w (NoteService.createNote data w)
              ∧ otherNotes (storedNotes (NoteService.createNote data w).2)
                ≡ₚ otherNotes (storedNotes w))
     ∧ (∀ data, keepsOtherNotes id w (NoteService.updateNote id data w)
                ∧ otherNotes (storedNotes (NoteService.updateNote id data w).2)
                  ≡ₚ otherNotes (storedNotes w))
     ∧ keepsOtherNotes id w (NoteService.deleteNote id w)
     ∧ otherNotes (storedNotes (NoteService.deleteNote id w).2)
       ≡ₚ otherNotes (storedNotes w)).
Proof.
  intros Hread otherTodos otherNotes. split; [split; [|split]|split; [|split]].
  - intros data Hid. by apply createTodo_others.
  - intros data. by apply updateTodo_others.
  - by apply deleteTodo_others.
  - intros data Hid. pose proof (createNote_others w data id Hread Hid).
    split; [done|]. by apply keepsOtherNotes_Permutation.
  - intros data. pose proof (updateNote_others w data id Hread).
    split; [done|]. by apply keepsOtherNotes_Permutation.
  - pose proof (deleteNote_others w id Hread).
    split; [done|]. by apply keepsOtherNotes_Permutation.
Qed.

Lemma mutation_keeps_the_other_records_witness :
  filter (λ t, Todo.id t ≠ "11"%string)
         (storedTodos (TodoService.deleteTodo "11" sampleWorld).2)
  = filter (λ t, Todo.id t ≠ "11"%string) (storedTodos sampleWorld)
  ∧ keepsOtherNotes "3" sampleWorld (NoteService.deleteNote "3" sampleWorld).
Proof.
  split.
  - apply (mutation_keeps_the_other_records sampleWorld "11" eq_refl).
  - apply (mutation_keeps_the_other_records sampleWorld "3" eq_refl).
Defined.

(** C4 as stated fails for notes.  Two creations on an empty storage leave
    an unpinned note stored in front of a pinned one; a deletion aimed at
    another id then writes the two back in the opposite order. *)
Lemma deleteNote_reorders_the_other_notes :
  Note.id <$> storedNotes twoNotesWorld
  = ["1700000000000"; "1700000003000"]%string
  ∧ Note.isPinned <$> storedNotes twoNotesWorld = [false; true]
  ∧ (NoteService.deleteNote "0" twoNotesWorld).1 = Returned ()
  ∧ Note.id <$> storedNotes (NoteService.deleteNote "0" twoNotesWorld).2
    = ["1700000003000"; "1700000000000"]%string.
Proof. repeat split; vm_compute; reflexivity. Qed.

(** ** What an operation reads and writes *)

Section Frame.
Variable key : string.

Lemma writesOnly_ret {A} (a : A) : writesOnly key (ret a).
Proof. by intros w k _. Qed.

Lemma writesOnly_throw {A} e : writesOnly key (@throw A e).
Proof. by intros w k _. Qed.

Lemma writesOnly_bind {A B} (m : Async A) (f : A → Async B) :
  writesOnly key m → (∀ a, writesOnly key (f a)) → writesOnly key (bind m f).
Proof.
  intros Hm Hf w k Hk. specialize (Hm w k Hk). unfold bind.
  destruct (m w) as [[a|e] w']; simpl in *; [|done].
  by rewrite (Hf a w' k Hk).
Qed.

Lemma writesOnly_try_catch {A} (m : Async A) (h : JSError → Async A) :
  writesOnly key m → (∀ e, writesOnly key (h e)) →
  writesOnly key (try_catch m h).
Proof.
  intros Hm Hh w k Hk. specialize (Hm w k Hk). unfold try_catch.
  destruct (m w) as [[a|e] w']; simpl in *; [done|].
  by rewrite (Hh e w' k Hk).
Qed.

Lemma writesOnly_Date_now : writesOnly key Date_now.
Proof. by intros w k _. Qed.

Lemma writesOnly_console_error label e :
  writesOnly key (console_error label e).
Proof. by intros w k _. Qed.

Lemma writesOnly_getItem : writesOnly key (AsyncStorage.getItem key).
Proof.
  intros w k _. unfold AsyncStorage.getItem. by destruct (rejects w 0%nat).
Qed.

Lemma writesOnly_setItem value :
  writesOnly key (AsyncStorage.setItem key value).
Proof.
  intros w k Hk. unfold AsyncStorage.setItem.
  destruct (rejects w 0%nat); simpl; [done|]. by rewrite lookup_insert_ne.
Qed.

Lemma writesOnly_removeItem : writesOnly key (AsyncStorage.removeItem key).
Proof.
  intros w k Hk. unfold AsyncStorage.removeItem.
  destruct (rejects w 0%nat); simpl; [done|]. by rewrite lookup_delete_ne.
Qed.

Lemma readsOnly_ret {A} (a : A) : readsOnly key (ret a).
Proof. by intros w1 w2 H. Qed.

Lemma readsOnly_throw {A} e : readsOnly key (@throw A e).
Proof. by intros w1 w2 H. Qed.

Lemma readsOnly_bind {A B} (m : Async A) (f : A → Async B) :
  readsOnly key m → (∀ a, readsOnly key (f a)) → readsOnly key (bind m f).
Proof.
  intros Hm Hf w1 w2 H. destruct (Hm w1 w2 H) as [Ho Hw]. unfold bind.
  destruct (m w1) as [[a1|e1] w1'], (m w2) as [[a2|e2] w2'];
    simpl in *; try discriminate; injection Ho as ->; [by apply Hf|done].
Qed.

Lemma readsOnly_try_catch {A} (m : Async A) (h : JSError → Async A) :
  readsOnly key m → (∀ e, readsOnly key (h e)) →
  readsOnly key (try_catch m h).
Proof.
  intros Hm Hh w1 w2 H. destruct (Hm w1 w2 H) as [Ho Hw]. unfold try_catch.
  destruct (m w1) as [[a1|e1] w1'], (m w2) as [[a2|e2] w2'];
    simpl in *; try discriminate; injection Ho as ->; [done|by apply Hh].
Qed.

Lemma readsOnly_Date_now : readsOnly key Date_now.
Proof.
  intros w1 w2 (Hst & Hclock & Hrej). unfold Date_now, agreeOn, tick. simpl.
  by rewrite Hclock.
Qed.

Lemma readsOnly_console_error label e :
  readsOnly key (console_error label e).
Proof. by intros w1 w2 (Hst & Hclock & Hrej). Qed.

Lemma readsOnly_getItem : readsOnly key (AsyncStorage.getItem key).
Proof.
  intros w1 w2 (Hst & Hclock & Hrej).
  unfold AsyncStorage.getItem, agreeOn, served.
  rewrite Hrej, Hst. by destruct (rejects w2 0%nat).
Qed.

Lemma readsOnly_setItem value :
  readsOnly key (AsyncStorage.setItem key value).
Proof.
  intros w1 w2 (Hst & Hclock & Hrej).
  unfold AsyncStorage.setItem, agreeOn, served.
  rewrite Hrej. destruct (rejects w2 0%nat); simpl; [done|].
  by rewrite !lookup_insert_eq.
Qed.

Lemma readsOnly_removeItem : readsOnly key (AsyncStorage.removeItem key).
Proof.
  intros w1 w2 (Hst & Hclock & Hrej).
  unfold AsyncStorage.removeItem, agreeOn, served.
  rewrite Hrej. destruct (rejects w2 0%nat); simpl; [done|].
  by rewrite !lookup_delete_eq.
Qed.
End Frame.

Create HintDb frame.
#[local] Hint Resolve writesOnly_ret writesOnly_throw writesOnly_Date_now
  writesOnly_console_error writesOnly_getItem writesOnly_setItem
  writesOnly_removeItem readsOnly_ret readsOnly_throw readsOnly_Date_now
  readsOnly_console_error readsOnly_getItem readsOnly_setItem
  readsOnly_removeItem : frame.

(** Walks through an operation along its binds, handlers and branches. *)
Ltac frame :=
  repeat first
    [ solve [eauto with frame]
    | apply writesOnly_bind | apply writesOnly_try_catch
    | apply readsOnly_bind | apply readsOnly_try_catch
    | match goal with
      | |- ∀ _, _ => intro
      | |- context [match ?x with _ => _ end] => destruct x
      end ].

Lemma noteService_frame {A} (op : NoteOp A) :
  writesOnly NoteService.STORAGE_KEY (noteService op)
  ∧ readsOnly NoteService.STORAGE_KEY (noteService op).
Proof.
  assert (writesOnly NoteService.STORAGE_KEY NoteService.getNotes
          ∧ readsOnly NoteService.STORAGE_KEY NoteService.getNotes) as [Wg Rg].
  { split; unfold NoteService.getNotes, NoteService.JSON_parse; frame. }
  assert (∀ l, writesOnly NoteService.STORAGE_KEY (NoteService.saveNotes l)
               ∧ readsOnly NoteService.STORAGE_KEY (NoteService.saveNotes l))
    as Hsave.
  { intros l. split; unfold NoteService.saveNotes; frame. }
  assert (∀ id data,
            writesOnly NoteService.STORAGE_KEY (NoteService.updateNote id data)
            ∧ readsOnly NoteService.STORAGE_KEY (NoteService.updateNote id data))
    as Hupdate.
  { intros id data.
    split; unfold NoteService.updateNote, new_Date_toISOString; frame;
      apply Hsave. }
  destruct op; simpl; split;
    unfold NoteService.getNoteById, NoteService.createNote,
      NoteService.deleteNote, NoteService.togglePinNote,
      NoteService.getPinnedNotes, NoteService.getNotesByCategory,
      NoteService.searchNotes, NoteService.getNotesStats,
      NoteService.getCategories, NoteService.getAllTags,
      NoteService.clearAllNotes, new_Date_toISOString;
    frame; try apply Hsave; apply Hupdate.
Qed.

Lemma todoService_frame {A} (op : TodoOp A) :
  writesOnly TodoService.STORAGE_KEY (todoService op)
  ∧ readsOnly TodoService.STORAGE_KEY (todoService op).
Proof.
  assert (writesOnly TodoService.STORAGE_KEY TodoService.getTodos
          ∧ readsOnly TodoService.STORAGE_KEY TodoService.getTodos) as [Wg Rg].
  { split; unfold TodoService.getTodos, TodoService.JSON_parse; frame. }
  assert (∀ l, writesOnly TodoService.STORAGE_KEY (TodoService.saveTodos l)
               ∧ readsOnly TodoService.STORAGE_KEY (TodoService.saveTodos l))
    as Hsave.
  { intros l. split; unfold TodoService.saveTodos; frame. }
  assert (∀ id data,
            writesOnly TodoService.STORAGE_KEY (TodoService.updateTodo id data)
            ∧ readsOnly TodoService.STORAGE_KEY (TodoService.updateTodo id data))
    as Hupdate.
  { intros id data.
    split; unfold TodoService.updateTodo, new_Date_toISOString; frame;
      apply Hsave. }
  destruct op; simpl; split;
    unfold TodoService.getTodoById, TodoService.createTodo,
      TodoService.deleteTodo, TodoService.toggleTodo,
      TodoService.getTodosByStatus, TodoService.getTodosByPriority,
      TodoService.searchTodos, TodoService.clearAllTodos,
      TodoService.getTodosStats,
      new_Date_toISOString;
    frame; try apply Hsave; apply Hupdate.
Qed.

(** C7. Every operation of the note service writes no storage entry other
    than the one under "@notes", and its result and the entry it leaves
    depend on nothing but that entry, the clock and the availability of
    the storage; likewise the todo service and "@todos".  Hence a note
    operation leaves the stored todos as they are, and a todo operation the
    stored notes. *)
Theorem services_keep_to_their_own_key :
  (∀ A (op : NoteOp A),
      writesOnly "@notes" (noteService op) ∧ readsOnly "@notes" (noteService op))
  ∧ (∀ A (op : TodoOp A),
        writesOnly "@todos" (todoService op)
        ∧ readsOnly "@todos" (todoService op))
  ∧ (∀ A (op : NoteOp A) w, storedTodos (noteService op w).2 = storedTodos w)
  ∧ (∀ A (op : TodoOp A) w, storedNotes (todoService op w).2 = storedNotes w).
Proof.
  split; [intros A op; apply noteService_frame|].
  split; [intros A op; apply todoService_frame|].
  split; intros A op w.
  - destruct (noteService_frame op) as [Hw _]. unfold storedTodos.
    by rewrite (Hw w TodoService.STORAGE_KEY).
  - destruct (todoService_frame op) as [Hw _]. unfold storedNotes.
    by rewrite (Hw w NoteService.STORAGE_KEY).
Qed.

(** ** The timestamp invariant *)

(** An action that leaves the storage as it is. *)
Lemma bind_keeps_storage {A B} (m : Async A) (f : A → Async B) :
  (∀ w, storage (m w).2 = storage w) →
  (∀ a w, storage (f a w).2 = storage w) →
  ∀ w, storage (bind m f w).2 = storage w.
Proof.
  intros Hm Hf w. unfold bind. specialize (Hm w).
  destruct (m w) as [[a|e] w']; simpl in *; [|done]. by rewrite Hf.
Qed.

Lemma getNotes_keeps_storage w : storage (NoteService.getNotes w).2 = storage w.
Proof. destruct (getNotes_spec w) as [log ->]. done. Qed.

Lemma loadedNotes_stored w note : note ∈ loadedNotes w → note ∈ storedNotes w.
Proof.
  unfold loadedNotes. destruct (rejects w 0%nat).
  - by intros ?%elem_of_nil.
  - by rewrite Array_sort_Permutation.
Qed.

Lemma createNote_stamped data w note :
  note ∈ storedNotes (NoteService.createNote data w).2 → stamped w note.
Proof.
  destruct (createNote_spec data w) as [log ->].
  destruct (rejects w 1%nat); simpl; [by left|].
  rewrite storedNotes_later, lookup_insert_eq.
  intros [Hin | ->%list_elem_of_singleton]%elem_of_app.
  - left. by apply loadedNotes_stored.
  - right. by exists 2%nat.
Qed.

Lemma updateNote_stamped id data w note :
  note ∈ storedNotes (NoteService.updateNote id data w).2 → stamped w note.
Proof.
  destruct (list_find (λ note, Note.id note = id) (loadedNotes w))
    as [[index old]|] eqn:Hfind.
  - destruct (updateNote_found id data w index old Hfind) as [log ->].
    destruct (rejects w 1%nat); simpl; [by left|].
    rewrite storedNotes_later, lookup_insert_eq.
    intros (i & Hi)%list_elem_of_lookup_1.
    destruct (decide (i = index)) as [->|Hne].
    + apply list_lookup_insert_Some in Hi as [(_ & <- & _)|[? _]]; [|done].
      right. by exists 0%nat.
    + rewrite list_lookup_insert_ne in Hi by done.
      left. by eapply loadedNotes_stored, list_elem_of_lookup_2.
  - destruct (updateNote_missing id data w Hfind) as [log ->]. by left.
Qed.

Lemma deleteNote_stamped id w note :
  note ∈ storedNotes (NoteService.deleteNote id w).2 → stamped w note.
Proof.
  destruct (deleteNote_spec id w) as [log ->].
  destruct (rejects w 1%nat); simpl; [by left|].
  rewrite storedNotes_later, lookup_insert_eq.
  intros [_ Hin]%list_elem_of_filter. left. by apply loadedNotes_stored.
Qed.

Lemma togglePinNote_stamped id w note :
  note ∈ storedNotes (NoteService.togglePinNote id w).2 → stamped w note.
Proof.
  destruct (getNoteById_spec id w) as [log E].
  unfold NoteService.togglePinNote, bind. rewrite E.
  destruct (snd <$> _) as [found|]; [|by left].
  intros [Hin | [k Hk]]%updateNote_stamped; [by left|].
  right. by exists (0 + k)%nat.
Qed.

Lemma noteService_stamped {A} (op : NoteOp A) w note :
  note ∈ storedNotes (noteService op w).2 → stamped w note.
Proof.
  assert (∀ B (f : list Note.t → Async B),
            (∀ l w, storage (f l w).2 = storage w) →
            note ∈ storedNotes (bind NoteService.getNotes f w).2 →
            stamped w note) as Hread.
  { intros B f Hf. unfold storedNotes at 1.
    rewrite (bind_keeps_storage _ f getNotes_keeps_storage Hf). by left. }
  destruct op; simpl.
  - unfold storedNotes at 1. rewrite getNotes_keeps_storage. by left.
  - by apply Hread.
  - apply createNote_stamped.
  - apply updateNote_stamped.
  - apply deleteNote_stamped.
  - apply togglePinNote_stamped.
  - by apply Hread.
  - by apply Hread.
  - by apply Hread.
  - by apply Hread.
  - by apply Hread.
  - unfold NoteService.clearAllNotes, AsyncStorage.removeItem, storedNotes at 1.
    destruct (rejects w 0%nat); simpl; [by left|].
    rewrite lookup_delete_eq. by intros ?%elem_of_nil.
  - apply Hread. intros l w'.
    apply (bind_keeps_storage NoteService.getCategories).
    { apply bind_keeps_storage; [apply getNotes_keeps_storage|done]. }
    intros cs w''. apply (bind_keeps_storage NoteService.getAllTags); [|done].
    apply bind_keeps_storage; [apply getNotes_keeps_storage|done].
Qed.

(** X14. The notes stay timestamped under every operation of the note
    service as long as the clock shows a year between 0000 and 9999. *)
Lemma noteService_keeps_timestamps {A} (op : NoteOp A) w :
  (∀ k, 0 <= JSDate.YearFromTime (clock w k) <= 9999) →
  Forall timestamped (storedNotes w) →
  Forall timestamped (storedNotes (noteService op w).2).
Proof.
  intros Hclock Hstored. apply Forall_forall. intros note Hin.
  apply noteService_stamped in Hin as [Hin | [k Hk]].
  - rewrite Forall_forall in Hstored. by apply Hstored.
  - exists (clock w k). unfold NoteService.getTime. rewrite Hk.
    by apply parse_toISOString.
Qed.


(** * Further properties of the services *)

(** ** Lookup by id *)

Lemma list_find_None_ids {A} (key : A → string) id (l : list A) :
  list_find (λ x, key x = id) l = None ↔ id ∉ key <$> l.
Proof.
  rewrite list_find_None, Forall_forall, list_elem_of_fmap. split.
  - intros Hall (x & -> & Hx). by apply (Hall x).
  - intros Hnot x Hx Hid. apply Hnot. by exists x.
Qed.

(** X1. [getTodoById] and [getNoteById] leave the storage as it is and,
    when the read is delivered, return [null] exactly when no stored record
    has the id.  Otherwise [getTodoById] returns the first stored todo with
    that id, and [getNoteById] a stored note with that id. *)
Theorem getById_finds_a_stored_record w id :
  rejects w 0%nat = false →
  (∃ found w',
      TodoService.getTodoById id w = (Returned found, w')
      ∧ storage w' = storage w
      ∧ (found = None ↔ id ∉ Todo.id <$> storedTodos w)
      ∧ ∀ todo, found = Some todo →
          Todo.id todo = id
          ∧ ∃ i, storedTodos w !! i = Some todo
                 ∧ ∀ j other, storedTodos w !! j = Some other → (j < i)%nat →
                              Todo.id other ≠ id)
  ∧ (∃ found w',
        NoteService.getNoteById id w = (Returned found, w')
        ∧ storage w' = storage w
        ∧ (found = None ↔ id ∉ Note.id <$> storedNotes w)
        ∧ ∀ note, found = Some note →
            Note.id note = id ∧ note ∈ storedNotes w).
Proof.
  intros Hread. split.
  - destruct (getTodoById_spec id w) as [log E].
    assert (loadedTodos w = storedTodos w) as Hl
      by (unfold loadedTodos; by rewrite Hread).
    rewrite Hl in E. eexists _, _. split; [exact E|]. split; [done|]. split.
    + rewrite <- list_find_None_ids.
      destruct (list_find _ _) as [[i t]|]; simpl; split; congruence.
    + intros todo Hfound.
      destruct (list_find _ _) as [[i t]|] eqn:Hfind; simpl in Hfound; [|done].
      injection Hfound as ->.
      apply list_find_Some in Hfind as (Hi & Hid & Hfirst).
      split; [done|]. exists i. split; [done|].
      intros j other Hj Hlt. by apply (Hfirst j other).
  - destruct (getNoteById_spec id w) as [log E].
    eexists _, _. split; [exact E|]. split; [done|]. split.
    + destruct (list_find _ _) as [[i n]|] eqn:Hfind; simpl.
      * split; [done|]. intros Hnot. apply loadedNotes_ids in Hnot. congruence.
      * split; [|done]. intros _ Hin.
        destruct (loadedNotes_find w id Hread Hin) as (? & ? & ? & _).
        congruence.
    + intros note Hfound.
      destruct (list_find _ _) as [[i n]|] eqn:Hfind; simpl in Hfound; [|done].
      injection Hfound as ->.
      apply list_find_Some in Hfind as (Hi & Hid & _).
      split; [done|]. by eapply loadedNotes_stored, list_elem_of_lookup_2.
Qed.

Lemma getById_finds_a_stored_record_witness :
  (∃ found w', TodoService.getTodoById "11" sampleWorld = (Returned found, w')
               ∧ (found = None ↔ "11"%string ∉ Todo.id <$> storedTodos sampleWorld))
  ∧ (∃ found w', NoteService.getNoteById "404" sampleWorld = (Returned found, w')
                 ∧ (found = None
                    ↔ "404"%string ∉ Note.id <$> storedNotes sampleWorld)).
Proof.
  destruct (getById_finds_a_stored_record sampleWorld "11" eq_refl)
    as [(found & w' & E & _ & Hnone & _) _].
  destruct (getById_finds_a_stored_record sampleWorld "404" eq_refl)
    as [_ (found' & v' & F & _ & Hnone' & _)].
  split; [by exists found, w' | by exists found', v'].
Defined.


(** ** Reading back what was created *)

Lemma list_find_unique_id (id : string) (l : list Note.t) note i found :
  note ∈ l → Note.id note = id →
  (∀ other, other ∈ l → Note.id other = id → other = note) →
  list_find (λ n, Note.id n = id) l = Some (i, found) → found = note.
Proof.
  intros Hin Hid Huniq (Hi & Hfound & _)%list_find_Some.
  apply Huniq; [by eapply list_elem_of_lookup_2|done].
Qed.

(** X2. A todo or note that was created is read back: after [createTodo]
    the next [getTodos] returns the stored todos followed by the new one,
    after [createNote] the next [getNotes] returns the stored notes and the
    new one, and unless a stored record already had the new id the lookup
    of that id returns the new record. *)
Theorem created_record_is_read_back w :
  rejects w 0%nat = false → rejects w 1%nat = false →
  rejects w 2%nat = false →
  (∀ data, ∃ todo w1 w2 found w3,
      TodoService.createTodo data w = (Returned todo, w1)
      ∧ TodoService.getTodos w1 = (Returned (storedTodos w ++ [todo]), w2)
      ∧ TodoService.getTodoById (Todo.id todo) w1 = (Returned found, w3)
      ∧ (Todo.id todo ∉ Todo.id <$> storedTodos w → found = Some todo))
  ∧ (∀ data, ∃ note w1 notes w2 found w3,
        NoteService.createNote data w = (Returned note, w1)
        ∧ NoteService.getNotes w1 = (Returned notes, w2)
        ∧ notes ≡ₚ storedNotes w ++ [note]
        ∧ NoteService.getNoteById (Note.id note) w1 = (Returned found, w3)
        ∧ (Note.id note ∉ Note.id <$> storedNotes w → found = Some note)).
Proof.
  intros Hread Hsave Hread'. split; intros data.
  - destruct (createTodo_spec data w) as [log E]. rewrite Hsave in E.
    simpl in E. unfold loadedTodos in E. rewrite Hread in E.
    match type of E with _ = (_, ?w1) =>
      destruct (getTodos_spec w1) as [log2 E2];
      destruct (getTodoById_spec (Todo.id (createdTodo data (clock w 0%nat)
                  (clock w 1%nat) (clock w 2%nat))) w1) as [log3 E3];
      assert (loadedTodos w1
              = storedTodos w ++ [createdTodo data (clock w 0%nat)
                                    (clock w 1%nat) (clock w 2%nat)]) as Hl
    end.
    { unfold loadedTodos. simpl. rewrite Hread'.
      by rewrite storedTodos_later, lookup_insert_eq. }
    rewrite Hl in E2, E3.
    eexists _, _, _, _, _. split; [exact E|]. split; [exact E2|].
    split; [exact E3|]. intros Hfresh.
    apply list_find_None_ids in Hfresh.
    rewrite (list_find_app_r _ _ _ Hfresh). simpl.
    by rewrite decide_True.
  - destruct (createNote_spec data w) as [log E]. rewrite Hsave in E.
    simpl in E. unfold loadedNotes in E. rewrite Hread in E.
    set (note := createdNote data (clock w 0%nat) (clock w 1%nat)
                             (clock w 2%nat)) in *.
    match type of E with _ = (_, ?w1) =>
      destruct (getNotes_spec w1) as [log2 E2];
      destruct (getNoteById_spec (Note.id note) w1) as [log3 E3];
      assert (loadedNotes w1
              = Array_sort NoteService.compareNotes
                  (Array_sort NoteService.compareNotes (storedNotes w)
                   ++ [note])) as Hl
    end.
    { unfold loadedNotes. simpl. rewrite Hread'.
      by rewrite storedNotes_later, lookup_insert_eq. }
    rewrite Hl in E2, E3.
    assert (Array_sort NoteService.compareNotes
              (Array_sort NoteService.compareNotes (storedNotes w) ++ [note])
            ≡ₚ storedNotes w ++ [note]) as Hperm
      by (by rewrite !Array_sort_Permutation).
    eexists _, _, _, _, _, _. split; [exact E|]. split; [exact E2|].
    split; [exact Hperm|]. split; [exact E3|]. intros Hfresh.
    destruct (list_find _ _) as [[i found]|] eqn:Hfind; simpl.
    + f_equal. eapply (list_find_unique_id (Note.id note)); [| |..|exact Hfind].
      * rewrite Hperm. apply elem_of_app. right. by apply list_elem_of_singleton.
      * done.
      * intros other Hother Hid. rewrite Hperm in Hother.
        apply elem_of_app in Hother as [Hstored|Hnew%list_elem_of_singleton];
          [|done].
        exfalso. apply Hfresh, list_elem_of_fmap. by exists other.
    + exfalso. apply list_find_None_ids in Hfind. apply Hfind.
      apply list_elem_of_fmap. exists note. split; [done|].
      rewrite Hperm. apply elem_of_app. right. by apply list_elem_of_singleton.
Qed.

Lemma created_record_is_read_back_witness :
  ∃ todo w1 w2,
    TodoService.createTodo (CreateTodoDto.mk "ship" None None None) sampleWorld
    = (Returned todo, w1)
    ∧ TodoService.getTodos w1 = (Returned (sampleTodos ++ [todo]), w2).
Proof.
  destruct (created_record_is_read_back sampleWorld eq_refl eq_refl eq_refl)
    as [Htodo _].
  destruct (Htodo (CreateTodoDto.mk "ship" None None None))
    as (todo & w1 & w2 & _ & _ & E & E2 & _).
  by exists todo, w1, w2.
Defined.

(** ** A rejected write *)

Lemma saveTodos_rejected todos w :
  rejects w 0%nat = true →
  TodoService.saveTodos todos w
  = (Thrown (Error "Failed to save todos"),
     later w 1 0 (storage w) [("Error saving todos:"%string, StorageError)]).
Proof. intros Hrej. by rewrite saveTodos_spec, Hrej. Qed.

Lemma saveNotes_rejected notes w :
  rejects w 0%nat = true →
  NoteService.saveNotes notes w
  = (Thrown (Error "Failed to save notes"),
     later w 1 0 (storage w) [("Error saving notes:"%string, StorageError)]).
Proof. intros Hrej. by rewrite saveNotes_spec, Hrej. Qed.

(** X3. When AsyncStorage rejects the write, a creation, a deletion and an
    update of an existing record throw the error "Failed to save todos"
    (or "... notes") in place of the rejection, print the line "Error
    saving ..." last on the console, and leave the storage as it was. *)
Theorem rejected_write_is_reported_and_changes_nothing w :
  rejects w 1%nat = true →
  (∀ data, failsToSave "todos" w (TodoService.createTodo data w))
  ∧ (∀ id, failsToSave "todos" w (TodoService.deleteTodo id w))
  ∧ (∀ id data, rejects w 0%nat = false → id ∈ Todo.id <$> storedTodos w →
                failsToSave "todos" w (TodoService.updateTodo id data w))
  ∧ (∀ data, failsToSave "notes" w (NoteService.createNote data w))
  ∧ (∀ id, failsToSave "notes" w (NoteService.deleteNote id w))
  ∧ (∀ id data, rejects w 0%nat = false → id ∈ Note.id <$> storedNotes w →
                failsToSave "notes" w (NoteService.updateNote id data w)).
Proof.
  intros Hrej. split_and!; intros; unfold failsToSave.
  - destruct (getTodos_spec w) as [log E].
    unfold TodoService.createTodo, bind, new_Date_toISOString, bind, Date_now, ret.
    rewrite E. simpl. rewrite saveTodos_rejected by done. simpl.
    split; [done|]. split; [done|]. by rewrite ?app_assoc, last_snoc.
  - destruct (getTodos_spec w) as [log E].
    unfold TodoService.deleteTodo, bind. rewrite E.
    rewrite saveTodos_rejected by done. simpl.
    split; [done|]. split; [done|]. by rewrite ?app_assoc, last_snoc.
  - destruct (loadedTodos_find w id) as (index & old & Hfind & _); [done..|].
    destruct (getTodos_spec w) as [log E].
    unfold TodoService.updateTodo, bind, new_Date_toISOString, bind, Date_now, ret.
    rewrite E, Hfind. simpl. rewrite saveTodos_rejected by done. simpl.
    split; [done|]. split; [done|]. by rewrite ?app_assoc, last_snoc.
  - destruct (getNotes_spec w) as [log E].
    unfold NoteService.createNote, bind, new_Date_toISOString, bind, Date_now, ret.
    rewrite E. simpl. rewrite saveNotes_rejected by done. simpl.
    split; [done|]. split; [done|]. by rewrite ?app_assoc, last_snoc.
  - destruct (getNotes_spec w) as [log E].
    unfold NoteService.deleteNote, bind. rewrite E.
    rewrite saveNotes_rejected by done. simpl.
    split; [done|]. split; [done|]. by rewrite ?app_assoc, last_snoc.
  - destruct (loadedNotes_find w id) as (index & old & Hfind & _); [done..|].
    destruct (getNotes_spec w) as [log E].
    unfold NoteService.updateNote, bind, new_Date_toISOString, bind, Date_now, ret.
    rewrite E, Hfind. simpl. rewrite saveNotes_rejected by done. simpl.
    split; [done|]. split; [done|]. by rewrite ?app_assoc, last_snoc.
Qed.

Lemma rejected_write_is_reported_and_changes_nothing_witness :
  failsToSave "todos" brokenWriteWorld
    (TodoService.deleteTodo "11" brokenWriteWorld)
  ∧ failsToSave "notes" brokenWriteWorld
      (NoteService.updateNote "2" UpdateNoteDto.empty brokenWriteWorld).
Proof.
  pose proof (rejected_write_is_reported_and_changes_nothing
                brokenWriteWorld eq_refl)
    as (_ & Hdel & _ & _ & _ & Hupd).
  split; [apply Hdel|].
  apply Hupd; [reflexivity|]. vm_compute. repeat constructor.
Defined.


(** ** Clearing a collection *)

(** X4. [clearAllTodos] and [clearAllNotes] remove the entry of their
    collection and nothing else, so that the next read returns the empty
    list whatever the storage does; they print nothing.  When AsyncStorage
    rejects the removal, the rejection itself is thrown (it is not caught
    and not replaced, unlike a rejected save) and the storage is as it
    was. *)
Theorem clearAll_removes_the_entry w :
  (∃ w', TodoService.clearAllTodos w
         = (if rejects w 0%nat then Thrown StorageError else Returned (), w')
         ∧ storage w'
           = (if rejects w 0%nat then storage w
              else delete "@todos" (storage w))
         ∧ console w' = console w
         ∧ (rejects w 0%nat = false →
            ∃ w'', TodoService.getTodos w' = (Returned [], w'')))
  ∧ (∃ w', NoteService.clearAllNotes w
           = (if rejects w 0%nat then Thrown StorageError else Returned (), w')
           ∧ storage w'
             = (if rejects w 0%nat then storage w
                else delete "@notes" (storage w))
           ∧ console w' = console w
           ∧ (rejects w 0%nat = false →
              ∃ w'', NoteService.getNotes w' = (Returned [], w''))).
Proof.
  split.
  - unfold TodoService.clearAllTodos, AsyncStorage.removeItem.
    destruct (rejects w 0%nat) eqn:Hrej; eexists; (split; [reflexivity|]);
      (split; [reflexivity|]); (split; [reflexivity|]); [done|].
    intros _.
    match goal with |- ∃ _, TodoService.getTodos ?w1 = _ =>
      destruct (getTodos_spec w1) as [log E];
      assert (loadedTodos w1 = []) as Hl end.
    { unfold loadedTodos, storedTodos. simpl.
      rewrite lookup_delete_eq. by destruct (rejects w 1%nat). }
    rewrite Hl in E. by eexists.
  - unfold NoteService.clearAllNotes, AsyncStorage.removeItem.
    destruct (rejects w 0%nat) eqn:Hrej; eexists; (split; [reflexivity|]);
      (split; [reflexivity|]); (split; [reflexivity|]); [done|].
    intros _.
    match goal with |- ∃ _, NoteService.getNotes ?w1 = _ =>
      destruct (getNotes_spec w1) as [log E];
      assert (loadedNotes w1 = []) as Hl end.
    { unfold loadedNotes, storedNotes. simpl.
      rewrite lookup_delete_eq. by destruct (rejects w 1%nat). }
    rewrite Hl in E. by eexists.
Qed.

Lemma clearAll_removes_the_entry_witness :
  ∃ w' w'', TodoService.clearAllTodos sampleWorld = (Returned (), w')
            ∧ TodoService.getTodos w' = (Returned [], w'')
            ∧ storedNotes w' = sampleNotes.
Proof.
  destruct (clearAll_removes_the_entry sampleWorld)
    as [(w' & E & Hst & _ & Hget) _].
  destruct (Hget eq_refl) as [w'' E'].
  exists w', w''. split; [exact E|]. split; [exact E'|].
  unfold storedNotes. rewrite Hst. vm_compute. reflexivity.
Defined.

(** ** Toggling *)

Lemma list_find_insert_same {A} (P : A → Prop) `{∀ x, Decision (P x)}
    (l : list A) i x y :
  list_find P l = Some (i, x) → P y → list_find P (<[i := y]> l) = Some (i, y).
Proof.
  intros (Hi & Hx & Hfirst)%list_find_Some Hy. apply list_find_Some.
  split; [apply list_lookup_insert_eq; by eapply lookup_lt_Some|].
  split; [done|]. intros j z Hj Hlt.
  rewrite list_lookup_insert_ne in Hj by lia. by apply (Hfirst j z).
Qed.

Lemma toggleTodo_found w id index old :
  rejects w 0%nat = false → rejects w 1%nat = false →
  rejects w 2%nat = false →
  list_find (λ todo, Todo.id todo = id) (storedTodos w) = Some (index, old) →
  ∃ log,
    TodoService.toggleTodo id w
    = (Returned
         (Some (TodoService.spread old
                  (UpdateTodoDto.mk None None None None
                                    (Some (negb (Todo.completed old))))
                  (JSDate.toISOString (clock w 0%nat)))),
       later w 3 1
         (<[TodoService.STORAGE_KEY :=
              JsonTodos
                (<[index := TodoService.spread old
                              (UpdateTodoDto.mk None None None None
                                 (Some (negb (Todo.completed old))))
                              (JSDate.toISOString (clock w 0%nat))]>
                   (storedTodos w))]> (storage w)) log).
Proof.
  intros Hread Hread' Hsave Hfind.
  destruct (getTodoById_spec id w) as [log E].
  assert (loadedTodos w = storedTodos w) as Hl
    by (unfold loadedTodos; by rewrite Hread).
  rewrite Hl, Hfind in E. unfold TodoService.toggleTodo, bind. rewrite E.
  simpl.
  match goal with |- ∃ _, TodoService.updateTodo _ ?data ?w1 = _ =>
    destruct (updateTodo_found id data w1 index old) as [log' E'] end.
  { unfold loadedTodos. simpl. by rewrite Hread'. }
  rewrite E'. simpl. rewrite Hsave.
  unfold loadedTodos. simpl. rewrite Hread'.
  exists (log ++ log'). unfold later. simpl. by rewrite app_assoc.
Qed.

(** X5. [toggleTodo] on the id of a stored todo returns and stores, in the
    place of the first todo with that id, that todo with [completed]
    negated and [updatedAt] set to the clock read of the call; every other
    field and every other todo stay as they are.  A second toggle gives the
    todo its original [completed] back. *)
Theorem toggleTodo_flips_completed w id :
  rejects w 0%nat = false → rejects w 1%nat = false →
  rejects w 2%nat = false → id ∈ Todo.id <$> storedTodos w →
  ∃ index old toggled w',
    storedTodos w !! index = Some old ∧ Todo.id old = id
    ∧ TodoService.toggleTodo id w = (Returned (Some toggled), w')
    ∧ storedTodos w' = <[index := toggled]> (storedTodos w)
    ∧ toggled = Todo.mk (Todo.id old) (Todo.title old) (Todo.description old)
                        (negb (Todo.completed old)) (Todo.priority old)
                        (Todo.dueDate old) (Todo.createdAt old)
                        (JSDate.toISOString (clock w 0%nat))
    ∧ (rejects w 3%nat = false → rejects w 4%nat = false →
       rejects w 5%nat = false →
       ∃ again w'',
         TodoService.toggleTodo id w' = (Returned (Some again), w'')
         ∧ storedTodos w'' = <[index := again]> (storedTodos w)
         ∧ Todo.completed again = Todo.completed old).
Proof.
  intros Hr0 Hr1 Hr2 Hid.
  destruct (loadedTodos_find w id Hr0 Hid)
    as (index & old & Hfind & Hlook & Hold).
  assert (loadedTodos w = storedTodos w) as Hl
    by (unfold loadedTodos; by rewrite Hr0).
  rewrite Hl in Hfind.
  destruct (toggleTodo_found w id index old Hr0 Hr1 Hr2 Hfind) as [log E].
  eexists index, old, _, _. split; [done|]. split; [done|].
  split; [exact E|].
  split; [by rewrite storedTodos_later, lookup_insert_eq|].
  split; [done|]. intros Hr3 Hr4 Hr5.
  match type of E with _ = (Returned (Some ?t), ?w1) =>
    destruct (toggleTodo_found w1 id index t) as [log' E'];
    [done..| |] end.
  { rewrite storedTodos_later, lookup_insert_eq.
    eapply list_find_insert_same; [exact Hfind|done]. }
  eexists _, _. split; [exact E'|]. split.
  - rewrite !storedTodos_later, !lookup_insert_eq.
    by rewrite list_insert_insert_eq.
  - simpl. by destruct (Todo.completed old).
Qed.

Lemma toggleTodo_flips_completed_witness :
  ∃ toggled w' again w'',
    TodoService.toggleTodo "11" sampleWorld = (Returned (Some toggled), w')
    ∧ TodoService.toggleTodo "11" w' = (Returned (Some again), w'')
    ∧ Todo.completed again = negb (Todo.completed toggled).
Proof.
  destruct (toggleTodo_flips_completed sampleWorld "11" eq_refl eq_refl eq_refl)
    as (index & old & toggled & w' & Hold & _ & E & _ & Htoggled & Hagain).
  { vm_compute. repeat constructor. }
  destruct (Hagain eq_refl eq_refl eq_refl) as (again & w'' & E' & _ & Hc).
  exists toggled, w', again, w''. split; [exact E|]. split; [exact E'|].
  rewrite Hc, Htoggled. simpl. by destruct (Todo.completed old).
Defined.


Lemma togglePinNote_found w id index old :
  rejects w 0%nat = false → rejects w 1%nat = false →
  rejects w 2%nat = false →
  list_find (λ note, Note.id note = id) (loadedNotes w) = Some (index, old) →
  ∃ log,
    NoteService.togglePinNote id w
    = (Returned
         (Some (NoteService.spread old
                  (UpdateNoteDto.mk None None None None
                                    (Some (negb (Note.isPinned old))))
                  (JSDate.toISOString (clock w 0%nat)))),
       later w 3 1
         (<[NoteService.STORAGE_KEY :=
              JsonNotes
                (<[index := NoteService.spread old
                              (UpdateNoteDto.mk None None None None
                                 (Some (negb (Note.isPinned old))))
                              (JSDate.toISOString (clock w 0%nat))]>
                   (loadedNotes w))]> (storage w)) log).
Proof.
  intros Hread Hread' Hsave Hfind.
  destruct (getNoteById_spec id w) as [log E].
  rewrite Hfind in E. unfold NoteService.togglePinNote, bind. rewrite E.
  simpl.
  assert (∀ log, loadedNotes (later w 1 0 (storage w) log) = loadedNotes w)
    as Hl.
  { intros l. unfold loadedNotes. simpl. by rewrite Hread, Hread'. }
  match goal with |- ∃ _, NoteService.updateNote _ ?data ?w1 = _ =>
    destruct (updateNote_found id data w1 index old) as [log' E'] end.
  { by rewrite Hl. }
  rewrite E'. simpl. rewrite Hsave, Hl.
  exists (log ++ log'). unfold later. simpl. by rewrite app_assoc.
Qed.

(** X6. [togglePinNote] on the id of a stored note returns that note with
    [isPinned] negated and [updatedAt] set to the clock read of the call,
    every other field as it was, and stores it in the place of the note
    in the collection as [getNotes] ordered it. *)
Theorem togglePinNote_flips_isPinned w id :
  rejects w 0%nat = false → rejects w 1%nat = false →
  rejects w 2%nat = false → id ∈ Note.id <$> storedNotes w →
  ∃ index old toggled w',
    old ∈ storedNotes w ∧ Note.id old = id
    ∧ Array_sort NoteService.compareNotes (storedNotes w) !! index = Some old
    ∧ NoteService.togglePinNote id w = (Returned (Some toggled), w')
    ∧ storedNotes w'
      = <[index := toggled]>
          (Array_sort NoteService.compareNotes (storedNotes w))
    ∧ toggled = Note.mk (Note.id old) (Note.title old) (Note.content old)
                        (Note.category old) (Note.tags old)
                        (negb (Note.isPinned old)) (Note.createdAt old)
                        (JSDate.toISOString (clock w 0%nat)).
Proof.
  intros Hr0 Hr1 Hr2 Hid.
  destruct (loadedNotes_find w id Hr0 Hid)
    as (index & old & Hfind & Hin & Hold).
  destruct (togglePinNote_found w id index old Hr0 Hr1 Hr2 Hfind) as [log E].
  pose proof Hfind as (Hlook & _)%list_find_Some.
  assert (loadedNotes w = Array_sort NoteService.compareNotes (storedNotes w))
    as Hl by (unfold loadedNotes; by rewrite Hr0).
  rewrite Hl in E, Hlook.
  eexists index, old, _, _. split; [done|]. split; [done|]. split; [done|].
  split; [exact E|].
  split; [by rewrite storedNotes_later, lookup_insert_eq|done].
Qed.

Lemma togglePinNote_flips_isPinned_witness :
  ∃ old toggled w',
    NoteService.togglePinNote "2" sampleWorld = (Returned (Some toggled), w')
    ∧ Note.id old = "2"%string
    ∧ Note.isPinned toggled = negb (Note.isPinned old).
Proof.
  destruct (togglePinNote_flips_isPinned sampleWorld "2" eq_refl eq_refl eq_refl)
    as (index & old & toggled & w' & _ & Hold & _ & E & _ & Htoggled).
  { vm_compute. repeat constructor. }
  exists old, toggled, w'. split; [exact E|]. split; [exact Hold|].
  by rewrite Htoggled.
Defined.

(** ** Views of the collection *)

Lemma pinnedFirst_split (l : list Note.t) :
  StronglySorted pinnedFirst l →
  l = filter (λ note, Note.isPinned note = true) l
      ++ filter (λ note, Note.isPinned note = false) l.
Proof.
  induction 1 as [|x l Hl IH Hx]; [done|]. rewrite !filter_cons.
  destruct (Note.isPinned x) eqn:Hp.
  - rewrite decide_True, decide_False by done. simpl. by rewrite <- IH.
  - rewrite decide_False, decide_True by done.
    assert (Forall (λ note, Note.isPinned note = false) l) as Hall.
    { eapply Forall_impl; [exact Hx|]. intros y Hy. unfold pinnedFirst in Hy.
      destruct (Note.isPinned y); [|done]. rewrite Hy in Hp; done. }
    assert (filter (λ note, Note.isPinned note = true) l = []) as ->.
    { clear -Hall. induction Hall as [|y l Hy _ IH]; [done|].
      rewrite filter_cons_False; [done|]. by rewrite Hy. }
    simpl. f_equal.
    clear -Hall. induction Hall as [|y l Hy _ IH]; [done|].
    by rewrite filter_cons_True, <- IH.
Qed.

(** X7. The notes that [getPinnedNotes] returns are the front part of what
    [getNotes] returns: the list of all notes is the pinned notes followed
    by notes that are all unpinned. *)
Theorem getPinnedNotes_is_the_front_of_getNotes w :
  ∃ pinned rest w1 w2,
    NoteService.getPinnedNotes w = (Returned pinned, w1)
    ∧ NoteService.getNotes w = (Returned (pinned ++ rest), w2)
    ∧ Forall (λ note, Note.isPinned note = true) pinned
    ∧ Forall (λ note, Note.isPinned note = false) rest
    ∧ storage w1 = storage w.
Proof.
  destruct (getNotes_spec w) as [log E].
  unfold NoteService.getPinnedNotes, bind. rewrite E. simpl.
  eexists _, (filter (λ note, Note.isPinned note = false) (loadedNotes w)), _, _.
  split; [reflexivity|]. split.
  - do 2 f_equal. apply pinnedFirst_split.
    unfold loadedNotes. destruct (rejects w 0%nat); [constructor|].
    apply getNotes_sort_pinnedFirst.
  - split; [|split; [|done]]; apply Forall_forall;
      by intros note [? _]%list_elem_of_filter.
Qed.

(** X8. The two status views and the three priority views of the todo
    service each split what [getTodos] returns: every todo is in exactly
    one view of each kind, in the order of the collection. *)
Theorem todo_views_split_the_collection w :
  ∃ todos w0 finished w1 active w2 lows w3 mediums w4 highs w5,
    TodoService.getTodos w = (Returned todos, w0)
    ∧ TodoService.getTodosByStatus true w = (Returned finished, w1)
    ∧ TodoService.getTodosByStatus false w = (Returned active, w2)
    ∧ TodoService.getTodosByPriority low w = (Returned lows, w3)
    ∧ TodoService.getTodosByPriority medium w = (Returned mediums, w4)
    ∧ TodoService.getTodosByPriority high w = (Returned highs, w5)
    ∧ finished ++ active ≡ₚ todos
    ∧ lows ++ mediums ++ highs ≡ₚ todos
    ∧ Forall (λ view, sublist view todos) [finished; active; lows; mediums; highs]
    ∧ (∀ t, t ∈ finished → t ∉ active)
    ∧ (∀ t, t ∈ lows → (t ∉ mediums) ∧ (t ∉ highs))
    ∧ (∀ t, t ∈ mediums → t ∉ highs).
Proof.
  destruct (getTodos_spec w) as [log E].
  unfold TodoService.getTodosByStatus, TodoService.getTodosByPriority, bind.
  rewrite E. simpl. eexists _, _, _, _, _, _, _, _, _, _, _, _.
  do 6 (split; [reflexivity|]).
  generalize (loadedTodos w). intros l. split_and!.
  - induction l as [|t l IH]; [done|]. rewrite !filter_cons.
    destruct (Todo.completed t); repeat case_decide; try done; simpl.
    + by rewrite IH.
    + by rewrite <- Permutation_middle, IH.
  - induction l as [|t l IH]; [done|]. rewrite !filter_cons.
    destruct (Todo.priority t); repeat case_decide; try done; simpl.
    + by rewrite IH.
    + by rewrite <- Permutation_middle, IH.
    + rewrite app_assoc, <- Permutation_middle, <- app_assoc. by rewrite IH.
  - repeat constructor; apply sublist_filter.
  - intros t [Hd _]%list_elem_of_filter [Ha _]%list_elem_of_filter. congruence.
  - intros t [Hl _]%list_elem_of_filter.
    split; intros [Hm _]%list_elem_of_filter; congruence.
  - intros t [Hm _]%list_elem_of_filter [Hh _]%list_elem_of_filter. congruence.
Qed.


(** ** Categories and tags *)

Lemma elem_of_uniqueFrom seen l x :
  x ∈ uniqueFrom seen l ↔ x ∈ l ∧ x ∉ seen.
Proof.
  revert seen. induction l as [|y l IH]; intros seen; simpl.
  - split; [by intros ?%elem_of_nil | by intros [?%elem_of_nil _]].
  - destruct (decide (y ∈ seen)) as [Hy|Hy].
    + rewrite IH, elem_of_cons. split.
      * intros [Hx Hseen]. split; [by right|done].
      * intros [[->|Hx] Hseen]; [done|by split].
    + rewrite !elem_of_cons, IH, not_elem_of_cons. split.
      * intros [->|(Hx & Hne & Hseen)]; [by split; [left|]|].
        split; [by right|done].
      * intros [[->|Hx] Hseen]; [by left|].
        destruct (decide (x = y)) as [->|Hne]; [by left|by right].
Qed.

Lemma NoDup_uniqueFrom seen l : NoDup (uniqueFrom seen l).
Proof.
  revert seen. induction l as [|y l IH]; intros seen; simpl; [constructor|].
  destruct (decide (y ∈ seen)); [apply IH|].
  constructor; [|apply IH]. rewrite elem_of_uniqueFrom, not_elem_of_cons.
  by intros (_ & Hne & _).
Qed.

Lemma elem_of_Array_from_Set l x : x ∈ Array_from_Set l ↔ x ∈ l.
Proof.
  unfold Array_from_Set. rewrite elem_of_uniqueFrom. split; [by intros [? _]|].
  intros Hx. split; [done|]. by intros ?%elem_of_nil.
Qed.

Lemma elem_of_loadedNotes w note :
  rejects w 0%nat = false → note ∈ loadedNotes w ↔ note ∈ storedNotes w.
Proof.
  intros Hread. unfold loadedNotes. rewrite Hread.
  by rewrite Array_sort_Permutation.
Qed.

Lemma getCategories_spec w :
  ∃ log cs,
    NoteService.getCategories w
    = (Returned cs, later w 1 0 (storage w) log)
    ∧ NoDup cs
    ∧ ∀ c, c ∈ cs ↔ c ≠ EmptyString
                     ∧ ∃ note, note ∈ loadedNotes w
                               ∧ Note.category note = Some c.
Proof.
  destruct (getNotes_spec w) as [log E].
  unfold NoteService.getCategories, bind. rewrite E. simpl.
  eexists log, _. split; [reflexivity|].
  split; [apply NoDup_uniqueFrom|]. intros c.
  rewrite elem_of_Array_from_Set, list_elem_of_omap. split.
  - intros (note & Hin & Hc). destruct (Note.category note) as [[|a s]|] eqn:Hcat;
      try discriminate. injection Hc as <-. split; [done|]. by exists note.
  - intros (Hne & note & Hin & Hc). exists note. split; [done|].
    rewrite Hc. by destruct c.
Qed.

Lemma getAllTags_spec w :
  ∃ log tags,
    NoteService.getAllTags w
    = (Returned tags, later w 1 0 (storage w) log)
    ∧ NoDup tags
    ∧ ∀ tag, tag ∈ tags ↔ ∃ note ts, note ∈ loadedNotes w
                                     ∧ Note.tags note = Some ts ∧ tag ∈ ts.
Proof.
  destruct (getNotes_spec w) as [log E].
  unfold NoteService.getAllTags, bind. rewrite E. simpl.
  eexists log, _. split; [reflexivity|].
  split; [apply NoDup_uniqueFrom|]. intros tag.
  rewrite elem_of_Array_from_Set, list_elem_of_bind. split.
  - intros (note & Htag & Hin).
    destruct (Note.tags note) as [ts|] eqn:Hts; simpl in Htag.
    + by exists note, ts.
    + by apply elem_of_nil in Htag.
  - intros (note & ts & Hin & Hts & Htag). exists note. rewrite Hts. done.
Qed.

(** X9. [getCategories] returns every category of a stored note except
    the empty string, each one once; [getAllTags] returns every tag of a
    stored note, each one once.  Neither changes the storage. *)
Theorem categories_and_tags_are_listed_once w :
  rejects w 0%nat = false →
  (∃ categories w',
      NoteService.getCategories w = (Returned categories, w')
      ∧ storage w' = storage w
      ∧ NoDup categories
      ∧ ∀ c, c ∈ categories
             ↔ c ≠ EmptyString
               ∧ ∃ note, note ∈ storedNotes w ∧ Note.category note = Some c)
  ∧ (∃ tags w',
        NoteService.getAllTags w = (Returned tags, w')
        ∧ storage w' = storage w
        ∧ NoDup tags
        ∧ ∀ tag, tag ∈ tags
                 ↔ ∃ note ts, note ∈ storedNotes w
                              ∧ Note.tags note = Some ts ∧ tag ∈ ts).
Proof.
  intros Hread. split.
  - destruct (getCategories_spec w) as (log & cs & E & Hnodup & Hin).
    exists cs. eexists. split; [exact E|]. split; [done|]. split; [done|].
    intros c. rewrite Hin. by setoid_rewrite (elem_of_loadedNotes w _ Hread).
  - destruct (getAllTags_spec w) as (log & tags & E & Hnodup & Hin).
    exists tags. eexists. split; [exact E|]. split; [done|]. split; [done|].
    intros tag. rewrite Hin. by setoid_rewrite (elem_of_loadedNotes w _ Hread).
Qed.

Lemma categories_and_tags_are_listed_once_witness :
  ∃ categories w' tags w'',
    NoteService.getCategories sampleWorld = (Returned categories, w')
    ∧ NoDup categories
    ∧ NoteService.getAllTags sampleWorld = (Returned tags, w'')
    ∧ NoDup tags.
Proof.
  destruct (categories_and_tags_are_listed_once sampleWorld eq_refl)
    as [(cs & w' & E & _ & Hcs & _) (tags & w'' & E' & _ & Htags & _)].
  by exists cs, w', tags, w''.
Defined.

(** X10. [getNotesStats] reads the collection three times and leaves the
    storage as it is.  When the three reads are delivered, [total] is the
    number of stored notes, [pinned] the number of pinned ones,
    [categories] the number of different non-empty categories and [tags]
    the number of different tags among the stored notes. *)
Theorem getNotesStats_counts w :
  rejects w 0%nat = false → rejects w 1%nat = false →
  rejects w 2%nat = false →
  ∃ stats w' (categories tags : gset string),
    NoteService.getNotesStats w = (Returned stats, w')
    ∧ storage w' = storage w
    ∧ NoteService.Stats.total stats = length (storedNotes w)
    ∧ NoteService.Stats.pinned stats
      = length (filter (λ note, Note.isPinned note = true) (storedNotes w))
    ∧ (∀ c, c ∈ categories
            ↔ c ≠ EmptyString
              ∧ ∃ note, note ∈ storedNotes w ∧ Note.category note = Some c)
    ∧ NoteService.Stats.categories stats = size categories
    ∧ (∀ tag, tag ∈ tags
              ↔ ∃ note ts, note ∈ storedNotes w
                           ∧ Note.tags note = Some ts ∧ tag ∈ ts)
    ∧ NoteService.Stats.tags stats = size tags.
Proof.
  intros Hr0 Hr1 Hr2.
  destruct (getNotes_spec w) as [log E].
  unfold NoteService.getNotesStats, bind. rewrite E.
  match goal with |- context [NoteService.getCategories ?w1] =>
    destruct (getCategories_spec w1) as (log1 & cs & E1 & Hcs & Hcs_in);
    assert (∀ note, note ∈ loadedNotes w1 ↔ note ∈ storedNotes w) as Hl1
  end.
  { intros note. by rewrite elem_of_loadedNotes. }
  rewrite E1.
  match goal with |- context [NoteService.getAllTags ?w2] =>
    destruct (getAllTags_spec w2) as (log2 & tags & E2 & Htags & Htags_in);
    assert (∀ note, note ∈ loadedNotes w2 ↔ note ∈ storedNotes w) as Hl2
  end.
  { intros note. by rewrite elem_of_loadedNotes. }
  rewrite E2. simpl.
  eexists _, _, (list_to_set cs), (list_to_set tags).
  split; [reflexivity|]. split; [done|]. simpl.
  unfold loadedNotes. rewrite Hr0.
  split; [by rewrite Array_sort_length|].
  split; [by rewrite Array_sort_Permutation|].
  split.
  { intros c. rewrite elem_of_list_to_set, Hcs_in. by setoid_rewrite Hl1. }
  split; [by rewrite size_list_to_set|].
  split.
  { intros tag. rewrite elem_of_list_to_set, Htags_in. by setoid_rewrite Hl2. }
  by rewrite size_list_to_set.
Qed.

Lemma getNotesStats_counts_witness :
  ∃ stats w',
    NoteService.getNotesStats sampleWorld = (Returned stats, w')
    ∧ NoteService.Stats.total stats = 3%nat
    ∧ NoteService.Stats.pinned stats = 1%nat.
Proof.
  destruct (getNotesStats_counts sampleWorld eq_refl eq_refl eq_refl)
    as (stats & w' & cs & tags & E & _ & Htotal & Hpinned & _).
  vm_compute in Htotal, Hpinned. by exists stats, w'.
Defined.


(** ** Ids *)

Lemma updateTodo_ids id data w :
  Todo.id <$> storedTodos (TodoService.updateTodo id data w).2
  = Todo.id <$> storedTodos w
  ∨ storedTodos (TodoService.updateTodo id data w).2 = storedTodos w.
Proof.
  destruct (list_find (λ todo, Todo.id todo = id) (loadedTodos w))
    as [[index old]|] eqn:Hfind.
  - destruct (updateTodo_found id data w index old Hfind) as [log ->].
    destruct (rejects w 1%nat); simpl; [by right|]. left.
    rewrite storedTodos_later, lookup_insert_eq.
    apply list_find_Some in Hfind as (Hlook & Hold & _).
    unfold loadedTodos in *. destruct (rejects w 0%nat).
    { by rewrite lookup_nil in Hlook. }
    rewrite list_fmap_insert. simpl. apply list_insert_id.
    rewrite list_lookup_fmap, Hlook. done.
  - destruct (updateTodo_missing id data w Hfind) as [log ->]. by right.
Qed.

(** X11. Creations whose [Date.now()] reads differ give different ids.
    The ids of the stored todos stay pairwise different under [updateTodo]
    and [deleteTodo], and under [createTodo] when the clock value it reads
    is not the one that a stored id was made from. *)
Theorem todo_ids_stay_unique w :
  NoDup (Todo.id <$> storedTodos w) →
  (∀ data1 data2 w1 w2 todo1 todo2 w1' w2',
      TodoService.createTodo data1 w1 = (Returned todo1, w1') →
      TodoService.createTodo data2 w2 = (Returned todo2, w2') →
      clock w1 0%nat ≠ clock w2 0%nat → Todo.id todo1 ≠ Todo.id todo2)
  ∧ (∀ data,
       (∀ todo, todo ∈ storedTodos w → Todo.id todo ≠ pretty (clock w 0%nat)) →
       NoDup (Todo.id <$> storedTodos (TodoService.createTodo data w).2))
  ∧ (∀ id data,
       NoDup (Todo.id <$> storedTodos (TodoService.updateTodo id data w).2))
  ∧ (∀ id, NoDup (Todo.id <$> storedTodos (TodoService.deleteTodo id w).2)).
Proof.
  intros Hnodup. split_and!.
  - intros data1 data2 w1 w2 todo1 todo2 w1' w2' E1 E2 Hclock.
    destruct (createTodo_spec data1 w1) as [log1 F1].
    destruct (createTodo_spec data2 w2) as [log2 F2].
    rewrite E1 in F1. rewrite E2 in F2.
    destruct (rejects w1 1%nat), (rejects w2 1%nat); try discriminate.
    injection F1 as -> _. injection F2 as -> _. simpl.
    intros Heq. by apply (inj pretty) in Heq.
  - intros data Hfresh. destruct (createTodo_spec data w) as [log ->].
    destruct (rejects w 1%nat); simpl; [done|].
    rewrite storedTodos_later, lookup_insert_eq, fmap_app. simpl.
    unfold loadedTodos. destruct (rejects w 0%nat).
    { simpl. apply NoDup_singleton. }
    apply NoDup_app. split; [done|]. split; [|apply NoDup_singleton].
    intros id (todo & -> & Hin)%list_elem_of_fmap Hnew%list_elem_of_singleton.
    by apply (Hfresh todo).
  - intros id data. destruct (updateTodo_ids id data w) as [-> | ->]; done.
  - intros id. destruct (deleteTodo_spec id w) as [log ->].
    destruct (rejects w 1%nat); simpl; [done|].
    rewrite storedTodos_later, lookup_insert_eq.
    unfold loadedTodos. destruct (rejects w 0%nat); [constructor|].
    clear -Hnodup. induction (storedTodos w) as [|t l IH]; [constructor|].
    rewrite fmap_cons in Hnodup. apply NoDup_cons in Hnodup as [Ht Hl].
    rewrite filter_cons. case_decide; [|by apply IH].
    rewrite fmap_cons. apply NoDup_cons. split; [|by apply IH].
    intros (t' & Hid & [_ Hin]%list_elem_of_filter)%list_elem_of_fmap.
    apply Ht, list_elem_of_fmap. by exists t'.
Qed.

Lemma sampleTodos_ids_unique : NoDup (Todo.id <$> storedTodos sampleWorld).
Proof.
  vm_compute. repeat constructor; intros Hin;
    repeat (apply elem_of_cons in Hin as [Hin|Hin]; [discriminate|]);
    by apply elem_of_nil in Hin.
Qed.

Lemma todo_ids_stay_unique_witness :
  NoDup (Todo.id <$> storedTodos
           (TodoService.createTodo (CreateTodoDto.mk "ship" None None None)
                                   sampleWorld).2).
Proof.
  pose proof (todo_ids_stay_unique sampleWorld sampleTodos_ids_unique)
    as (_ & Hcreate & _).
  apply (Hcreate (CreateTodoDto.mk "ship" None None None)).
  intros todo Hin. vm_compute in Hin.
  repeat (apply elem_of_cons in Hin as [->|Hin]; [vm_compute; discriminate|]).
  by apply elem_of_nil in Hin.
Defined.

(** ** The records that are built *)

(** X12. [createNote] returns a note with the title, content and category
    of the dto, with the tags of the dto or the empty list when the dto
    has none (never without tags), pinned only if the dto says so, the id
    made from the first clock read and [createdAt] and [updatedAt] from the
    second and third; the note is stored behind the notes that were read. *)
Theorem createNote_builds_the_record data w :
  rejects w 1%nat = false →
  ∃ note w',
    NoteService.createNote data w = (Returned note, w')
    ∧ storedNotes w' = loadedNotes w ++ [note]
    ∧ Note.id note = pretty (clock w 0%nat)
    ∧ Note.title note = CreateNoteDto.title data
    ∧ Note.content note = CreateNoteDto.content data
    ∧ Note.category note = CreateNoteDto.category data
    ∧ (∀ tags, CreateNoteDto.tags data = Some tags → Note.tags note = Some tags)
    ∧ (CreateNoteDto.tags data = None → Note.tags note = Some [])
    ∧ (Note.isPinned note = true ↔ CreateNoteDto.isPinned data = Some true)
    ∧ Note.createdAt note = JSDate.toISOString (clock w 1%nat)
    ∧ Note.updatedAt note = JSDate.toISOString (clock w 2%nat).
Proof.
  intros Hsave. destruct (createNote_spec data w) as [log E].
  rewrite Hsave in E. eexists _, _. split; [exact E|].
  split; [by rewrite storedNotes_later, lookup_insert_eq|]. simpl.
  split_and!; try done.
  - by intros tags ->.
  - by intros ->.
  - destruct (CreateNoteDto.isPinned data) as [[|]|]; simpl; split; congruence.
Qed.

Lemma createNote_builds_the_record_witness :
  ∃ note w',
    NoteService.createNote (CreateNoteDto.mk "a" "b" None None None) sampleWorld
    = (Returned note, w')
    ∧ Note.tags note = Some [] ∧ Note.id note = "1700000000000"%string.
Proof.
  destruct (createNote_builds_the_record
              (CreateNoteDto.mk "a" "b" None None None) sampleWorld eq_refl)
    as (note & w' & E & _ & Hid & _ & _ & _ & _ & Htags & _).
  exists note, w'. split; [exact E|]. split; [by apply Htags|].
  rewrite Hid. vm_compute. reflexivity.
Defined.

(** X13. In the record that an update returns, every field that is present
    in the dto has the value of the dto; a category, tag list, description
    or due date that the dto holds as [undefined] is removed. *)
Theorem update_takes_the_dto_fields w id :
  rejects w 0%nat = false → rejects w 1%nat = false →
  (id ∈ Note.id <$> storedNotes w →
   ∀ data, ∃ updated w',
     NoteService.updateNote id data w = (Returned (Some updated), w')
     ∧ (∀ v, UpdateNoteDto.title data = Some v → Note.title updated = v)
     ∧ (∀ v, UpdateNoteDto.content data = Some v → Note.content updated = v)
     ∧ (∀ v, UpdateNoteDto.category data = Some v → Note.category updated = v)
     ∧ (∀ v, UpdateNoteDto.tags data = Some v → Note.tags updated = v)
     ∧ (∀ v, UpdateNoteDto.isPinned data = Some v → Note.isPinned updated = v))
  ∧ (id ∈ Todo.id <$> storedTodos w →
     ∀ data, ∃ updated w',
       TodoService.updateTodo id data w = (Returned (Some updated), w')
       ∧ (∀ v, UpdateTodoDto.title data = Some v → Todo.title updated = v)
       ∧ (∀ v, UpdateTodoDto.description data = Some v
               → Todo.description updated = v)
       ∧ (∀ v, UpdateTodoDto.priority data = Some v → Todo.priority updated = v)
       ∧ (∀ v, UpdateTodoDto.dueDate data = Some v → Todo.dueDate updated = v)
       ∧ (∀ v, UpdateTodoDto.completed data = Some v
               → Todo.completed updated = v)).
Proof.
  intros Hread Hsave. split; intros Hid data.
  - destruct (loadedNotes_find w id Hread Hid) as (index & old & Hfind & _).
    destruct (updateNote_found id data w index old Hfind) as [log E].
    rewrite Hsave in E. eexists _, _. split; [exact E|]. simpl.
    split_and!; by intros v ->.
  - destruct (loadedTodos_find w id Hread Hid) as (index & old & Hfind & _).
    destruct (updateTodo_found id data w index old Hfind) as [log E].
    rewrite Hsave in E. eexists _, _. split; [exact E|]. simpl.
    split_and!; by intros v ->.
Qed.

Lemma update_takes_the_dto_fields_witness :
  ∃ updated w',
    NoteService.updateNote "2"
      (UpdateNoteDto.mk (Some "door keys") None (Some None) None None)
      sampleWorld = (Returned (Some updated), w')
    ∧ Note.title updated = "door keys"%string
    ∧ Note.category updated = None.
Proof.
  destruct (update_takes_the_dto_fields sampleWorld "2" eq_refl eq_refl)
    as [Hnote _].
  destruct (Hnote ltac:(vm_compute; repeat constructor)
              (UpdateNoteDto.mk (Some "door keys") None (Some None) None None))
    as (updated & w' & E & Htitle & _ & Hcat & _).
  exists updated, w'. split; [exact E|]. split; [by apply Htitle|by apply Hcat].
Defined.


(** ** Where a new note is listed *)

Lemma sortInsert_front {A} (cmp : A → A → option Z) x l :
  Forall (sortsBefore cmp x) l → sortInsert cmp x l = x :: l.
Proof.
  destruct 1 as [|y l Hy _]; simpl; [done|].
  unfold sortsBefore in Hy. apply Z.leb_le in Hy. by rewrite Hy.
Qed.

(** Sorting a sorted array with one more element [n] at its end, when each
    element either has to stay in front of [n] or sorts strictly behind. *)
Lemma Array_sort_snoc {A} (cmp : A → A → option Z) (front : A → Prop)
    `{∀ x, Decision (front x)} (l : list A) (n : A) :
  StronglySorted (sortsBefore cmp) l →
  StronglySorted (λ x y, front y → front x) l →
  Forall (λ x, if decide (front x) then SortCompare cmp x n <= 0
               else 0 < SortCompare cmp x n) l →
  Array_sort cmp (l ++ [n])
  = filter front l ++ n :: filter (λ x, ¬ front x) l.
Proof.
  unfold Array_sort. rewrite foldr_app. simpl.
  induction l as [|x l IH]; intros Hsorted Hfront Hn; [done|].
  apply StronglySorted_inv in Hsorted as [Hsorted Hx].
  apply StronglySorted_inv in Hfront as [Hfront Hfx].
  apply Forall_cons in Hn as [Hxn Hn].
  simpl. rewrite IH by done. rewrite !filter_cons.
  destruct (decide (front x)) as [Hf|Hf].
  - rewrite decide_False by tauto. simpl. apply sortInsert_front.
    apply Forall_app. split.
    + apply Forall_forall. intros y [_ Hy]%list_elem_of_filter.
      rewrite Forall_forall in Hx. by apply Hx.
    + constructor; [done|].
      apply Forall_forall. intros y [_ Hy]%list_elem_of_filter.
      rewrite Forall_forall in Hx. by apply Hx.
  - rewrite decide_True by done.
    assert (filter front l = []) as ->.
    { clear -Hfx Hf. induction Hfx as [|y l Hy _ IH]; [done|].
      rewrite filter_cons_False; [done|]. tauto. }
    simpl. apply Z.leb_gt in Hxn. rewrite Hxn. f_equal.
    apply sortInsert_front.
    apply Forall_forall. intros y [_ Hy]%list_elem_of_filter.
    rewrite Forall_forall in Hx. by apply Hx.
Qed.

Lemma filter_front_back {A} (front : A → Prop) `{∀ x, Decision (front x)}
    (l : list A) :
  StronglySorted (λ x y, front y → front x) l →
  filter front l ++ filter (λ x, ¬ front x) l = l.
Proof.
  induction 1 as [|x l Hl IH Hx]; [done|]. rewrite !filter_cons.
  destruct (decide (front x)) as [Hf|Hf].
  - rewrite decide_False by tauto. simpl. by rewrite IH.
  - rewrite decide_True by done.
    assert (filter front l = []) as Hnil.
    { clear -Hx Hf. induction Hx as [|y l Hy _ IH]; [done|].
      rewrite filter_cons_False; [done|]. tauto. }
    rewrite Hnil in *. simpl in *. by rewrite IH.
Qed.

Lemma StronglySorted_mono {A} (R S : relation A) (l : list A) :
  (∀ x y, R x y → S x y) → StronglySorted R l → StronglySorted S l.
Proof.
  intros HRS. induction 1 as [|x l Hl IH Hx]; constructor; [done|].
  eapply Forall_impl; [exact Hx|]. by intros y; apply HRS.
Qed.

(** X15. After a note is created, [getNotes] lists it first in its group:
    a pinned new note is the first note of all, an unpinned one follows
    the pinned notes, and the other notes are in the order [getNotes] gave
    them before.  This is for stored notes whose [updatedAt] lies before
    the clock read that stamps the new note. *)
Theorem created_note_is_listed_first_in_its_group data w :
  rejects w 0%nat = false → rejects w 1%nat = false →
  rejects w 2%nat = false →
  0 <= JSDate.YearFromTime (clock w 2%nat) <= 9999 →
  Forall (λ x, ∃ t, NoteService.getTime (Note.updatedAt x) = Some t
                    ∧ t < clock w 2%nat) (storedNotes w) →
  ∃ note w1 notes w2 front back,
    NoteService.createNote data w = (Returned note, w1)
    ∧ NoteService.getNotes w1 = (Returned notes, w2)
    ∧ notes = front ++ note :: back
    ∧ front ++ back = Array_sort NoteService.compareNotes (storedNotes w)
    ∧ Forall (λ x, Note.isPinned x = true ∧ Note.isPinned note = false) front
    ∧ Forall (λ x, Note.isPinned x = true → Note.isPinned note = true) back.
Proof.
  intros Hr0 Hr1 Hr2 Hyear Hold.
  destruct (createNote_spec data w) as [log E]. rewrite Hr1 in E.
  simpl in E. unfold loadedNotes in E. rewrite Hr0 in E.
  set (note := createdNote data (clock w 0%nat) (clock w 1%nat)
                           (clock w 2%nat)) in *.
  set (sorted := Array_sort NoteService.compareNotes (storedNotes w)) in *.
  match type of E with _ = (_, ?w1) =>
    destruct (getNotes_spec w1) as [log2 E2];
    assert (loadedNotes w1
            = Array_sort NoteService.compareNotes (sorted ++ [note])) as Hl
  end.
  { unfold loadedNotes. simpl. rewrite Hr2.
    by rewrite storedNotes_later, lookup_insert_eq. }
  rewrite Hl in E2.
  set (front := λ x : Note.t,
         Note.isPinned x = true ∧ Note.isPinned note = false).
  assert (Forall timestamped (storedNotes w)) as Hvalid.
  { eapply Forall_impl; [exact Hold|]. intros x (t & Ht & _). by exists t. }
  assert (NoteService.getTime (Note.updatedAt note) = Some (clock w 2%nat))
    as Hnew by (by apply parse_toISOString).
  assert (StronglySorted (λ x y, front y → front x) sorted) as Hfront.
  { eapply StronglySorted_mono; [|apply getNotes_sort_pinnedFirst].
    intros x y Hxy [Hy Hn]. split; [by apply Hxy|done]. }
  rewrite (Array_sort_snoc _ front) in E2.
  - eexists note, _, _, _, (filter front sorted),
      (filter (λ x, ¬ front x) sorted).
    split; [exact E|]. split; [exact E2|]. split; [done|].
    split; [by apply filter_front_back|]. split.
    + apply Forall_forall. by intros x [Hx _]%list_elem_of_filter.
    + apply Forall_forall. intros x [Hx _]%list_elem_of_filter Hp.
      unfold front in Hx. destruct (Note.isPinned note); [done|tauto].
  - by apply getNotes_sort_sortsBefore.
  - done.
  - apply Forall_forall. intros x Hx.
    assert (x ∈ storedNotes w) as Hin
      by (by rewrite <- (Array_sort_Permutation NoteService.compareNotes)).
    rewrite Forall_forall in Hold. destruct (Hold x Hin) as (t & Ht & Hlt).
    destruct (decide (front x)) as [[Hpx Hpn]|Hf].
    + rewrite SortCompare_notes_pinned by congruence. by rewrite Hpx.
    + destruct (decide (Note.isPinned x = Note.isPinned note)) as [Heq|Hne].
      * rewrite (SortCompare_notes_dated x note t (clock w 2%nat)) by done.
        lia.
      * rewrite SortCompare_notes_pinned by done.
        destruct (Note.isPinned x) eqn:Hpx; [|done].
        exfalso. apply Hf. split; [done|].
        destruct (Note.isPinned note); [done|done].
Qed.

Lemma created_note_is_listed_first_in_its_group_witness :
  ∃ note w1 notes w2 front back,
    NoteService.createNote (CreateNoteDto.mk "a" "b" None None None) laterWorld
    = (Returned note, w1)
    ∧ NoteService.getNotes w1 = (Returned notes, w2)
    ∧ notes = front ++ note :: back
    ∧ Forall (λ x, Note.isPinned x = true ∧ Note.isPinned note = false) front.
Proof.
  destruct (created_note_is_listed_first_in_its_group
              (CreateNoteDto.mk "a" "b" None None None) laterWorld
              eq_refl eq_refl eq_refl)
    as (note & w1 & notes & w2 & front & back & E & E2 & Hn & _ & Hfront & _).
  - assert (JSDate.YearFromTime (clock laterWorld 2%nat) = 2027) as ->
      by (vm_compute; reflexivity).
    lia.
  - repeat constructor; eexists; (split; [vm_compute; reflexivity|]);
      vm_compute; reflexivity.
  - by exists note, w1, notes, w2, front, back.
Defined.


(** ** The todo screen *)

Lemma updateTodo_replacesOne id data w :
  loadedTodos w = [] ∨ loadedTodos w = storedTodos w →
  replacesOne id w (TodoService.updateTodo id data w).
Proof.
  intros Hl.
  destruct (list_find (λ todo, Todo.id todo = id) (loadedTodos w))
    as [[index old]|] eqn:Hfind.
  - destruct (updateTodo_found id data w index old Hfind) as [log ->].
    destruct Hl as [Hl|Hl]; rewrite Hl in *; [done|].
    apply list_find_Some in Hfind as (Hlook & Hold & _).
    destruct (rejects w 1%nat); simpl.
    + right. split; [right; by eexists|done].
    + left. eexists index, old, _. simpl. split; [done|].
      split; [done|]. split; [done|]. split; [done|].
      by rewrite storedTodos_later, lookup_insert_eq.
  - destruct (updateTodo_missing id data w Hfind) as [log ->].
    right. split; [right; by eexists|done].
Qed.

Lemma toggleTodo_replacesOne id w :
  rejects w 0%nat = false →
  replacesOne id w (TodoService.toggleTodo id w).
Proof.
  intros Hread. destruct (getTodoById_spec id w) as [log E].
  unfold TodoService.toggleTodo, bind. rewrite E.
  destruct (snd <$> _) as [found|]; [|right; split; [by left|done]].
  match goal with |- replacesOne _ _ (TodoService.updateTodo _ ?data ?w1) =>
    pose proof (updateTodo_replacesOne id data w1) as Hupd end.
  unfold replacesOne in *. rewrite !storedTodos_later in Hupd.
  fold (storedTodos w) in Hupd. apply Hupd.
  unfold loadedTodos. simpl. destruct (rejects w 1%nat); [by left|by right].
Qed.

Lemma replaceById_insert (l : list Todo.t) index old updated :
  NoDup (Todo.id <$> l) → l !! index = Some old →
  Todo.id updated = Todo.id old →
  TodoScreen.replaceById updated l = <[index := updated]> l.
Proof.
  intros Hnodup Hlook Hid. unfold TodoScreen.replaceById.
  apply list_eq. intros i. rewrite list_lookup_fmap.
  destruct (decide (i = index)) as [->|Hne].
  - rewrite list_lookup_insert_eq by (by eapply lookup_lt_Some).
    rewrite Hlook. simpl. by rewrite decide_True.
  - rewrite list_lookup_insert_ne by done.
    destruct (l !! i) as [todo|] eqn:Hi; simpl; [|done].
    rewrite decide_False; [done|]. intros Heq. apply Hne.
    apply (NoDup_lookup _ i index (Todo.id todo) Hnodup);
      rewrite list_lookup_fmap; [by rewrite Hi|].
    rewrite Hlook. simpl. congruence.
Qed.

(** X16. The todo screen shows what is stored.  If the list on the screen
    is the stored collection, the stored ids are pairwise different and
    the first read of the storage is delivered, then after loading,
    refreshing, submitting a new or an edited todo, toggling or deleting,
    the list on the screen is again the stored collection, whether the
    service call succeeded or threw.  No handler throws. *)
Theorem todo_screen_shows_the_stored_todos action s w :
  rejects w 0%nat = false →
  NoDup (Todo.id <$> storedTodos w) →
  TodoScreen.todos s = storedTodos w →
  ∃ s' w',
    todoScreen action s w = (Returned s', w')
    ∧ TodoScreen.todos s' = storedTodos w'.
Proof.
  intros Hread Hnodup Hsync.
  assert (loadedTodos w = storedTodos w) as Hl
    by (unfold loadedTodos; by rewrite Hread).
  destruct action as [| |data|data|id|id]; simpl.
  - destruct (getTodos_spec w) as [log E].
    unfold TodoScreen.loadTodos, try_catch, bind. rewrite E, Hl. simpl.
    by eexists _, _.
  - destruct (getTodos_spec w) as [log E].
    unfold TodoScreen.handleRefresh, TodoScreen.loadTodos, try_catch, bind.
    rewrite E, Hl. simpl. by eexists _, _.
  - destruct (createTodo_spec data w) as [log E].
    unfold TodoScreen.handleCreateTodo, try_catch, bind. rewrite E.
    destruct (rejects w 1%nat); simpl; eexists _, _; (split; [reflexivity|]).
    + done.
    + simpl. by rewrite storedTodos_later, lookup_insert_eq, Hl, Hsync.
  - unfold TodoScreen.handleUpdateTodo.
    destruct (TodoScreen.editingTodo s) as [editing|]; [|by eexists _, _].
    pose proof (updateTodo_replacesOne (Todo.id editing) data w
                  (or_intror Hl)) as Hcases.
    unfold try_catch, bind, replacesOne in *.
    destruct (TodoService.updateTodo (Todo.id editing) data w)
      as [[[updated|]|e] w1]; simpl in *.
    + destruct Hcases
        as [(index & old & upd & [= <-] & Hlook & Hold & Hupd & Hst)
           | [[?|[? ?]] _]]; [|done..].
      eexists _, _. split; [reflexivity|]. simpl.
      rewrite Hst, Hsync. apply (replaceById_insert _ index old); [done..|].
      congruence.
    + destruct Hcases as [(? & ? & ? & ? & _) | [_ Hst]]; [done|].
      eexists _, _. split; [reflexivity|]. simpl.
      unfold storedTodos. by rewrite Hst.
    + destruct Hcases as [(? & ? & ? & ? & _) | [_ Hst]]; [done|].
      eexists _, _. split; [reflexivity|]. simpl.
      unfold storedTodos. by rewrite Hst.
  - pose proof (toggleTodo_replacesOne id w Hread) as Hcases.
    unfold TodoScreen.handleToggleTodo, try_catch, bind, replacesOne in *.
    destruct (TodoService.toggleTodo id w) as [[[updated|]|e] w1]; simpl in *.
    + destruct Hcases
        as [(index & old & upd & [= <-] & Hlook & Hold & Hupd & Hst)
           | [[?|[? ?]] _]]; [|done..].
      eexists _, _. split; [reflexivity|]. simpl.
      rewrite Hst, Hsync. apply (replaceById_insert _ index old); [done..|].
      congruence.
    + destruct Hcases as [(? & ? & ? & ? & _) | [_ Hst]]; [done|].
      eexists _, _. split; [reflexivity|]. simpl.
      unfold storedTodos. by rewrite Hst.
    + destruct Hcases as [(? & ? & ? & ? & _) | [_ Hst]]; [done|].
      eexists _, _. split; [reflexivity|]. simpl.
      unfold storedTodos. by rewrite Hst.
  - destruct (deleteTodo_spec id w) as [log E].
    unfold TodoScreen.handleDeleteTodo, try_catch, bind. rewrite E.
    destruct (rejects w 1%nat); simpl; eexists _, _; (split; [reflexivity|]).
    + done.
    + simpl. by rewrite storedTodos_later, lookup_insert_eq, Hl, Hsync.
Qed.

Lemma todo_screen_shows_the_stored_todos_witness :
  ∃ s' w',
    todoScreen (Toggle "11")
               (TodoScreen.setTodos sampleTodos TodoScreen.initial) sampleWorld
    = (Returned s', w')
    ∧ TodoScreen.todos s' = storedTodos w'.
Proof.
  apply todo_screen_shows_the_stored_todos.
  - reflexivity.
  - apply sampleTodos_ids_unique.
  - vm_compute. reflexivity.
Defined.


(** ** Creating and deleting *)

(** X17. Deleting a todo by the id that [createTodo] returned removes the
    new todo and every stored todo that had the same id; when no stored
    todo had that id, the collection is again what it was. *)
Theorem deleting_the_created_todo w data :
  rejects w 0%nat = false → rejects w 1%nat = false →
  rejects w 2%nat = false → rejects w 3%nat = false →
  ∃ todo w1 w2,
    TodoService.createTodo data w = (Returned todo, w1)
    ∧ TodoService.deleteTodo (Todo.id todo) w1 = (Returned (), w2)
    ∧ storedTodos w2
      = filter (λ t, Todo.id t ≠ Todo.id todo) (storedTodos w)
    ∧ (Todo.id todo ∉ Todo.id <$> storedTodos w →
       storedTodos w2 = storedTodos w).
Proof.
  intros Hr0 Hr1 Hr2 Hr3.
  destruct (createTodo_spec data w) as [log E]. rewrite Hr1 in E.
  simpl in E. unfold loadedTodos in E. rewrite Hr0 in E.
  set (todo := createdTodo data (clock w 0%nat) (clock w 1%nat)
                           (clock w 2%nat)) in *.
  match type of E with _ = (_, ?w1) =>
    destruct (deleteTodo_stored w1 (Todo.id todo)) as [log' E'];
    [done..|] end.
  rewrite storedTodos_later, lookup_insert_eq in E'.
  eexists todo, _, _. split; [exact E|]. split; [exact E'|].
  assert (filter (λ t, Todo.id t ≠ Todo.id todo) (storedTodos w ++ [todo])
          = filter (λ t, Todo.id t ≠ Todo.id todo) (storedTodos w)) as Hf.
  { rewrite filter_app, filter_cons_False by (by intros []).
    by rewrite filter_nil, app_nil_r. }
  rewrite storedTodos_later, lookup_insert_eq, Hf.
  split; [done|]. apply filter_absent_id.
Qed.

Lemma deleting_the_created_todo_witness :
  ∃ todo w1 w2,
    TodoService.createTodo (CreateTodoDto.mk "ship" None None None) sampleWorld
    = (Returned todo, w1)
    ∧ TodoService.deleteTodo (Todo.id todo) w1 = (Returned (), w2)
    ∧ storedTodos w2
      = filter (λ t, Todo.id t ≠ Todo.id todo) (storedTodos sampleWorld).
Proof.
  destruct (deleting_the_created_todo sampleWorld
              (CreateTodoDto.mk "ship" None None None)
              eq_refl eq_refl eq_refl eq_refl)
    as (todo & w1 & w2 & E & E' & Hst & _).
  by exists todo, w1, w2.
Defined.

(** ** The timestamp invariant, on a sample *)

Lemma noteService_keeps_timestamps_witness :
  Forall timestamped
         (storedNotes
            (noteService (CreateNote (CreateNoteDto.mk "a" "b" None None None))
                         stoppedClockWorld).2).
Proof.
  apply noteService_keeps_timestamps.
  - intros k. assert (JSDate.YearFromTime (clock stoppedClockWorld k) = 2023)
      as -> by (vm_compute; reflexivity). lia.
  - apply sampleNotes_timestamped.
Defined.


(** ** The notes screen *)

Lemma loadNotes_later s w io ticks st log :
  rejects w io = false →
  ∃ w',
    NotesScreen.loadNotes s (later w io ticks st log)
    = (Returned
         (NotesScreen.setRefreshing false
            (NotesScreen.setLoading false
               (NotesScreen.setNotes
                  (Array_sort NoteService.compareNotes
                     (storedNotes (later w io ticks st log))) s))),
       w')
    ∧ storage w' = st.
Proof.
  intros Hread. destruct (getNotes_spec (later w io ticks st log)) as [log' E].
  unfold NotesScreen.loadNotes, try_catch, bind. rewrite E. simpl.
  unfold loadedNotes. simpl. rewrite Nat.add_0_r, Hread. by eexists.
Qed.

(** X18. The notes screen shows the stored notes.  With a storage that
    delivers every call, if the notes on the screen are the stored notes
    in some order, then they are so again after loading, refreshing,
    submitting a new or an edited note, toggling a pin or deleting; after
    loading or refreshing they are in the order of [getNotes].  No handler
    throws. *)
Theorem notes_screen_shows_the_stored_notes action s w :
  (∀ n, rejects w n = false) →
  NotesScreen.notes s ≡ₚ storedNotes w →
  ∃ s' w',
    notesScreen action s w = (Returned s', w')
    ∧ NotesScreen.notes s' ≡ₚ storedNotes w'
    ∧ (action = LoadNotes ∨ action = RefreshNotes →
       NotesScreen.notes s'
       = Array_sort NoteService.compareNotes (storedNotes w')).
Proof.
  intros Hok Hsync.
  assert (loadedNotes w = Array_sort NoteService.compareNotes (storedNotes w))
    as Hl by (unfold loadedNotes; by rewrite Hok).
  pose proof (later_0 w) as Hw.
  destruct action as [| |data|data|id|id]; simpl.
  - destruct (loadNotes_later s w 0 0 (storage w) [] (Hok _))
      as (w' & E & Hst).
    rewrite Hw in E. rewrite E. eexists _, _. split; [reflexivity|]. simpl.
    unfold storedNotes at 2 4. rewrite Hst. fold (storedNotes w).
    split; [by rewrite Array_sort_Permutation|done].
  - unfold NotesScreen.handleRefresh.
    destruct (loadNotes_later (NotesScreen.setRefreshing true s) w 0 0
                (storage w) [] (Hok _)) as (w' & E & Hst).
    rewrite Hw in E. rewrite E. eexists _, _. split; [reflexivity|]. simpl.
    unfold storedNotes at 2 4. rewrite Hst. fold (storedNotes w).
    split; [by rewrite Array_sort_Permutation|done].
  - destruct (createNote_spec data w) as [log E].
    unfold NotesScreen.handleCreateNote, try_catch, bind. rewrite E, Hok.
    simpl. eexists _, _. split; [reflexivity|]. simpl.
    rewrite storedNotes_later, lookup_insert_eq, Hl.
    split; [|by intros [|]].
    by rewrite Array_sort_Permutation, <- Permutation_cons_append, Hsync.
  - unfold NotesScreen.handleUpdateNote.
    destruct (NotesScreen.editingNote s) as [editing|].
    2:{ eexists _, _. split; [reflexivity|]. split; [done|]. by intros [|]. }
    destruct (list_find (λ note, Note.id note = Note.id editing)
                (loadedNotes w)) as [[index old]|] eqn:Hfind.
    + destruct (updateNote_found _ data w index old Hfind) as [log E].
      rewrite Hok in E. unfold try_catch, bind. rewrite E.
      cbv beta iota. unfold bind.
      match goal with |- context [NotesScreen.loadNotes ?s1 (later _ _ _ ?st _)] =>
        destruct (loadNotes_later s1 w 2 1 st log (Hok _)) as (w' & E' & Hst)
      end.
      rewrite E'. eexists _, _. split; [reflexivity|]. simpl.
      rewrite storedNotes_later, lookup_insert_eq.
      unfold storedNotes. rewrite Hst, lookup_insert_eq.
      split; [by rewrite Array_sort_Permutation|by intros [|]].
    + destruct (updateNote_missing _ data w Hfind) as [log E].
      unfold try_catch, bind. rewrite E. simpl.
      eexists _, _. split; [reflexivity|].
      split; [exact Hsync|by intros [|]].
  - unfold NotesScreen.handleTogglePin.
    destruct (list_find (λ note, Note.id note = id) (loadedNotes w))
      as [[index old]|] eqn:Hfind.
    + destruct (togglePinNote_found w id index old (Hok _) (Hok _) (Hok _)
                  Hfind) as [log E].
      unfold try_catch, bind. rewrite E. cbv beta iota.
      match goal with |- context [NotesScreen.loadNotes ?s1 (later _ _ _ ?st _)] =>
        destruct (loadNotes_later s1 w 3 1 st log (Hok _)) as (w' & E' & Hst)
      end.
      rewrite E'. eexists _, _. split; [reflexivity|]. simpl.
      rewrite storedNotes_later, lookup_insert_eq.
      unfold storedNotes. rewrite Hst, lookup_insert_eq.
      split; [by rewrite Array_sort_Permutation|by intros [|]].
    + destruct (togglePinNote_missing id w Hfind) as [log E].
      unfold try_catch, bind. rewrite E. simpl.
      eexists _, _. split; [reflexivity|].
      split; [exact Hsync|by intros [|]].
  - destruct (deleteNote_spec id w) as [log E].
    unfold NotesScreen.handleDeleteNote, try_catch, bind. rewrite E, Hok.
    simpl. eexists _, _. split; [reflexivity|]. simpl.
    rewrite storedNotes_later, lookup_insert_eq, Hl.
    split; [|by intros [|]]. by rewrite Array_sort_Permutation, Hsync.
Qed.

Lemma notes_screen_shows_the_stored_notes_witness :
  ∃ s' w',
    notesScreen (TogglePin "2")
                (NotesScreen.setNotes sampleNotes NotesScreen.initial)
                sampleWorld
    = (Returned s', w')
    ∧ NotesScreen.notes s' ≡ₚ storedNotes w'.
Proof.
  destruct (notes_screen_shows_the_stored_notes (TogglePin "2")
              (NotesScreen.setNotes sampleNotes NotesScreen.initial)
              sampleWorld) as (s' & w' & E & Hsync & _).
  - intros n. reflexivity.
  - vm_compute. reflexivity.
  - by exists s', w'.
Defined.


(** ** Views of the notes *)

(** X19. The notes that [searchNotes] and [getNotesByCategory] return are
    taken from what [getNotes] returns without changing their order, so
    that, the timestamps being date strings, they too are listed pinned
    first and most recently updated first; the notes filed under a
    category all have that category. *)
Theorem note_views_keep_the_display_order js query category w :
  Forall timestamped (storedNotes w) →
  ∃ notes w0 found w1 filed w2,
    NoteService.getNotes w = (Returned notes, w0)
    ∧ NoteService.searchNotes js query w = (Returned found, w1)
    ∧ NoteService.getNotesByCategory category w = (Returned filed, w2)
    ∧ sublist found notes ∧ sublist filed notes
    ∧ StronglySorted displayOrder found
    ∧ StronglySorted displayOrder filed
    ∧ (∀ note, note ∈ filed ↔
               note ∈ notes ∧ Note.category note = Some category).
Proof.
  intros Hvalid. destruct (getNotes_spec w) as [log E].
  unfold NoteService.searchNotes, NoteService.getNotesByCategory, bind.
  rewrite E. cbv beta iota.
  assert (StronglySorted displayOrder (loadedNotes w)) as Hsorted.
  { unfold loadedNotes. destruct (rejects w 0%nat); [constructor|].
    by apply getNotes_sort_displayOrder. }
  eexists _, _, _, _, _, _. split; [reflexivity|].
  split; [reflexivity|]. split; [reflexivity|].
  split; [apply sublist_filter|]. split; [apply sublist_filter|].
  split; [by apply StronglySorted_filter|].
  split; [by apply StronglySorted_filter|].
  intros note. rewrite list_elem_of_filter. tauto.
Qed.

Lemma note_views_keep_the_display_order_witness :
  ∃ filed w2,
    NoteService.getNotesByCategory "work" sampleWorld = (Returned filed, w2)
    ∧ StronglySorted displayOrder filed.
Proof.
  destruct (note_views_keep_the_display_order
              (mkStringBuiltins (λ s, s) (λ _ _, true)) "" "work"
              sampleWorld)
    as (notes & w0 & found & w1 & filed & w2 & _ & _ & E & _ & _ & _ & H & _).
  - exact sampleNotes_timestamped.
  - by exists filed, w2.
Defined.

(** ** The counts on the screens *)

(** X20. The header counts of the todo screen are the counts of the
    service: when the screen shows the stored todos in some order and the
    read is delivered, [stats] gives the total, the active and the
    completed count of [getTodosStats]. *)
Theorem todo_screen_counts_are_the_service_counts s w :
  rejects w 0%nat = false →
  TodoScreen.todos s ≡ₚ storedTodos w →
  ∃ stats w',
    TodoService.getTodosStats w = (Returned stats, w')
    ∧ TodoScreen.stats s
      = (TodoService.Stats.total stats, TodoService.Stats.active stats,
         TodoService.Stats.completed stats).
Proof.
  intros Hread Hsync. destruct (getTodos_spec w) as [log E].
  unfold TodoService.getTodosStats, bind. rewrite E. cbv beta iota.
  unfold loadedTodos. rewrite Hread.
  eexists _, _. split; [reflexivity|]. unfold TodoScreen.stats. simpl.
  by rewrite Hsync.
Qed.

Lemma todo_screen_counts_are_the_service_counts_witness :
  ∃ stats w',
    TodoService.getTodosStats sampleWorld = (Returned stats, w')
    ∧ TodoScreen.stats (TodoScreen.setTodos sampleTodos TodoScreen.initial)
      = (TodoService.Stats.total stats, TodoService.Stats.active stats,
         TodoService.Stats.completed stats).
Proof.
  apply (todo_screen_counts_are_the_service_counts
           (TodoScreen.setTodos sampleTodos TodoScreen.initial) sampleWorld).
  - reflexivity.
  - vm_compute. reflexivity.
Defined.

(** X21. The counters of the settings screen.  With a storage that
    delivers every call, [loadStats] sets the two counters to the numbers
    of stored todos and notes, and confirming or cancelling either of the
    two clear dialogs keeps them so: a confirmed clear empties its own
    collection, sets its own counter to 0 and leaves the other collection
    as it was. *)
Theorem settings_screen_counts_the_stored_records action s w :
  (∀ n, rejects w n = false) →
  action = LoadStats
  ∨ (SettingsScreen.todoCount s = length (storedTodos w)
     ∧ SettingsScreen.noteCount s = length (storedNotes w)) →
  ∃ s' w',
    settingsScreen action s w = (Returned s', w')
    ∧ SettingsScreen.todoCount s' = length (storedTodos w')
    ∧ SettingsScreen.noteCount s' = length (storedNotes w')
    ∧ storedTodos w'
      = match action with
        | ClearTodosDialog SettingsScreen.Hapus => []
        | _ => storedTodos w
        end
    ∧ storedNotes w'
      = match action with
        | ClearNotesDialog SettingsScreen.Hapus => []
        | _ => storedNotes w
        end.
Proof.
  intros Hok Hsync. destruct action as [|[|]|[|]]; simpl.
  - destruct (getTodos_spec w) as [log E].
    unfold SettingsScreen.loadStats, bind. rewrite E. cbv beta iota.
    match goal with |- context [NoteService.getNotes ?w1] =>
      destruct (getNotes_spec w1) as [log' E'] end.
    rewrite E'. eexists _, _. split; [reflexivity|]. simpl.
    unfold loadedTodos, loadedNotes. simpl. rewrite !Hok.
    rewrite storedNotes_later. fold (storedNotes w).
    by rewrite Array_sort_length.
  - destruct Hsync as [|[? ?]]; [done|].
    eexists _, _. split; [reflexivity|]. done.
  - destruct Hsync as [|[? Hn]]; [done|].
    unfold SettingsScreen.handleClearAllTodos, TodoService.clearAllTodos,
      AsyncStorage.removeItem, bind.
    rewrite Hok. eexists _, _. split; [reflexivity|]. simpl.
    unfold storedTodos, storedNotes. simpl.
    rewrite lookup_delete_eq, lookup_delete_ne by done.
    fold (storedNotes w). done.
  - destruct Hsync as [|[? ?]]; [done|].
    eexists _, _. split; [reflexivity|]. done.
  - destruct Hsync as [|[Ht ?]]; [done|].
    unfold SettingsScreen.handleClearAllNotes, NoteService.clearAllNotes,
      AsyncStorage.removeItem, bind.
    rewrite Hok. eexists _, _. split; [reflexivity|]. simpl.
    unfold storedTodos, storedNotes. simpl.
    rewrite lookup_delete_eq, lookup_delete_ne by done.
    fold (storedTodos w). done.
Qed.

Lemma settings_screen_counts_the_stored_records_witness :
  ∃ s' w',
    settingsScreen (ClearTodosDialog SettingsScreen.Hapus)
                   (SettingsScreen.mkState 3 3 []) sampleWorld
    = (Returned s', w')
    ∧ SettingsScreen.todoCount s' = 0%nat
    ∧ SettingsScreen.noteCount s' = 3%nat
    ∧ storedNotes w' = sampleNotes.
Proof.
  destruct (settings_screen_counts_the_stored_records
              (ClearTodosDialog SettingsScreen.Hapus)
              (SettingsScreen.mkState 3 3 []) sampleWorld)
    as (s' & w' & E & Ht & Hn & Hst & Hsn).
  - intros n. reflexivity.
  - right. split; vm_compute; reflexivity.
  - exists s', w'. split; [exact E|]. rewrite Ht, Hn, Hst, Hsn.
    split; [reflexivity|]. split; vm_compute; reflexivity.
Defined.
